(** * MLST-INGA: a shallow embedding of the RSU transport, the public
      variable neighbourhood and the MLST recompute, with the properties
      of the specification settled against it.

    The C sources are header files for Contiki.  Every linked list of the
    sources ([rsu_history_list], [rsu_queue], [nbrList]) is a Rocq list in
    the order of the [next] pointers; fixed-width unsigned integers are [Z]
    with the wrap-around written out; a read through a null pointer is the
    explicit outcome [NullRead] (or [None]); callbacks and radio calls are
    recorded as events in the order in which the code performs them.
    [calloc] is taken to succeed. *)

From Stdlib Require Import ZArith List Bool Lia.
Import ListNotations.
Open Scope Z_scope.

(** ** Machine integers and link addresses *)

Definition uint8 (x : Z) : Z := x mod 2 ^ 8.
Definition uint16 (x : Z) : Z := x mod 2 ^ 16.

(** [unsigned long] on the ATmega of the INGA: 32 bits. *)
Definition ulong (x : Z) : Z := x mod 2 ^ 32.

Definition is_uint8 (x : Z) : Prop := 0 <= x < 2 ^ 8.
Definition is_uint16 (x : Z) : Prop := 0 <= x < 2 ^ 16.

(** [linkaddr_t]: the two bytes [u8[0]] and [u8[1]]. *)
Record linkaddr_t : Type := mk_linkaddr { u8_0 : Z; u8_1 : Z }.

Definition linkaddr_wf (a : linkaddr_t) : Prop :=
  is_uint8 (u8_0 a) /\ is_uint8 (u8_1 a).

(** [from->u8[0]<<8 | from->u8[1]], stored in a [uint16_t]. *)
Definition decode_id (from : linkaddr_t) : Z :=
  uint16 (Z.lor (Z.shiftl (u8_0 from) 8) (u8_1 from)).

(** [recv.u8[0] = id>>8; recv.u8[1] = id&0xFF]. *)
Definition encode_id (id : Z) : linkaddr_t :=
  {| u8_0 := uint8 (Z.shiftr id 8); u8_1 := uint8 (Z.land id 255) |}.

(** ** rsunicast_history.h *)

Module History.

Definition MAX_HISTORY_SIZE : Z := 30.

Record rsu_history_element : Type := mk_elem { id : Z; seqno : Z }.

(** The two globals [rsu_history_list] and [rsu_history_size]. *)
Record history : Type := mk_history {
  rsu_history_list : list rsu_history_element;
  rsu_history_size : Z
}.

Definition empty : history :=
  {| rsu_history_list := []; rsu_history_size := 0 |}.

Fixpoint rsu_check_history (l : list rsu_history_element) (from sq : Z)
  : bool :=
  match l with
  | [] => false
  | tmp :: next =>
      if (id tmp =? from) && (seqno tmp =? sq) then true
      else rsu_check_history next from sq
  end.

(** First loop of [rsu_add_history]: entries of [from] at the head are
    unlinked, each one decrementing the counter. *)
Fixpoint remove_at_head (l : list rsu_history_element) (size from : Z)
  : list rsu_history_element * Z :=
  match l with
  | e :: next =>
      if id e =? from then remove_at_head next (uint8 (size - 1)) from
      else (l, size)
  | [] => ([], size)
  end.

(** The [for] loop of the [else] branch, with the cursor [tmp] and the cells
    behind it.  The boolean tells whether the new entry was linked in (only
    then is the counter incremented).  After an unlink the loop's
    [tmp = tmp->next] moves the cursor onto the cell that followed the
    unlinked one; when there is none the cursor is null and the loop ends. *)
Fixpoint append_loop (tmp : rsu_history_element)
    (behind : list rsu_history_element) (from sq : Z)
  : list rsu_history_element * bool :=
  match behind with
  | [] => ([tmp; mk_elem from sq], true)
  | nx :: behind' =>
      if id nx =? from then
        match behind' with
        | [] => ([tmp], false)
        | c :: behind'' =>
            let (l, added) := append_loop c behind'' from sq in
            (tmp :: l, added)
        end
      else
        let (l, added) := append_loop nx behind' from sq in
        (tmp :: l, added)
  end.

(** Last loop: [while (rsu_history_size > MAX_HISTORY_SIZE)] unlinks the head;
    [None] is the read of [rsu_history_list->next] through a null list. *)
Fixpoint clean_oldest (l : list rsu_history_element) (size : Z)
  : option history :=
  if size >? MAX_HISTORY_SIZE then
    match l with
    | _ :: next => clean_oldest next (uint8 (size - 1))
    | [] => None
    end
  else Some (mk_history l size).

Definition rsu_add_history (h : history) (from sq : Z) : option history :=
  let (l1, size1) :=
    remove_at_head (rsu_history_list h) (rsu_history_size h) from in
  let (l2, size2) :=
    match l1 with
    | [] => ([mk_elem from sq], uint8 (size1 + 1))
    | tmp :: behind =>
        let (l, added) := append_loop tmp behind from sq in
        (l, if added then uint8 (size1 + 1) else size1)
    end in
  clean_oldest l2 size2.

(** A sequence of [rsu_add_history] calls, stopping at the first fault. *)
Fixpoint add_all (h : history) (calls : list (Z * Z)) : option history :=
  match calls with
  | [] => Some h
  | (from, sq) :: rest =>
      match rsu_add_history h from sq with
      | Some h' => add_all h' rest
      | None => None
      end
  end.

Definition ids (l : list rsu_history_element) : list Z := map id l.

(** The state of the history that [rsu_add_history] maintains: no source
    twice, and the counter between the length of the list and the
    maximum. *)
Definition history_ok (h : history) : Prop :=
  NoDup (ids (rsu_history_list h))
  /\ Z.of_nat (length (rsu_history_list h)) <= rsu_history_size h
  /\ rsu_history_size h <= MAX_HISTORY_SIZE.

(** The entry of [from] is the last cell of a list of two or more cells:
    the case in which the loop of [rsu_add_history] ends on a null cursor. *)
Definition buried (l : list rsu_history_element) (from : Z) : bool :=
  match l with
  | _ :: _ :: _ => id (last l (mk_elem 0 0)) =? from
  | _ => false
  end.

(** A history that is well formed and whose counter is zero when the list
    is empty: what every sequence of calls on the empty history gives. *)
Definition history_live (h : history) : Prop :=
  history_ok h /\ (rsu_history_list h = [] -> rsu_history_size h = 0).

End History.


(** ** rsunicast.h *)

Module RSU.

Definition MESSAGING_PORT : Z := 181.
Definition ACKNOWLEDGEMENT_PORT : Z := 182.
Definition MAX_TRIES : Z := 5.

(** A queue cell: the envelope [msg] (sequence number, then the payload),
    its length field [size] and the number of transmissions so far. *)
Record RSUnicastQueueElement : Type := mk_qe {
  msg : list Z;
  size : Z;
  tries : Z
}.

Inductive channel : Type := rsu_data_channel | rsu_ack_channel.

(** The function the single [rsu_timer] will call when it expires.  The
    delays are floating-point products with [random_rand()] and are not
    part of the model: an armed timer may expire at any later moment. *)
Inductive ctimer_callback : Type := to_send_next_message | to_on_ack_timeout.

(** What the transport does to its environment. *)
Inductive event : Type :=
| EvUnicastOpen (c : channel) (port : Z)
| EvUnicastClose (c : channel)
| EvUnicastSend (c : channel) (to : linkaddr_t) (packet : list Z)
| EvLostMessageCB (parent : Z) (times : Z)
| EvNewMessageForRootCB (payload : list Z)
| EvUnexpectedAck.

Record state : Type := mk_state {
  rsu_timer : option ctimer_callback;
  rsu_queue : list RSUnicastQueueElement;
  rsu_onLostMessageCB : bool;            (* is the pointer non-null *)
  rsu_seqno : Z;
  rsu_is_online : bool;
  rsu_is_allowed_to_sleep : bool;
  rsu_parent : Z;
  rsu_messages_in_queue : Z;
  rsu_on_new_message_for_root_cb : bool; (* is the pointer non-null *)
  rsu_history : History.history
}.

Definition set_timer (t : option ctimer_callback) (s : state) : state :=
  mk_state t (rsu_queue s) (rsu_onLostMessageCB s) (rsu_seqno s)
    (rsu_is_online s) (rsu_is_allowed_to_sleep s) (rsu_parent s)
    (rsu_messages_in_queue s) (rsu_on_new_message_for_root_cb s)
    (rsu_history s).

Definition set_queue (q : list RSUnicastQueueElement) (s : state) : state :=
  mk_state (rsu_timer s) q (rsu_onLostMessageCB s) (rsu_seqno s)
    (rsu_is_online s) (rsu_is_allowed_to_sleep s) (rsu_parent s)
    (rsu_messages_in_queue s) (rsu_on_new_message_for_root_cb s)
    (rsu_history s).

Definition set_onLostMessageCB (b : bool) (s : state) : state :=
  mk_state (rsu_timer s) (rsu_queue s) b (rsu_seqno s)
    (rsu_is_online s) (rsu_is_allowed_to_sleep s) (rsu_parent s)
    (rsu_messages_in_queue s) (rsu_on_new_message_for_root_cb s)
    (rsu_history s).

Definition set_seqno (n : Z) (s : state) : state :=
  mk_state (rsu_timer s) (rsu_queue s) (rsu_onLostMessageCB s) n
    (rsu_is_online s) (rsu_is_allowed_to_sleep s) (rsu_parent s)
    (rsu_messages_in_queue s) (rsu_on_new_message_for_root_cb s)
    (rsu_history s).

Definition set_is_online (b : bool) (s : state) : state :=
  mk_state (rsu_timer s) (rsu_queue s) (rsu_onLostMessageCB s) (rsu_seqno s)
    b (rsu_is_allowed_to_sleep s) (rsu_parent s)
    (rsu_messages_in_queue s) (rsu_on_new_message_for_root_cb s)
    (rsu_history s).

Definition set_is_allowed_to_sleep (b : bool) (s : state) : state :=
  mk_state (rsu_timer s) (rsu_queue s) (rsu_onLostMessageCB s) (rsu_seqno s)
    (rsu_is_online s) b (rsu_parent s)
    (rsu_messages_in_queue s) (rsu_on_new_message_for_root_cb s)
    (rsu_history s).

Definition set_parent (p : Z) (s : state) : state :=
  mk_state (rsu_timer s) (rsu_queue s) (rsu_onLostMessageCB s) (rsu_seqno s)
    (rsu_is_online s) (rsu_is_allowed_to_sleep s) p
    (rsu_messages_in_queue s) (rsu_on_new_message_for_root_cb s)
    (rsu_history s).

Definition set_messages_in_queue (n : Z) (s : state) : state :=
  mk_state (rsu_timer s) (rsu_queue s) (rsu_onLostMessageCB s) (rsu_seqno s)
    (rsu_is_online s) (rsu_is_allowed_to_sleep s) (rsu_parent s)
    n (rsu_on_new_message_for_root_cb s) (rsu_history s).

Definition set_on_new_message_for_root_cb (b : bool) (s : state) : state :=
  mk_state (rsu_timer s) (rsu_queue s) (rsu_onLostMessageCB s) (rsu_seqno s)
    (rsu_is_online s) (rsu_is_allowed_to_sleep s) (rsu_parent s)
    (rsu_messages_in_queue s) b (rsu_history s).

Definition set_history (h : History.history) (s : state) : state :=
  mk_state (rsu_timer s) (rsu_queue s) (rsu_onLostMessageCB s) (rsu_seqno s)
    (rsu_is_online s) (rsu_is_allowed_to_sleep s) (rsu_parent s)
    (rsu_messages_in_queue s) (rsu_on_new_message_for_root_cb s) h.

(** The values of the globals at program start. *)
Definition boot : state :=
  mk_state None [] false 0 false false 0 0 false History.empty.

(** A run of transport code: the events it performed, in order, and the
    state it left; [None] when it read through a null pointer, or behind
    the frame it was given, after the events listed. *)
Definition run : Type := list event * option state.

Definition ret (s : state) : run := ([], Some s).
Definition fault : run := ([], None).
Definition emit (es : list event) (s : state) : run := (es, Some s).

Definition bind (r : run) (k : state -> run) : run :=
  match r with
  | (es, Some s) => let (es', r') := k s in (es ++ es', r')
  | (es, None) => (es, None)
  end.

Notation "r >>= k" := (bind r k) (at level 50, left associativity).

(** [unicast_close] of both channels and [rsu_is_online = 0]. *)
Definition go_to_sleep (s : state) : run :=
  emit [EvUnicastClose rsu_data_channel; EvUnicastClose rsu_ack_channel]
       (set_is_online false s).

(** [unicast_open] of both channels and [rsu_is_online = 1]. *)
Definition wake_up (s : state) : run :=
  emit [EvUnicastOpen rsu_data_channel MESSAGING_PORT;
        EvUnicastOpen rsu_ack_channel ACKNOWLEDGEMENT_PORT]
       (set_is_online true s).

Definition is_nil {A : Type} (l : list A) : bool :=
  match l with [] => true | _ => false end.

Definition rsu_on_ack_timeout (s : state) : run :=
  match rsu_queue s with
  | [] => fault
  | head :: next =>
      emit (if rsu_onLostMessageCB s
            then [EvLostMessageCB (rsu_parent s) (tries head)] else []) s
      >>= (fun s =>
        if tries head >? MAX_TRIES then
          let s := set_queue next s in
          if is_nil next && rsu_is_allowed_to_sleep s then go_to_sleep s
          else ret s
        else ret s)
      >>= (fun s =>
        if is_nil (rsu_queue s) then ret s
        else ret (set_timer (Some to_send_next_message) s))
  end.

(** [packetbuf_copyfrom(rsu_queue->msg, rsu_queue->size)]. *)
Definition packet_of (e : RSUnicastQueueElement) : list Z :=
  firstn (Z.to_nat (size e)) (msg e).

Definition rsu_send_next_message (s : state) : run :=
  (if rsu_parent s =? 0 then ret s
   else
     match rsu_queue s with
     | [] => fault
     | head :: next =>
         emit [EvUnicastSend rsu_data_channel (encode_id (rsu_parent s))
                 (packet_of head)]
              (set_queue
                 (mk_qe (msg head) (size head) (uint8 (tries head + 1)) :: next)
                 s)
     end)
  >>= (fun s => ret (set_timer (Some to_on_ack_timeout) s)).

(** The timer expires: it is no longer armed, and its callback runs. *)
Definition ctimer_expires (s : state) : run :=
  match rsu_timer s with
  | None => ret s
  | Some to_send_next_message => rsu_send_next_message (set_timer None s)
  | Some to_on_ack_timeout => rsu_on_ack_timeout (set_timer None s)
  end.

Definition rsu_on_recieve_ack (s : state) : run :=
  match rsu_queue s with
  | [] => emit [EvUnexpectedAck] s
  | _ :: next =>
      let s := set_queue next s in
      let s := set_messages_in_queue (uint16 (rsu_messages_in_queue s - 1)) s in
      let s := set_timer None s in
      let s := if is_nil next then s
               else set_timer (Some to_send_next_message) s in
      if is_nil next && rsu_is_allowed_to_sleep s then go_to_sleep s
      else ret s
  end.

(** [rsunicast_send(msg, size)]: [payload] is the [size] bytes at [msg]. *)
Definition rsunicast_send (payload : list Z) (s : state) : run :=
  (if rsu_is_online s then ret s else wake_up s)
  >>= (fun s =>
    let queue_element :=
      mk_qe (rsu_seqno s :: payload)
            (uint16 (Z.of_nat (length payload) + 1)) 0 in
    let s := set_seqno (if rsu_seqno s =? 255 then 0 else rsu_seqno s + 1) s in
    let s := match rsu_queue s with
             | [] => set_timer (Some to_send_next_message)
                       (set_queue [queue_element] s)
             | q => set_queue (q ++ [queue_element]) s
             end in
    ret (set_messages_in_queue (uint16 (rsu_messages_in_queue s + 1)) s)).

Definition ACK : Z := 65. (* 'A' *)

(** [rsu_on_new_message] for a frame [packet] from [from]; [ROOT] is the
    compile-time flag.  The first byte of the frame is the sequence number
    and the rest the payload, of [size - 1] bytes.  A frame of no bytes has
    neither: the sequence number read is the byte that lies behind the
    frame, and [size - 1] is 65535 in the [uint16_t].  A root without a
    callback uses neither and returns after the acknowledgement.
    Otherwise the byte behind the frame decides whether the frame is taken
    for a duplicate, and if not the root's callback, or [rsunicast_send]
    (which then allocates [65535 + 1 = 0] bytes and copies 65535), is
    handed 65535 bytes that the frame does not have: the outcome is
    [None] after the acknowledgement. *)
Definition rsu_on_new_message (ROOT : bool) (from : linkaddr_t)
    (packet : list Z) (s : state) : run :=
  let id := decode_id from in
  emit [EvUnicastSend rsu_ack_channel (encode_id id) [ACK]] s
  >>= (fun s =>
    match packet with
    | [] =>
        if ROOT then
          if rsu_on_new_message_for_root_cb s then fault else ret s
        else fault
    | seqno :: payload =>
        if ROOT then
          if rsu_on_new_message_for_root_cb s then
            if History.rsu_check_history
                 (History.rsu_history_list (rsu_history s)) id seqno
            then ret s
            else emit [EvNewMessageForRootCB payload] s
          else ret s
        else
          if History.rsu_check_history
               (History.rsu_history_list (rsu_history s)) id seqno
          then ret s
          else
            match History.rsu_add_history (rsu_history s) id seqno with
            | None => fault
            | Some h => rsunicast_send payload (set_history h s)
            end
    end).

(** [is_initialized] is the function's static latch. *)
Definition rsunicast_init (is_initialized : bool) (s : state) : run :=
  if is_initialized then ret s else wake_up s.

Definition rsunicast_allowSleeping (s : state) : run :=
  let s := set_is_allowed_to_sleep true s in
  if is_nil (rsu_queue s) then go_to_sleep s else ret s.

Definition rsunicast_disallowSleeping (s : state) : run :=
  let s := set_is_allowed_to_sleep false s in
  if rsu_is_online s then ret s else wake_up s.

Definition rsunicast_setparent (id : Z) (s : state) : state := set_parent id s.

Definition rsunicast_setFailureCallback (cb : bool) (s : state) : state :=
  set_onLostMessageCB cb s.

Definition rsunicast_setNewMessageCallback_root (cb : bool) (s : state)
  : state := set_on_new_message_for_root_cb cb s.

(** What can happen to the transport, and the run each happening causes. *)
Inductive input : Type :=
| InSend (payload : list Z)
| InTimer
| InAck
| InData (from : linkaddr_t) (packet : list Z)
| InAllowSleeping
| InDisallowSleeping
| InSetParent (id : Z).

Definition step (ROOT : bool) (i : input) (s : state) : run :=
  match i with
  | InSend payload => rsunicast_send payload s
  | InTimer => ctimer_expires s
  | InAck => rsu_on_recieve_ack s
  | InData from packet => rsu_on_new_message ROOT from packet s
  | InAllowSleeping => rsunicast_allowSleeping s
  | InDisallowSleeping => rsunicast_disallowSleeping s
  | InSetParent id => ret (rsunicast_setparent id s)
  end.

Fixpoint steps (ROOT : bool) (ins : list input) (s : state) : run :=
  match ins with
  | [] => ret s
  | i :: rest => step ROOT i s >>= steps ROOT rest
  end.

(** The acknowledgements of a trace. *)
Definition is_ack (e : event) : bool :=
  match e with EvUnicastSend rsu_ack_channel _ _ => true | _ => false end.

(** One unacknowledged try of the head of the queue towards [parent]: the
    transmission of [packet], then the failure callback with the number
    [k] of tries so far. *)
Definition failed_try (parent : Z) (packet : list Z) (k : Z) : list event :=
  [EvUnicastSend rsu_data_channel (encode_id parent) packet;
   EvLostMessageCB parent k].

(** The timer never stays armed over an empty queue. *)
Definition timer_ok (s : state) : Prop :=
  rsu_timer s <> None -> rsu_queue s <> [].

(** The packets sent on the data channel, in the order of a trace. *)
Fixpoint transmitted (evs : list event) : list (list Z) :=
  match evs with
  | [] => []
  | EvUnicastSend rsu_data_channel _ packet :: rest =>
      packet :: transmitted rest
  | _ :: rest => transmitted rest
  end.

(** The payloads [ps] behind consecutive sequence numbers from [sn] on,
    wrapping from 255 to 0. *)
Fixpoint numbered (sn : Z) (ps : list (list Z)) : list (list Z) :=
  match ps with
  | [] => []
  | p :: rest => (sn :: p) :: numbered ((sn + 1) mod 256) rest
  end.

(** The channels are closed only over an empty queue and with the
    permission to sleep. *)
Definition awake_ok (s : state) : Prop :=
  rsu_is_online s = false ->
  rsu_queue s = [] /\ rsu_is_allowed_to_sleep s = true.

(** The transport after [rsunicast_init]. *)
Definition initialized : state := set_is_online true boot.

(** The queue cells that [rsunicast_send] makes of the payloads [ps], the
    first with the sequence number [sn]. *)
Fixpoint enqueued (sn : Z) (ps : list (list Z))
  : list RSUnicastQueueElement :=
  match ps with
  | [] => []
  | p :: rest =>
      mk_qe (sn :: p) (uint16 (Z.of_nat (length p) + 1)) 0
      :: enqueued (if sn =? 255 then 0 else sn + 1) rest
  end.

(** The calls of the failure callback that report a message given up:
    those with more than [MAX_TRIES] tries. *)
Definition is_given_up (e : event) : bool :=
  match e with
  | EvLostMessageCB _ k => k >? MAX_TRIES
  | _ => false
  end.

Definition given_up (evs : list event) : Z :=
  Z.of_nat (length (filter is_given_up evs)).

(** [rsu_messages_in_queue] is the length of the queue plus [g], with a
    failure callback registered. *)
Definition counted (g : Z) (s : state) : Prop :=
  rsu_onLostMessageCB s = true
  /\ rsu_messages_in_queue s
     = uint16 (Z.of_nat (length (rsu_queue s)) + g).

(** The inputs the entry points are written for: a send of fewer than
    65535 bytes ([size + 1] fits the [uint16_t] length of the queue
    element), and a data frame that carries its sequence number and at most
    65535 bytes. *)
Definition input_ok (i : input) : bool :=
  match i with
  | InSend payload => Z.of_nat (length payload) <? 65535
  | InData _ packet =>
      (0 <? Z.of_nat (length packet)) && (Z.of_nat (length packet) <=? 65535)
  | _ => true
  end.

(** A data frame with at least the byte of the sequence number; every
    other input. *)
Definition has_seqno (i : input) : Prop :=
  match i with
  | InData _ [] => False
  | _ => True
  end.

End RSU.

(** ** public_variable_neighborhood.h *)

Module PVN.

(** A neighbour entry.  [public_var] is [None] while the pointer is null
    (between [calloc] of the entry and the first copy of a payload);
    [timestamp] is [clock_seconds()] at the last refresh. *)
Record Nbr : Type := mk_nbr {
  id : Z;
  addr : linkaddr_t;
  public_var : option (list Z);
  timestamp : Z
}.

(** Which of the three function pointers are non-null. *)
Record PVN_callbacks : Type := mk_callbacks {
  onChange : bool;
  onNew : bool;
  onDelete : bool
}.

Inductive event : Type :=
| EvOnNew (n : Nbr)
| EvOnChange (n : Nbr)
| EvOnDelete (n : Nbr)
| EvBroadcastOpen (port : Z)
| EvBroadcastClose
| EvBroadcastSend (data : list Z)
| EvNotAssigned.

(** [struct PVN].  [cmp] is the optional comparison of two images of the
    public variable ([None]: the pointer is null and [memcmp] is used).  The
    pointer [variable] belongs to the client and is an argument of
    [pvn_broadcast]. *)
Record PVN : Type := mk_pvn {
  size_of_variable : Z;
  maximum_age_of_neighbor_information : Z;
  nbrList : list Nbr;
  neighborhood_size : Z;
  port : Z;
  online : bool;
  cmp : option (list Z -> list Z -> Z);
  callbacks : PVN_callbacks
}.

Definition set_nbrs (l : list Nbr) (sz : Z) (p : PVN) : PVN :=
  mk_pvn (size_of_variable p) (maximum_age_of_neighbor_information p) l sz
    (port p) (online p) (cmp p) (callbacks p).

Definition set_online (b : bool) (p : PVN) : PVN :=
  mk_pvn (size_of_variable p) (maximum_age_of_neighbor_information p)
    (nbrList p) (neighborhood_size p) (port p) b (cmp p) (callbacks p).

Definition pvn_setCallbacks (cbs : PVN_callbacks) (p : PVN) : PVN :=
  mk_pvn (size_of_variable p) (maximum_age_of_neighbor_information p)
    (nbrList p) (neighborhood_size p) (port p) (online p) (cmp p) cbs.

Definition pvn_set_comparison_function (f : option (list Z -> list Z -> Z))
    (p : PVN) : PVN :=
  mk_pvn (size_of_variable p) (maximum_age_of_neighbor_information p)
    (nbrList p) (neighborhood_size p) (port p) (online p) f (callbacks p).

Definition pvn_getNbrs (p : PVN) : list Nbr := nbrList p.

Fixpoint pvn_getNbr (l : list Nbr) (i : Z) : option Nbr :=
  match l with
  | [] => None
  | nbr :: next => if id nbr =? i then Some nbr else pvn_getNbr next i
  end.

Definition pvn_neighborhood_size (p : PVN) : Z := neighborhood_size p.

(** [memcpy(nbr->public_var, packetbuf_dataptr(), size_of_variable)]: the
    first [size_of_variable] bytes of the frame.  This is the image the
    code stores for a frame of at least [size_of_variable] bytes; behind a
    shorter frame the [memcpy] reads on into the packet buffer, whose
    contents are not part of this model, and every statement about the
    bytes stored is made for frames that carry the whole variable. *)
Definition copy_of (p : PVN) (data : list Z) : list Z :=
  firstn (Z.to_nat (size_of_variable p)) data.

(** The condition guarding the change callback.  The comparison function
    is handed the stored image and the pointer to the frame; it is taken
    to read the variable there, the first [size_of_variable] bytes. *)
Definition has_changed (p : PVN) (old data : list Z) : bool :=
  match cmp p with
  | None => if list_eq_dec Z.eq_dec old (copy_of p data) then false else true
  | Some f => negb (f old (copy_of p data) =? 0)
  end.

(** The body of [if (nbr->id == id)]: the entry found, the result is the
    entry afterwards, the callbacks fired and whether [neighborhood_size]
    was incremented. *)
Definition refresh (p : PVN) (nbr : Nbr) (data : list Z) (now : Z)
  : Nbr * list event * bool :=
  match public_var nbr with
  | None =>
      let nbr' := mk_nbr (id nbr) (addr nbr) (Some (copy_of p data)) now in
      if onNew (callbacks p) then (nbr', [EvOnNew nbr'], true)
      else (nbr', [], false)
  | Some old =>
      let stamped := mk_nbr (id nbr) (addr nbr) (Some old) now in
      (mk_nbr (id nbr) (addr nbr) (Some (copy_of p data)) now,
       if has_changed p old data && onChange (callbacks p)
       then [EvOnChange stamped] else [],
       false)
  end.

Definition null_addr : linkaddr_t := mk_linkaddr 0 0.

(** The [for] loop over the entries.  At the last entry, when the identifier
    was not found, a zeroed entry is linked behind it (the sender's address
    is copied into the entry in front of it, [&(nbr->addr)]) and the next
    iteration finds the new entry. *)
Fixpoint find_or_create (p : PVN) (i : Z) (from : linkaddr_t)
    (data : list Z) (now : Z) (l : list Nbr) : list Nbr * list event * bool :=
  match l with
  | [] => ([], [], false)
  | nbr :: next =>
      if id nbr =? i then
        let '(nbr', evs, inc) := refresh p nbr data now in
        (nbr' :: next, evs, inc)
      else
        match next with
        | [] =>
            let '(created, evs, inc) :=
              refresh p (mk_nbr i null_addr None 0) data now in
            ([mk_nbr (id nbr) from (public_var nbr) (timestamp nbr); created],
             evs, inc)
        | _ =>
            let '(next', evs, inc) := find_or_create p i from data now next in
            (nbr :: next', evs, inc)
        end
  end.

(** The body of [on_new_neighbor_information] for the neighbourhood [tmp]
    whose broadcast connection received the frame. *)
Definition on_new_neighbor_information_at (tmp : PVN) (from : linkaddr_t)
    (data : list Z) (now : Z) : PVN * list event :=
  let i := decode_id from in
  let l0 := match nbrList tmp with
            | [] => [mk_nbr i from None 0]
            | l => l
            end in
  let '(l1, evs, inc) := find_or_create tmp i from data now l0 in
  (set_nbrs l1 (if inc then uint16 (neighborhood_size tmp + 1)
                else neighborhood_size tmp) tmp, evs).

(** [on_new_neighbor_information]: the walk over
    [list_of_all_public_variable_neighborhoods] for the neighbourhood whose
    [broadcast] connection is [c]; a connection is identified by the
    position of its neighbourhood in that list. *)
Fixpoint on_new_neighbor_information (all : list PVN) (c : nat)
    (from : linkaddr_t) (data : list Z) (now : Z) : list PVN * list event :=
  match all, c with
  | [], _ => ([], [EvNotAssigned])
  | tmp :: next, O =>
      let (tmp', evs) := on_new_neighbor_information_at tmp from data now in
      (tmp' :: next, evs)
  | tmp :: next, S c' =>
      let (next', evs) := on_new_neighbor_information next c' from data now in
      (tmp :: next', evs)
  end.

Definition pvn_is_online (p : PVN) : bool := online p.

Definition pvn_set_online (p : PVN) : PVN * list event :=
  if online p then (p, [])
  else (set_online true p, [EvBroadcastOpen (port p)]).

Definition pvn_set_offline (p : PVN) : PVN * list event :=
  if online p then (set_online false p, [EvBroadcastClose])
  else (p, []).

(** [pvn_init] on a zeroed [struct PVN]: no callbacks, no comparison
    function, no neighbours; then [pvn_set_online]. *)
Definition pvn_init (port size maxAge : Z) : PVN * list event :=
  pvn_set_online
    (mk_pvn size maxAge [] 0 port false None (mk_callbacks false false false)).

(** [pvn_broadcast]; [variable] is what the pointer [pvn->variable] refers
    to at the call ([None]: the pointer is null). *)
Definition pvn_broadcast (p : PVN) (variable : option (list Z)) : list event :=
  (if online p then [] else [EvBroadcastOpen (port p)]) ++
  match variable with
  | Some v => [EvBroadcastSend (firstn (Z.to_nat (size_of_variable p)) v)]
  | None => []
  end ++
  (if online p then [] else [EvBroadcastClose]).

Definition pvn_increaseNbrAge (n : Nbr) (seconds : Z) : Nbr :=
  mk_nbr (id n) (addr n) (public_var n)
    (if seconds >? timestamp n then 0 else timestamp n - seconds).

(** [oldest_timestamp_allowed] in [pvn_remove_old_neighbor_information]. *)
Definition oldest_timestamp_allowed (now maxAge : Z) : Z :=
  if now <=? maxAge then 0 else now - maxAge.

(** The notification and the decrement that go with unlinking one entry. *)
Definition notify_delete (cbs : PVN_callbacks) (n : Nbr) (sz : Z)
  : list event * Z :=
  if onDelete cbs then ([EvOnDelete n], uint16 (sz - 1)) else ([], sz).

(** First loop of the sweep: outdated entries at the head of the list. *)
Fixpoint remove_at_front (cbs : PVN_callbacks) (oldest : Z) (l : list Nbr)
    (sz : Z) : list Nbr * list event * Z :=
  match l with
  | [] => ([], [], sz)
  | nbr :: next =>
      if timestamp nbr <? oldest then
        let (ev, sz') := notify_delete cbs nbr sz in
        let '(l', evs, sz'') := remove_at_front cbs oldest next sz' in
        (l', ev ++ evs, sz'')
      else (l, [], sz)
  end.

(** Second loop of the sweep, with the cursor [nbr] and the entries behind
    it.  When [nbr->nextNbr] is outdated it is unlinked, and the loop's
    [nbr = pvn_getNextNbr(nbr)] then moves the cursor onto the entry that
    followed the unlinked one. *)
Fixpoint remove_behind (cbs : PVN_callbacks) (oldest : Z) (nbr : Nbr)
    (behind : list Nbr) (sz : Z) : list Nbr * list event * Z :=
  match behind with
  | [] => ([nbr], [], sz)
  | nx :: behind' =>
      if timestamp nx <? oldest then
        let (ev, sz') := notify_delete cbs nx sz in
        match behind' with
        | [] => ([nbr], ev, sz')
        | c :: behind'' =>
            let '(l, evs, sz'') := remove_behind cbs oldest c behind'' sz' in
            (nbr :: l, ev ++ evs, sz'')
        end
      else
        let '(l, evs, sz') := remove_behind cbs oldest nx behind' sz in
        (nbr :: l, evs, sz')
  end.

Definition pvn_remove_old_neighbor_information (p : PVN) (now : Z)
  : PVN * list event :=
  let oldest :=
    oldest_timestamp_allowed now (maximum_age_of_neighbor_information p) in
  let '(l1, evs1, sz1) :=
    remove_at_front (callbacks p) oldest (nbrList p) (neighborhood_size p) in
  match l1 with
  | [] => (set_nbrs [] sz1 p, evs1)
  | nbr :: behind =>
      let '(l2, evs2, sz2) :=
        remove_behind (callbacks p) oldest nbr behind sz1 in
      (set_nbrs l2 sz2 p, evs1 ++ evs2)
  end.

(** An entry is outdated at [now] when its age exceeds the maximum age. *)
Definition outdated (p : PVN) (now : Z) (n : Nbr) : bool :=
  now - timestamp n >? maximum_age_of_neighbor_information p.

(** What can happen to one neighbourhood: a frame arrives, or the client
    sweeps. *)
Inductive input : Type :=
| InFrame (from : linkaddr_t) (data : list Z) (now : Z)
| InSweep (now : Z).

Definition step (i : input) (p : PVN) : PVN * list event :=
  match i with
  | InFrame from data now => on_new_neighbor_information_at p from data now
  | InSweep now => pvn_remove_old_neighbor_information p now
  end.

Fixpoint steps (ins : list input) (p : PVN) : PVN * list event :=
  match ins with
  | [] => (p, [])
  | i :: rest =>
      let (p', evs) := step i p in
      let (p'', evs') := steps rest p' in
      (p'', evs ++ evs')
  end.

Definition is_on_new (e : event) : bool :=
  match e with EvOnNew _ => true | _ => false end.

Definition is_on_change (e : event) : bool :=
  match e with EvOnChange _ => true | _ => false end.

Definition ids (l : list Nbr) : list Z := map id l.

(** The identifier of the entry a deletion callback was fired for. *)
Definition is_on_delete (e : event) : option Z :=
  match e with EvOnDelete n => Some (id n) | _ => None end.

(** Every entry has its buffer: [public_var] is not null. *)
Definition populated (l : list Nbr) : Prop :=
  Forall (fun n => public_var n <> None) l.

(** The list as [on_new_neighbor_information] and the sweep keep it: one
    entry per identifier, identifiers that fit a [uint16_t], every buffer
    allocated. *)
Definition nbrs_ok (l : list Nbr) : Prop :=
  NoDup (ids l) /\ Forall is_uint16 (ids l) /\ populated l.

(** The neighbourhood holds the image [v] for the identifier [i]. *)
Definition holds (p : PVN) (i : Z) (v : list Z) : Prop :=
  exists n, pvn_getNbr (nbrList p) i = Some n /\ public_var n = Some v.

(** The comparison function in use answers "no change" on equal images. *)
Definition cmp_ok (p : PVN) : Prop :=
  forall f v, cmp p = Some f -> f v v = 0.

(** [neighborhood_size] is the number of entries, as a [uint16_t]. *)
Definition counts_entries (p : PVN) : Prop :=
  neighborhood_size p = uint16 (Z.of_nat (length (nbrList p))).

(** Frames and sweeps leave the settings of a neighbourhood alone. *)
Definition same_settings (p p' : PVN) : Prop :=
  size_of_variable p' = size_of_variable p
  /\ maximum_age_of_neighbor_information p'
     = maximum_age_of_neighbor_information p
  /\ cmp p' = cmp p
  /\ callbacks p' = callbacks p.

(** The senders of the frames among some inputs. *)
Definition senders (ins : list input) : list Z :=
  flat_map (fun i => match i with
                     | InFrame from _ _ => [decode_id from]
                     | InSweep _ => []
                     end) ins.

(** What a client reads of an entry: identifier, image and time stamp. *)
Definition seen (n : Nbr) : Z * option (list Z) * Z :=
  (id n, public_var n, timestamp n).

(** The test of the sweep, and the number of entries that fail it. *)
Definition stale (oldest : Z) (n : Nbr) : bool := timestamp n <? oldest.

Definition stale_count (oldest : Z) (l : list Nbr) : nat :=
  length (filter (stale oldest) l).

(** The calls of a client on one neighbourhood, and the frames it hears. *)
Inductive call : Type :=
| CallSetOnline
| CallSetOffline
| CallBroadcast (variable : option (list Z))
| CallStep (i : input).

Definition control (c : call) (p : PVN) : PVN * list event :=
  match c with
  | CallSetOnline => pvn_set_online p
  | CallSetOffline => pvn_set_offline p
  | CallBroadcast variable => (p, pvn_broadcast p variable)
  | CallStep i => step i p
  end.

Fixpoint controls (cs : list call) (p : PVN) : PVN * list event :=
  match cs with
  | [] => (p, [])
  | c :: rest =>
      let (p', evs) := control c p in
      let (p'', evs') := controls rest p' in
      (p'', evs ++ evs')
  end.

(** The broadcast channel along a trace, from the state [open]: the state
    at the end, or [None] when the trace opens the channel while it is
    open, or closes it or sends on it while it is closed. *)
Fixpoint channel (open : bool) (evs : list event) : option bool :=
  match evs with
  | [] => Some open
  | EvBroadcastOpen _ :: rest => if open then None else channel true rest
  | EvBroadcastClose :: rest => if open then channel false rest else None
  | EvBroadcastSend _ :: rest => if open then channel open rest else None
  | _ :: rest => channel open rest
  end.

End PVN.

(** A computation that may read through a null pointer. *)
Inductive outcome (A : Type) : Type :=
| Done (a : A)
| NullRead.
Arguments Done {A} a.
Arguments NullRead {A}.

(** [pvn_destroy] of the neighbourhood at the position [c] of
    [list_of_all_public_variable_neighborhoods]: the channel is closed,
    the neighbourhood is taken out of the list (the walk reads through a
    null pointer when it is not in the list), and the entries are handed
    to the sweep with the maximum age 0.  The result is the list, the
    neighbourhood afterwards and the callbacks and channel calls made. *)
Definition pvn_destroy (all : list PVN.PVN) (c : nat) (now : Z)
  : outcome (list PVN.PVN * PVN.PVN * list PVN.event) :=
  match nth_error all c with
  | None => NullRead
  | Some pvn =>
      let (p1, evs1) := PVN.pvn_set_offline pvn in
      let p2 := PVN.mk_pvn (PVN.size_of_variable p1) 0 (PVN.nbrList p1)
                  (PVN.neighborhood_size p1) (PVN.port p1) (PVN.online p1)
                  (PVN.cmp p1) (PVN.callbacks p1) in
      let (p3, evs2) := PVN.pvn_remove_old_neighbor_information p2 now in
      Done (firstn c all ++ skipn (S c) all, p3, evs1 ++ evs2)
  end.

(** ** mlst_network.h *)

Module MLST.

Definition MLST_PVN_PORT : Z := 154.
Definition MAX_AGE_OF_MLST_NBR_IN_SECONDS : Z := 15.
Definition IF_CHANGE_STAY_ACTIVE_FOR_N_PERIODS : Z := 3.
Definition MAX_AGE_OF_PARENT : Z := 5.

Record mlst_public_variable : Type := mk_pv {
  distance_to_root : Z;
  parent_id : Z;
  children_count : Z
}.

(** The byte image of [struct mlst_public_variable] is fixed by the
    compiler: [sizeof_pv] is [sizeof], [as_pv] the cast of a byte buffer to
    the struct, [image] the bytes of a struct. *)
Record layout : Type := mk_layout {
  sizeof_pv : Z;
  as_pv : list Z -> mlst_public_variable;
  image : mlst_public_variable -> list Z
}.

(** The image without padding, multi-byte fields little-endian. *)
Definition packed : layout :=
  {| sizeof_pv := 4;
     as_pv := fun b =>
       mk_pv (nth 0 b 0) (nth 1 b 0 + 256 * nth 2 b 0) (nth 3 b 0);
     image := fun v =>
       [distance_to_root v; parent_id v mod 256; parent_id v / 256;
        children_count v] |}.

(** The globals of the header.  [mlst_parent] points to an entry of the
    neighbour list; the entry is named by its identifier (no two entries of
    a list made by [on_new_neighbor_information] carry the same one), [None]
    is the null pointer. *)
Record state : Type := mk_state {
  mlst_parent : option Z;
  mlst_stay_active_for_next_n_periods : Z;
  divide_period_time_by : Z;
  own_mlst_public_variable : mlst_public_variable
}.

Definition stay_active (s : state) : state :=
  mk_state (mlst_parent s) IF_CHANGE_STAY_ACTIVE_FOR_N_PERIODS
    (divide_period_time_by s) (own_mlst_public_variable s).

Definition onPvnChange (n : PVN.Nbr) (s : state) : state := stay_active s.

Definition onPvnNew (n : PVN.Nbr) (s : state) : state := stay_active s.

Definition same_entry (p : option Z) (n : PVN.Nbr) : bool :=
  match p with
  | Some i => PVN.id n =? i
  | None => false
  end.

Definition onPvnDelete (n : PVN.Nbr) (s : state) : state :=
  if same_entry (mlst_parent s) n then
    mk_state None IF_CHANGE_STAY_ACTIVE_FOR_N_PERIODS
      (divide_period_time_by s) (mk_pv 255 0 0)
  else stay_active s.

Definition pvnCmp (L : layout) (a b : list Z) : Z :=
  let av := as_pv L a in
  let bv := as_pv L b in
  if negb (parent_id av =? parent_id bv)
     || negb (children_count av =? children_count bv)
  then 1 else 0.

(** The callbacks registered with the neighbourhood, run on its events. *)
Definition callback (e : PVN.event) (s : state) : state :=
  match e with
  | PVN.EvOnChange n => onPvnChange n s
  | PVN.EvOnNew n => onPvnNew n s
  | PVN.EvOnDelete n => onPvnDelete n s
  | _ => s
  end.

Definition callbacks (evs : list PVN.event) (s : state) : state :=
  fold_left (fun s e => callback e s) evs s.

Definition mlst_is_undefined (s : state) : bool :=
  match mlst_parent s with
  | None => true
  | Some _ => parent_id (own_mlst_public_variable s) =? 0
  end.

Definition mlst_is_leaf (s : state) : bool :=
  if mlst_is_undefined s then false
  else children_count (own_mlst_public_variable s) =? 0.

(** The locals of [mlst_recalculate] that its loop updates, together with
    the global [mlst_stay_active_for_next_n_periods] which the loop sets.
    [best_parent] and [best_parent_pv] are assigned together; they are one
    optional pair here. *)
Record locals : Type := mk_locals {
  l_children_count : Z;
  l_distance_to_root : Z;
  l_number_of_potential_parents : Z;
  l_best_parent : option (PVN.Nbr * mlst_public_variable);
  l_stay_active : Z
}.

Definition start (stay : Z) : locals := mk_locals 0 255 0 None stay.

(** One iteration of the loop over the neighbours.  [RIME_ID] is the node's
    own identifier.  [n_pv->distance_to_root+1] is an [int]. *)
Definition visit (L : layout) (RIME_ID : Z) (a : locals) (n : PVN.Nbr)
  : outcome locals :=
  match PVN.public_var n with
  | None => NullRead
  | Some bytes =>
      let n_pv := as_pv L bytes in
      if parent_id n_pv =? 0 then
        Done (mk_locals (uint8 (l_children_count a + 1))
                (l_distance_to_root a) (l_number_of_potential_parents a)
                (l_best_parent a) IF_CHANGE_STAY_ACTIVE_FOR_N_PERIODS)
      else if parent_id n_pv =? RIME_ID then
        Done (mk_locals (uint8 (l_children_count a + 1))
                (l_distance_to_root a) (l_number_of_potential_parents a)
                (l_best_parent a) (l_stay_active a))
      else if distance_to_root n_pv + 1 <? l_distance_to_root a then
        Done (mk_locals (l_children_count a)
                (uint8 (distance_to_root n_pv + 1)) 1
                (Some (n, n_pv)) (l_stay_active a))
      else if distance_to_root n_pv + 1 =? l_distance_to_root a then
        match l_best_parent a with
        | None => NullRead
        | Some (best_parent, best_parent_pv) =>
            if children_count best_parent_pv <? children_count n_pv then
              Done (mk_locals (l_children_count a) (l_distance_to_root a) 1
                      (Some (n, n_pv)) (l_stay_active a))
            else if children_count best_parent_pv =? children_count n_pv then
              Done (mk_locals (l_children_count a) (l_distance_to_root a)
                      (uint8 (l_number_of_potential_parents a + 1))
                      (if PVN.id best_parent >? PVN.id n
                       then Some (n, n_pv)
                       else Some (best_parent, best_parent_pv))
                      (l_stay_active a))
            else Done a
        end
      else Done a
  end.

Fixpoint iterate (L : layout) (RIME_ID : Z) (a : locals)
    (nbrs : list PVN.Nbr) : outcome locals :=
  match nbrs with
  | [] => Done a
  | n :: next =>
      match visit L RIME_ID a n with
      | Done a' => iterate L RIME_ID a' next
      | NullRead => NullRead
      end
  end.

(** [mlst_recalculate] over the neighbour list [nbrs].  [ROOT] is the
    compile-time flag; [coin] is the value of
    [random_rand() < 0.5*RANDOM_RAND_MAX]. *)
Definition mlst_recalculate (ROOT : bool) (L : layout) (RIME_ID : Z)
    (nbrs : list PVN.Nbr) (coin : bool) (s : state) : outcome state :=
  if ROOT then
    Done (mk_state (mlst_parent s) (mlst_stay_active_for_next_n_periods s)
            (divide_period_time_by s) (mk_pv 0 65535 255))
  else
    match iterate L RIME_ID (start (mlst_stay_active_for_next_n_periods s))
            nbrs with
    | NullRead => NullRead
    | Done a =>
        let own := own_mlst_public_variable s in
        match l_best_parent a with
        | Some (best_parent, _) =>
            if (l_number_of_potential_parents a >? 1) && coin then
              Done (mk_state (mlst_parent s) (l_stay_active a)
                      (divide_period_time_by s)
                      (mk_pv 255 0 (l_children_count a)))
            else
              let differs :=
                (parent_id own =? 0)
                || negb (parent_id own =? PVN.id best_parent)
                || negb (distance_to_root own =? l_distance_to_root a)
                || negb (children_count own =? l_children_count a) in
              Done (mk_state (Some (PVN.id best_parent))
                      (if differs then IF_CHANGE_STAY_ACTIVE_FOR_N_PERIODS
                       else l_stay_active a)
                      (if differs then 3 else divide_period_time_by s)
                      (mk_pv (l_distance_to_root a) (PVN.id best_parent)
                         (l_children_count a)))
        | None =>
            Done (mk_state (mlst_parent s) (l_stay_active a)
                    (divide_period_time_by s)
                    (mk_pv 255 0 (l_children_count a)))
        end
    end.

(** *** The process thread *)

(** A node: the globals of the three headers. *)
Record node : Type := mk_node {
  mlst : state;
  mlst_pvn : PVN.PVN;
  rsu : RSU.state
}.

Definition mlst_online (p : PVN.PVN) : PVN.PVN := fst (PVN.pvn_set_online p).
Definition mlst_offline (p : PVN.PVN) : PVN.PVN := fst (PVN.pvn_set_offline p).

Definition transport (r : RSU.run) : outcome RSU.state :=
  match snd r with
  | Some s => Done s
  | None => NullRead
  end.

(** What the scheduler can run while the thread waits for its period
    timer: the broadcast callback of the neighbourhood (only while its
    channel is open), and the entry points of the transport. *)
Inductive happening : Type :=
| Frame (from : linkaddr_t) (data : list Z) (now : Z)
| Transport (i : RSU.input).

Definition happen (ROOT : bool) (h : happening) (n : node) : outcome node :=
  match h with
  | Frame from data now =>
      if PVN.online (mlst_pvn n) then
        let (p, evs) :=
          PVN.on_new_neighbor_information_at (mlst_pvn n) from data now in
        Done (mk_node (callbacks evs (mlst n)) p (rsu n))
      else Done n
  | Transport i =>
      match transport (RSU.step ROOT i (rsu n)) with
      | Done r => Done (mk_node (mlst n) (mlst_pvn n) r)
      | NullRead => NullRead
      end
  end.

Fixpoint WAIT_ONE_PERIOD (ROOT : bool) (hs : list happening) (n : node)
  : outcome node :=
  match hs with
  | [] => Done n
  | h :: rest =>
      match happen ROOT h n with
      | Done n' => WAIT_ONE_PERIOD ROOT rest n'
      | NullRead => NullRead
      end
  end.

(** The part of the loop body in front of [WAIT_ONE_PERIOD]: the sweep and
    the choice between online and offline.  [now] is [clock_seconds()];
    the age of the parent's entry, [clock_seconds()-mlst_parent->timestamp],
    is a difference of two [unsigned long] and wraps as one. *)
Definition before_wait (now : Z) (n : node) : outcome node :=
  let (p, evs) := PVN.pvn_remove_old_neighbor_information (mlst_pvn n) now in
  let m := callbacks evs (mlst n) in
  if mlst_is_undefined m then
    match transport (RSU.rsunicast_disallowSleeping (rsu n)) with
    | Done r => Done (mk_node m (mlst_online p) r)
    | NullRead => NullRead
    end
  else if mlst_is_leaf m then
    match transport (RSU.rsunicast_allowSleeping (rsu n)) with
    | Done r =>
        if mlst_stay_active_for_next_n_periods m >? 0 then
          Done (mk_node m (mlst_online p) r)
        else
          match mlst_parent m with
          | None => NullRead
          | Some i =>
              match PVN.pvn_getNbr (PVN.nbrList p) i with
              | None => NullRead
              | Some parent =>
                  if ulong (now - PVN.timestamp parent) >? MAX_AGE_OF_PARENT
                  then Done (mk_node m (mlst_online p) r)
                  else Done (mk_node m (mlst_offline p) r)
              end
          end
    | NullRead => NullRead
    end
  else
    match transport (RSU.rsunicast_disallowSleeping (rsu n)) with
    | Done r => Done (mk_node m (mlst_online p) r)
    | NullRead => NullRead
    end.

(** The part behind it: recalculation, the parent handed to the transport,
    the broadcast (which leaves the globals as they are), the two
    counters. *)
Definition after_wait (ROOT : bool) (L : layout) (RIME_ID : Z) (coin : bool)
    (n : node) : outcome node :=
  match mlst_recalculate ROOT L RIME_ID (PVN.pvn_getNbrs (mlst_pvn n)) coin
          (mlst n) with
  | NullRead => NullRead
  | Done m =>
      let r := RSU.rsunicast_setparent
                 (parent_id (own_mlst_public_variable m)) (rsu n) in
      let stay := mlst_stay_active_for_next_n_periods m in
      let div := divide_period_time_by m in
      Done (mk_node
              (mk_state (mlst_parent m)
                 (if stay >? 0 then stay - 1 else stay)
                 (if div >? 1 then div - 1 else div)
                 (own_mlst_public_variable m))
              (mlst_pvn n) r)
  end.

(** One pass through the [while(1)] of [mlst_process]. *)
Record period : Type := mk_period {
  clock_seconds : Z;
  during_wait : list happening;
  coin : bool
}.

Definition round (ROOT : bool) (L : layout) (RIME_ID : Z) (p : period)
    (n : node) : outcome node :=
  match before_wait (clock_seconds p) n with
  | NullRead => NullRead
  | Done n1 =>
      match WAIT_ONE_PERIOD ROOT (during_wait p) n1 with
      | NullRead => NullRead
      | Done n2 => after_wait ROOT L RIME_ID (coin p) n2
      end
  end.

Fixpoint rounds (ROOT : bool) (L : layout) (RIME_ID : Z) (ps : list period)
    (n : node) : outcome node :=
  match ps with
  | [] => Done n
  | p :: rest =>
      match round ROOT L RIME_ID p n with
      | Done n' => rounds ROOT L RIME_ID rest n'
      | NullRead => NullRead
      end
  end.

(** The node after [mlst_init]. *)
Definition mlst_init (L : layout) : node :=
  let p := fst (PVN.pvn_init MLST_PVN_PORT (sizeof_pv L)
                  MAX_AGE_OF_MLST_NBR_IN_SECONDS) in
  let p := PVN.pvn_set_comparison_function (Some (pvnCmp L)) p in
  let p := PVN.pvn_setCallbacks (PVN.mk_callbacks true true true) p in
  mk_node (mk_state None 0 1 (mk_pv 0 0 0)) p
    match snd (RSU.rsunicast_init false RSU.boot) with
    | Some r => r
    | None => RSU.boot
    end.

(** What holds of a root between any two steps of its thread: the parent
    pointer is null, the transport is in order, and (the thread registers
    none) the transport has no callback for arriving messages. *)
Definition root_ok (n : node) : Prop :=
  mlst_parent (mlst n) = None
  /\ RSU.timer_ok (rsu n)
  /\ History.history_ok (RSU.rsu_history (rsu n))
  /\ RSU.rsu_on_new_message_for_root_cb (rsu n) = false.

(** The neighbours that are not counted as children and publish a known
    distance. *)
Definition is_candidate (L : layout) (RIME_ID : Z) (n : PVN.Nbr) : Prop :=
  exists bytes,
    PVN.public_var n = Some bytes
    /\ parent_id (as_pv L bytes) <> 0
    /\ parent_id (as_pv L bytes) <> RIME_ID
    /\ distance_to_root (as_pv L bytes) <> 255.

(** The order of the specification on the tuples (distance_to_root + 1,
    - children_count, id), lexicographic: [v1], [i1] comes no later than
    [v2], [i2]. *)
Definition no_later (v1 : mlst_public_variable) (i1 : Z)
    (v2 : mlst_public_variable) (i2 : Z) : Prop :=
  distance_to_root v1 + 1 < distance_to_root v2 + 1
  \/ (distance_to_root v1 + 1 = distance_to_root v2 + 1
      /\ (- children_count v1 < - children_count v2
          \/ (- children_count v1 = - children_count v2 /\ i1 <= i2))).

(** [best] minimizes the tuple among the candidates of [nbrs]. *)
Definition minimizes (L : layout) (RIME_ID : Z) (nbrs : list PVN.Nbr)
    (best : PVN.Nbr) : Prop :=
  In best nbrs /\ is_candidate L RIME_ID best
  /\ forall n bytes bytes',
       In n nbrs -> is_candidate L RIME_ID n ->
       PVN.public_var best = Some bytes -> PVN.public_var n = Some bytes' ->
       no_later (as_pv L bytes) (PVN.id best) (as_pv L bytes') (PVN.id n).

(** The distance a buffer publishes is the value of a [uint8_t]. *)
Definition publishes_uint8 (L : layout) (n : PVN.Nbr) : Prop :=
  forall bytes, PVN.public_var n = Some bytes ->
  is_uint8 (distance_to_root (as_pv L bytes)).

(** The entry has its buffer, and the distance in it is not 254. *)
Definition not_at_254 (L : layout) (n : PVN.Nbr) : Prop :=
  exists bytes,
    PVN.public_var n = Some bytes
    /\ distance_to_root (as_pv L bytes) <> 254.

(** What the loop of [mlst_recalculate] has established after the
    neighbours [seen]. *)
Definition scanned (L : layout) (RIME_ID : Z) (seen : list PVN.Nbr)
    (a : locals) : Prop :=
  match l_best_parent a with
  | None =>
      l_distance_to_root a = 255
      /\ forall n, In n seen -> ~ is_candidate L RIME_ID n
  | Some (best, best_pv) =>
      (exists bytes, PVN.public_var best = Some bytes
                     /\ best_pv = as_pv L bytes)
      /\ is_uint8 (distance_to_root best_pv)
      /\ l_distance_to_root a = distance_to_root best_pv + 1
      /\ minimizes L RIME_ID seen best
  end.

(** The neighbours the loop counts as children: their buffer carries the
    parent 0 (undefined) or this node's identifier. *)
Definition is_child (L : layout) (RIME_ID : Z) (n : PVN.Nbr) : bool :=
  match PVN.public_var n with
  | Some bytes =>
      (parent_id (as_pv L bytes) =? 0)
      || (parent_id (as_pv L bytes) =? RIME_ID)
  | None => false
  end.

(** The neighbours that cannot become the parent: children, and entries
    that publish the distance 255. *)
Definition no_parent_for (L : layout) (RIME_ID : Z) (n : PVN.Nbr) : bool :=
  match PVN.public_var n with
  | Some bytes =>
      (parent_id (as_pv L bytes) =? 0)
      || (parent_id (as_pv L bytes) =? RIME_ID)
      || (distance_to_root (as_pv L bytes) =? 255)
  | None => false
  end.

(** The ranges the thread keeps its two counters in. *)
Definition counters_ok (s : state) : Prop :=
  0 <= mlst_stay_active_for_next_n_periods s <= 3
  /\ 1 <= divide_period_time_by s <= 3.

(** [mlst_parent], when it is not null, points to an entry of the list. *)
Definition parent_listed (n : node) : Prop :=
  match mlst_parent (mlst n) with
  | Some i => PVN.pvn_getNbr (PVN.nbrList (mlst_pvn n)) i <> None
  | None => True
  end.

(** What holds of a node between any two steps of its thread. *)
Definition node_ok (L : layout) (n : node) : Prop :=
  counters_ok (mlst n)
  /\ parent_listed n
  /\ PVN.onDelete (PVN.callbacks (mlst_pvn n)) = true
  /\ PVN.size_of_variable (mlst_pvn n) = sizeof_pv L
  /\ RSU.timer_ok (rsu n)
  /\ History.history_ok (RSU.rsu_history (rsu n)).

(** A happening that arrives whole: a broadcast frame of at least
    [sizeof(struct mlst_public_variable)] bytes, so that the [memcpy] of
    the neighbourhood stays inside it, and a call of the transport within
    [RSU.input_ok]. *)
Definition whole (L : layout) (h : happening) : bool :=
  match h with
  | Frame _ data _ => sizeof_pv L <=? Z.of_nat (length data)
  | Transport i => RSU.input_ok i
  end.

(** A happening that arrives whole and brings no distance 254 into the
    neighbourhood. *)
Definition quiet (L : layout) (h : happening) : bool :=
  whole L h
  && match h with
     | Frame _ data _ =>
         negb (distance_to_root
                 (as_pv L (firstn (Z.to_nat (sizeof_pv L)) data)) =? 254)
     | Transport _ => true
     end.

Definition quiet_periods (L : layout) (ps : list period) : bool :=
  forallb (fun p => forallb (quiet L) (during_wait p)) ps.

End MLST.

(** ** mlst_network-ea2.h: the recalculation loop *)

Module EAMLST.

Record mlst_public_variable : Type := mk_pv {
  distance_to_root_high : Z;
  distance_to_root_middle : Z;
  distance_to_root_low : Z;
  parent_id : Z;
  children_count : Z;
  energy_state : Z
}.

Record locals : Type := mk_locals {
  l_children_count : Z;
  l_high : Z;
  l_middle : Z;
  l_low : Z;
  l_number_of_potential_parents : Z;
  l_best_parent : option (PVN.Nbr * mlst_public_variable);
  l_stay_active : Z
}.

Definition start (stay : Z) : locals := mk_locals 0 255 255 255 0 None stay.

Definition better (a : locals) (n : PVN.Nbr) (n_pv : mlst_public_variable)
  : locals :=
  mk_locals (l_children_count a) (l_high a) (l_middle a) (l_low a) 1
    (Some (n, n_pv)) (l_stay_active a).

(** The condition of the first [if] of the potential-parent branch. *)
Definition same_distance (a : locals) (n_pv : mlst_public_variable) : bool :=
  ((energy_state n_pv =? 1)
   && negb (distance_to_root_high n_pv =? 255)
   && (distance_to_root_high n_pv + 1 =? l_high a))
  || ((l_high a =? 255)
      && negb (energy_state n_pv =? 3)
      && negb (distance_to_root_middle n_pv =? 255)
      && (distance_to_root_middle n_pv + 1 =? l_middle a))
  || ((l_high a =? 255) && (l_middle a =? 255)
      && negb (distance_to_root_low n_pv =? 255)
      && (distance_to_root_low n_pv + 1 =? l_low a)).

(** The four consecutive [if]s of the potential-parent branch. *)
Definition potential_parent (a : locals) (n : PVN.Nbr)
    (n_pv : mlst_public_variable) : outcome locals :=
  let first :=
    if same_distance a n_pv then
      match l_best_parent a with
      | None => NullRead
      | Some (best_parent, best_parent_pv) =>
          if children_count best_parent_pv <? children_count n_pv then
            Done (better a n n_pv)
          else if children_count best_parent_pv =? children_count n_pv then
            Done (mk_locals (l_children_count a) (l_high a) (l_middle a)
                    (l_low a) (uint8 (l_number_of_potential_parents a + 1))
                    (if PVN.id best_parent >? PVN.id n
                     then Some (n, n_pv)
                     else Some (best_parent, best_parent_pv))
                    (l_stay_active a))
          else Done a
      end
    else Done a in
  match first with
  | NullRead => NullRead
  | Done a =>
      let a :=
        if (energy_state n_pv =? 1)
           && negb (distance_to_root_high n_pv =? 255)
           && (distance_to_root_high n_pv + 1 <? l_high a)
        then better (mk_locals (l_children_count a)
                       (uint8 (distance_to_root_high n_pv + 1))
                       (l_middle a) (l_low a)
                       (l_number_of_potential_parents a) (l_best_parent a)
                       (l_stay_active a)) n n_pv
        else a in
      let a :=
        if negb (energy_state n_pv =? 3)
           && negb (distance_to_root_middle n_pv =? 255)
           && (distance_to_root_middle n_pv + 1 <? l_middle a)
        then
          let a := mk_locals (l_children_count a) (l_high a)
                     (uint8 (distance_to_root_middle n_pv + 1)) (l_low a)
                     (l_number_of_potential_parents a) (l_best_parent a)
                     (l_stay_active a) in
          if l_high a =? 255 then better a n n_pv else a
        else a in
      let a :=
        if negb (distance_to_root_low n_pv =? 255)
           && (distance_to_root_low n_pv + 1 <? l_low a)
        then
          let a := mk_locals (l_children_count a) (l_high a) (l_middle a)
                     (uint8 (distance_to_root_low n_pv + 1))
                     (l_number_of_potential_parents a) (l_best_parent a)
                     (l_stay_active a) in
          if (l_high a =? 255) && (l_middle a =? 255)
          then better a n n_pv else a
        else a in
      Done a
  end.

(** One iteration of the loop; [as_pv] is the cast of the byte buffer. *)
Definition visit (as_pv : list Z -> mlst_public_variable) (RIME_ID : Z)
    (a : locals) (n : PVN.Nbr) : outcome locals :=
  match PVN.public_var n with
  | None => NullRead
  | Some bytes =>
      let n_pv := as_pv bytes in
      if parent_id n_pv =? 0 then
        Done (mk_locals (uint8 (l_children_count a + 1)) (l_high a)
                (l_middle a) (l_low a) (l_number_of_potential_parents a)
                (l_best_parent a) MLST.IF_CHANGE_STAY_ACTIVE_FOR_N_PERIODS)
      else if (parent_id n_pv =? RIME_ID) || (energy_state n_pv =? 0) then
        Done (mk_locals (uint8 (l_children_count a + 1)) (l_high a)
                (l_middle a) (l_low a) (l_number_of_potential_parents a)
                (l_best_parent a) (l_stay_active a))
      else potential_parent a n n_pv
  end.

Fixpoint iterate (as_pv : list Z -> mlst_public_variable) (RIME_ID : Z)
    (a : locals) (nbrs : list PVN.Nbr) : outcome locals :=
  match nbrs with
  | [] => Done a
  | n :: next =>
      match visit as_pv RIME_ID a n with
      | Done a' => iterate as_pv RIME_ID a' next
      | NullRead => NullRead
      end
  end.

(** The image without padding: three distances, the parent identifier
    little-endian, the number of children, the energy state. *)
Definition packed (b : list Z) : mlst_public_variable :=
  mk_pv (nth 0 b 0) (nth 1 b 0) (nth 2 b 0) (nth 3 b 0 + 256 * nth 4 b 0)
    (nth 5 b 0) (nth 6 b 0).

(** The four consecutive [if]s of the potential-parent branch, one by
    one. *)
Definition step_same (a : locals) (n : PVN.Nbr) (n_pv : mlst_public_variable)
  : outcome locals :=
  if same_distance a n_pv then
    match l_best_parent a with
    | None => NullRead
    | Some (best_parent, best_parent_pv) =>
        if children_count best_parent_pv <? children_count n_pv then
          Done (better a n n_pv)
        else if children_count best_parent_pv =? children_count n_pv then
          Done (mk_locals (l_children_count a) (l_high a) (l_middle a)
                  (l_low a) (uint8 (l_number_of_potential_parents a + 1))
                  (if PVN.id best_parent >? PVN.id n
                   then Some (n, n_pv)
                   else Some (best_parent, best_parent_pv))
                  (l_stay_active a))
        else Done a
    end
  else Done a.

Definition step_high (a : locals) (n : PVN.Nbr) (n_pv : mlst_public_variable)
  : locals :=
  if (energy_state n_pv =? 1)
     && negb (distance_to_root_high n_pv =? 255)
     && (distance_to_root_high n_pv + 1 <? l_high a)
  then better (mk_locals (l_children_count a)
                 (uint8 (distance_to_root_high n_pv + 1))
                 (l_middle a) (l_low a)
                 (l_number_of_potential_parents a) (l_best_parent a)
                 (l_stay_active a)) n n_pv
  else a.

Definition step_middle (a : locals) (n : PVN.Nbr)
    (n_pv : mlst_public_variable) : locals :=
  if negb (energy_state n_pv =? 3)
     && negb (distance_to_root_middle n_pv =? 255)
     && (distance_to_root_middle n_pv + 1 <? l_middle a)
  then
    let a := mk_locals (l_children_count a) (l_high a)
               (uint8 (distance_to_root_middle n_pv + 1)) (l_low a)
               (l_number_of_potential_parents a) (l_best_parent a)
               (l_stay_active a) in
    if l_high a =? 255 then better a n n_pv else a
  else a.

Definition step_low (a : locals) (n : PVN.Nbr) (n_pv : mlst_public_variable)
  : locals :=
  if negb (distance_to_root_low n_pv =? 255)
     && (distance_to_root_low n_pv + 1 <? l_low a)
  then
    let a := mk_locals (l_children_count a) (l_high a) (l_middle a)
               (uint8 (distance_to_root_low n_pv + 1))
               (l_number_of_potential_parents a) (l_best_parent a)
               (l_stay_active a) in
    if (l_high a =? 255) && (l_middle a =? 255)
    then better a n n_pv else a
  else a.

(** The globals of the header. *)
Record state : Type := mk_state {
  mlst_parent : option Z;
  mlst_stay_active_for_next_n_periods : Z;
  divide_period_time_by : Z;
  own_mlst_public_variable : mlst_public_variable
}.

(** The globals after [mlst_init]: the statics are zero, and
    [energy_state] is set to 0. *)
Definition init_state : state := mk_state None 0 1 (mk_pv 0 0 0 0 0 0).

Definition eamlst_set_energy_state (e : Z) (s : state) : state :=
  let own := own_mlst_public_variable s in
  mk_state (mlst_parent s) (mlst_stay_active_for_next_n_periods s)
    (divide_period_time_by s)
    (mk_pv (distance_to_root_high own) (distance_to_root_middle own)
       (distance_to_root_low own) (parent_id own) (children_count own) e).

(** [mlst_recalculate] of the energy-aware variant; no branch writes
    [energy_state]. *)
Definition mlst_recalculate (ROOT : bool)
    (as_pv : list Z -> mlst_public_variable) (RIME_ID : Z)
    (nbrs : list PVN.Nbr) (coin : bool) (s : state) : outcome state :=
  let own := own_mlst_public_variable s in
  if ROOT then
    Done (mk_state (mlst_parent s) (mlst_stay_active_for_next_n_periods s)
            (divide_period_time_by s)
            (mk_pv 0 0 0 65535 255 (energy_state own)))
  else
    match iterate as_pv RIME_ID
            (start (mlst_stay_active_for_next_n_periods s)) nbrs with
    | NullRead => NullRead
    | Done a =>
        match l_best_parent a with
        | Some (best_parent, _) =>
            if (l_number_of_potential_parents a >? 1) && coin then
              Done (mk_state (mlst_parent s) (l_stay_active a)
                      (divide_period_time_by s)
                      (mk_pv 255 255 255 0 (l_children_count a)
                         (energy_state own)))
            else
              let differs :=
                (parent_id own =? 0)
                || negb (parent_id own =? PVN.id best_parent)
                || negb (distance_to_root_high own =? l_high a)
                || negb (distance_to_root_middle own =? l_middle a)
                || negb (distance_to_root_low own =? l_low a)
                || negb (children_count own =? l_children_count a) in
              Done (mk_state (Some (PVN.id best_parent))
                      (if differs
                       then MLST.IF_CHANGE_STAY_ACTIVE_FOR_N_PERIODS
                       else l_stay_active a)
                      (if differs then 3 else divide_period_time_by s)
                      (mk_pv (l_high a) (l_middle a) (l_low a)
                         (PVN.id best_parent) (l_children_count a)
                         (energy_state own)))
        | None =>
            Done (mk_state (mlst_parent s) (l_stay_active a)
                    (divide_period_time_by s)
                    (mk_pv 255 255 255 0 (l_children_count a)
                       (energy_state own)))
        end
    end.

(** The neighbours the loop counts as children: undefined ones, those
    whose parent is this node, and those with the energy state 0. *)
Definition is_child (as_pv : list Z -> mlst_public_variable) (RIME_ID : Z)
    (n : PVN.Nbr) : bool :=
  match PVN.public_var n with
  | Some bytes =>
      (parent_id (as_pv bytes) =? 0)
      || (parent_id (as_pv bytes) =? RIME_ID)
      || (energy_state (as_pv bytes) =? 0)
  | None => false
  end.

(** A distance that is the value of a [uint8_t] other than 254. *)
Definition in_range (d : Z) : bool :=
  (0 <=? d) && (d <=? 255) && negb (d =? 254).

(** The entry has its buffer, with three such distances in it. *)
Definition sane (as_pv : list Z -> mlst_public_variable) (n : PVN.Nbr)
  : bool :=
  match PVN.public_var n with
  | Some bytes =>
      in_range (distance_to_root_high (as_pv bytes))
      && in_range (distance_to_root_middle (as_pv bytes))
      && in_range (distance_to_root_low (as_pv bytes))
  | None => false
  end.

(** The image of a neighbour that takes the potential-parent branch. *)
Definition potential (RIME_ID : Z) (v : mlst_public_variable) : Prop :=
  parent_id v <> 0 /\ parent_id v <> RIME_ID /\ energy_state v <> 0.

(** How the best parent relates to the three distances: it supplies the
    first of them (high, middle, low) that is known. *)
Definition chosen (high middle low : Z) (bv : mlst_public_variable) : Prop :=
  if high =? 255 then
    if middle =? 255 then distance_to_root_low bv + 1 = low
    else energy_state bv <> 3 /\ distance_to_root_middle bv + 1 = middle
  else energy_state bv = 1 /\ distance_to_root_high bv + 1 = high.

(** The three distances are minima over the potential parents, each over
    the energy states it admits. *)
Definition least (as_pv : list Z -> mlst_public_variable) (RIME_ID : Z)
    (sh sm sl : list PVN.Nbr) (high middle low : Z) : Prop :=
  forall n bytes,
    PVN.public_var n = Some bytes -> potential RIME_ID (as_pv bytes) ->
    (In n sh -> energy_state (as_pv bytes) = 1 ->
     distance_to_root_high (as_pv bytes) <> 255 ->
     high <= distance_to_root_high (as_pv bytes) + 1)
    /\ (In n sm -> energy_state (as_pv bytes) <> 3 ->
        distance_to_root_middle (as_pv bytes) <> 255 ->
        middle <= distance_to_root_middle (as_pv bytes) + 1)
    /\ (In n sl -> distance_to_root_low (as_pv bytes) <> 255 ->
        low <= distance_to_root_low (as_pv bytes) + 1).

(** The images whose distance of one kind counts: the neighbour takes the
    potential-parent branch, its energy state is one the kind takes
    (1 for the high distance, not 3 for the middle one, any for the low
    one), and the distance is known. *)
Definition high_counts (RIME_ID : Z) (v : mlst_public_variable) : Prop :=
  potential RIME_ID v /\ energy_state v = 1
  /\ distance_to_root_high v <> 255.

Definition middle_counts (RIME_ID : Z) (v : mlst_public_variable) : Prop :=
  potential RIME_ID v /\ energy_state v <> 3
  /\ distance_to_root_middle v <> 255.

Definition low_counts (RIME_ID : Z) (v : mlst_public_variable) : Prop :=
  potential RIME_ID v /\ distance_to_root_low v <> 255.

(** [d] is 255, or one more than the distance that an entry of [nbrs]
    whose image counts publishes. *)
Definition attains (as_pv : list Z -> mlst_public_variable)
    (nbrs : list PVN.Nbr) (counts : mlst_public_variable -> Prop)
    (dist : mlst_public_variable -> Z) (d : Z) : Prop :=
  d = 255
  \/ exists n bytes,
       In n nbrs /\ PVN.public_var n = Some bytes
       /\ counts (as_pv bytes) /\ dist (as_pv bytes) + 1 = d.

(** Each of the three distances is 255 or attained by an entry of
    [nbrs]; with [least], each is the minimum of its kind, and 255 when
    no entry counts. *)
Definition attained (as_pv : list Z -> mlst_public_variable) (RIME_ID : Z)
    (nbrs : list PVN.Nbr) (high middle low : Z) : Prop :=
  attains as_pv nbrs (high_counts RIME_ID) distance_to_root_high high
  /\ attains as_pv nbrs (middle_counts RIME_ID) distance_to_root_middle
       middle
  /\ attains as_pv nbrs (low_counts RIME_ID) distance_to_root_low low.

(** What the loop has established: [sh], [sm], [sl] are the neighbours
    whose high, middle and low distance have been taken into account, [sb]
    those that may have become the best parent. *)
Definition tiers (as_pv : list Z -> mlst_public_variable) (RIME_ID : Z)
    (sh sm sl sb : list PVN.Nbr) (a : locals) : Prop :=
  least as_pv RIME_ID sh sm sl (l_high a) (l_middle a) (l_low a)
  /\ l_high a <= 255 /\ l_middle a <= 255 /\ l_low a <= 255
  /\ match l_best_parent a with
     | None => l_high a = 255 /\ l_middle a = 255 /\ l_low a = 255
     | Some (b, bv) =>
         In b sb
         /\ (exists bytes, PVN.public_var b = Some bytes /\ bv = as_pv bytes)
         /\ potential RIME_ID bv
         /\ chosen (l_high a) (l_middle a) (l_low a) bv
     end.

End EAMLST.

(** * Properties *)

(** ** The duplicate history *)

Section HistoryFacts.

Import History.

Lemma uint8_small (x : Z) : 0 <= x < 256 -> uint8 x = x.
Proof. intros H. unfold uint8. apply Z.mod_small. lia. Qed.

Lemma uint16_small (x : Z) : 0 <= x < 65536 -> uint16 x = x.
Proof. intros H. unfold uint16. apply Z.mod_small. lia. Qed.

Lemma remove_at_head_spec (l : list rsu_history_element) (size from : Z) :
  NoDup (ids l) ->
  Z.of_nat (length l) <= size <= MAX_HISTORY_SIZE ->
  let (l1, size1) := remove_at_head l size from in
  NoDup (ids l1) /\ incl (ids l1) (ids l)
  /\ Z.of_nat (length l1) <= size1 <= size
  /\ (match l1 with [] => True | e :: _ => id e <> from end)
  /\ (l1 = [] -> size1 < MAX_HISTORY_SIZE \/ l = []).
Proof.
  unfold MAX_HISTORY_SIZE.
  destruct l as [|e next]; simpl; intros Hnd Hsz.
  - repeat split; auto; try lia. apply incl_refl.
  - destruct (id e =? from) eqn:He.
    + apply Z.eqb_eq in He. inversion Hnd as [|? ? Hnotin Hnd']; subst.
      rewrite uint8_small by lia.
      destruct next as [|e' next']; simpl.
      * repeat split; auto; try lia. intros x [].
      * destruct (id e' =? id e) eqn:He'.
        { apply Z.eqb_eq in He'. exfalso. apply Hnotin. simpl. auto. }
        apply Z.eqb_neq in He'. simpl in *.
        repeat split; auto; try lia; try discriminate.
        intros x Hx. right. exact Hx.
    + apply Z.eqb_neq in He. simpl in *.
      repeat split; auto; try lia; try discriminate.
      apply incl_refl.
Qed.

(** The append loop, by induction on a bound of the number of cells behind
    the cursor (the loop moves by one or by two cells). *)
Lemma append_loop_spec (from sq : Z) (k : nat) :
  forall (tmp : rsu_history_element) (behind : list rsu_history_element),
  (length behind <= k)%nat ->
  NoDup (ids (tmp :: behind)) ->
  id tmp <> from ->
  let (l, added) := append_loop tmp behind from sq in
  NoDup (ids l)
  /\ (forall x, In x (ids l) -> x = from \/ In x (ids (tmp :: behind)))
  /\ l <> []
  /\ (length l <= length (tmp :: behind) + (if added then 1 else 0))%nat
  /\ (added = false -> (length l < length (tmp :: behind))%nat).
Proof.
  assert (Hlast : forall tmp : rsu_history_element, id tmp <> from ->
            NoDup (ids [tmp; mk_elem from sq])).
  { intros tmp Hne. simpl. constructor; [|constructor; [intros []|constructor]].
    simpl. intros [H|[]]. congruence. }
  induction k as [|k IH]; intros tmp behind Hlen Hnd Hne.
  - destruct behind; [|simpl in Hlen; lia]. simpl.
    split; [exact (Hlast tmp Hne)|].
    split; [|split; [discriminate|split; [lia|discriminate]]].
    intros x [H|[H|[]]]; auto.
  - destruct behind as [|nx behind'].
    + simpl.
      split; [exact (Hlast tmp Hne)|].
    split; [|split; [discriminate|split; [lia|discriminate]]].
      intros x [H|[H|[]]]; auto.
    + simpl in Hlen. cbn [append_loop].
      inversion Hnd as [|? ? Hnotin Hnd']; subst.
      destruct (id nx =? from) eqn:Hnx.
      * apply Z.eqb_eq in Hnx.
        destruct behind' as [|c behind''].
        { split; [|split; [|split; [discriminate|split; [simpl; lia|]]]].
          - simpl. constructor; [intros []|constructor].
          - intros x [H|[]]; simpl; auto.
          - intros _. simpl. lia. }
        { inversion Hnd' as [|? ? Hnotin' Hnd'']; subst.
          assert (Hc : id c <> id nx).
          { intros Heq. apply Hnotin'. simpl. auto. }
          simpl in Hlen.
          specialize (IH c behind'' ltac:(lia) Hnd'' Hc).
          destruct (append_loop c behind'' (id nx) sq) as [l added].
          destruct IH as (Hnd1 & Hin1 & Hne1 & Hlen1 & Hlen2).
          split; [|split; [|split; [discriminate|split]]].
          - simpl. constructor; auto. intros Hin.
            destruct (Hin1 _ Hin) as [H|H]; [congruence|].
            apply Hnotin. simpl. right. exact H.
          - simpl in *. intros x [H|H]; [tauto|].
            destruct (Hin1 _ H) as [H'|H']; tauto.
          - simpl in *. lia.
          - intros Ha. specialize (Hlen2 Ha). simpl in *. lia. }
      * apply Z.eqb_neq in Hnx.
        specialize (IH nx behind' ltac:(lia) Hnd' Hnx).
        destruct (append_loop nx behind' from sq) as [l added].
        destruct IH as (Hnd1 & Hin1 & Hne1 & Hlen1 & Hlen2).
        split; [|split; [|split; [discriminate|split]]].
        { simpl. constructor; auto. intros Hin.
          destruct (Hin1 _ Hin) as [H|H]; [congruence|].
          apply Hnotin. exact H. }
        { simpl in *. intros x [H|H]; [tauto|].
          destruct (Hin1 _ H) as [H'|H']; tauto. }
        { simpl in *. lia. }
        { intros Ha. specialize (Hlen2 Ha). simpl in *. lia. }
Qed.

Lemma clean_oldest_spec (l : list rsu_history_element) (size : Z) :
  l <> [] ->
  NoDup (ids l) ->
  Z.of_nat (length l) <= size <= MAX_HISTORY_SIZE + 1 ->
  exists h, clean_oldest l size = Some h /\ history_ok h.
Proof.
  unfold MAX_HISTORY_SIZE. intros Hne Hnd Hsz.
  destruct l as [|e next]; [congruence|].
  cbn [clean_oldest]. unfold MAX_HISTORY_SIZE.
  destruct (size >? 30) eqn:Hgt.
  - apply Z.gtb_lt in Hgt. assert (size = 31) by lia. subst size.
    exists (mk_history next 30). split.
    + destruct next; reflexivity.
    + inversion Hnd; subst. unfold history_ok, MAX_HISTORY_SIZE. simpl in *.
      repeat split; auto; lia.
  - exists (mk_history (e :: next) size). split; [reflexivity|].
    assert (size <= 30) by (destruct (Z.gtb_spec size 30); [discriminate|lia]).
    unfold history_ok, MAX_HISTORY_SIZE. simpl in *. repeat split; auto; lia.
Qed.

(** From a well-formed history [rsu_add_history] reads through no null
    pointer and leaves a well-formed history: in particular no source has
    two entries and no more than [MAX_HISTORY_SIZE] entries are kept. *)
Lemma rsu_add_history_ok (h : history) (from sq : Z) :
  history_ok h ->
  exists h', rsu_add_history h from sq = Some h' /\ history_ok h'.
Proof.
  intros (Hnd & Hlo & Hhi). unfold rsu_add_history.
  pose proof (remove_at_head_spec (rsu_history_list h) (rsu_history_size h)
                from Hnd (conj Hlo Hhi)) as H1.
  destruct (remove_at_head (rsu_history_list h) (rsu_history_size h) from)
    as [l1 size1].
  destruct H1 as (Hnd1 & _ & Hsz1 & Hhd & _).
  unfold MAX_HISTORY_SIZE in *.
  destruct l1 as [|tmp behind].
  - apply clean_oldest_spec.
    + discriminate.
    + simpl. constructor; [intros []|constructor].
    + simpl in *. rewrite uint8_small by lia. unfold MAX_HISTORY_SIZE. lia.
  - pose proof (append_loop_spec from sq (length behind) tmp behind
                  (le_n _) Hnd1 Hhd) as H2.
    destruct (append_loop tmp behind from sq) as [l added].
    destruct H2 as (Hnd2 & _ & Hne2 & Hlen2 & Hlen2').
    apply clean_oldest_spec; auto.
    unfold MAX_HISTORY_SIZE. destruct added.
    + simpl in *. rewrite uint8_small by lia. lia.
    + specialize (Hlen2' eq_refl). simpl in *. lia.
Qed.

Lemma add_all_ok (calls : list (Z * Z)) :
  forall h, history_ok h ->
  exists h', add_all h calls = Some h' /\ history_ok h'.
Proof.
  induction calls as [|[from sq] rest IH]; intros h Hok; simpl.
  - exists h. auto.
  - destruct (rsu_add_history_ok h from sq Hok) as (h1 & -> & Hok1).
    apply IH. exact Hok1.
Qed.

Lemma empty_ok : history_ok empty.
Proof.
  unfold history_ok, empty, MAX_HISTORY_SIZE. simpl.
  repeat split; try lia. constructor.
Qed.

(** When the older entry of the source is the last cell and not the head,
    the call unlinks it and records nothing: list and counter are those of
    before, less the cell. *)
Lemma add_history_of_last_source (a b : rsu_history_element)
    (size sq : Z) :
  id a <> id b -> size <= MAX_HISTORY_SIZE ->
  rsu_add_history (mk_history [a; b] size) (id b) sq
  = Some (mk_history [a] size).
Proof.
  unfold MAX_HISTORY_SIZE. intros Hne Hsz. apply Z.eqb_neq in Hne.
  unfold rsu_add_history. cbn [rsu_history_list rsu_history_size
    remove_at_head]. rewrite Hne. cbn [append_loop]. rewrite Z.eqb_refl.
  cbn [clean_oldest]. unfold MAX_HISTORY_SIZE.
  replace (size >? 30) with false
    by (symmetry; destruct (Z.gtb_spec size 30); [lia|reflexivity]).
  reflexivity.
Qed.

(** C2 (the code departs from the specification).  The specification:
    after any sequence of [rsu_add_history] calls the history holds, for
    each source, its most recently added sequence number, and
    [rsu_history_size] is the number of entries.  After the calls (1,0),
    (2,0), (2,1) the list is the single entry (1,0): the older entry of
    source 2 was the last cell, it is unlinked without a decrement of the
    counter, the loop ends on the null cursor and the new entry is never
    linked in.  The counter is 2, the list has
    one entry, and the pair (2,1) just added is not found. *)
Theorem rsu_add_history_forgets_and_miscounts :
  exists h,
    add_all empty [(1, 0); (2, 0); (2, 1)] = Some h
    /\ rsu_history_list h = [mk_elem 1 0]
    /\ rsu_history_size h = 2
    /\ rsu_history_size h <> Z.of_nat (length (rsu_history_list h))
    /\ rsu_check_history (rsu_history_list h) 2 1 = false.
Proof.
  eexists. split; [vm_compute; reflexivity|].
  simpl. repeat split; try reflexivity. discriminate.
Qed.

End HistoryFacts.

(** ** The transport *)

Section TransportFacts.

Import RSU.

Lemma bind_ret_l (s : state) (k : state -> run) : ret s >>= k = k s.
Proof. unfold bind, ret. destruct (k s). reflexivity. Qed.

Lemma bind_ret_r (r : run) : r >>= ret = r.
Proof.
  destruct r as [es [s|]]; simpl; [|reflexivity].
  rewrite app_nil_r. reflexivity.
Qed.

Lemma bind_assoc (r : run) (k1 k2 : state -> run) :
  (r >>= k1) >>= k2 = r >>= (fun s => k1 s >>= k2).
Proof.
  destruct r as [es [s|]]; simpl; [|reflexivity].
  destruct (k1 s) as [es1 [s1|]]; simpl; [|reflexivity].
  destruct (k2 s1) as [es2 r2]. rewrite app_assoc. reflexivity.
Qed.

Lemma steps_app (ROOT : bool) (xs ys : list input) (s : state) :
  steps ROOT (xs ++ ys) s = steps ROOT xs s >>= steps ROOT ys.
Proof.
  revert s. induction xs as [|x xs IH]; intros s; cbn [steps app].
  - rewrite bind_ret_l. reflexivity.
  - rewrite bind_assoc. destruct (step ROOT x s) as [es [s1|]]; unfold bind.
    + rewrite IH. reflexivity.
    + reflexivity.
Qed.

(** With the timer stopped, its expiry does nothing. *)
Lemma idle_timer (ROOT : bool) (n : nat) (s : state) :
  rsu_timer s = None -> steps ROOT (repeat InTimer n) s = ([], Some s).
Proof.
  intros Ht. induction n as [|n IH]; cbn [steps repeat step]; [reflexivity|].
  unfold ctimer_expires. rewrite Ht. rewrite bind_ret_l. exact IH.
Qed.

(** A try of the head that is not the last one: the timer expires twice
    (transmission, then time-out), and the head is back in front with one
    more try. *)
Lemma try_again (ROOT : bool) (m : list Z) (sz k : Z)
    (next : list RSUnicastQueueElement) (sn : Z) (onl alw : bool)
    (p miq : Z) (rcb : bool) (h : History.history) :
  p <> 0 -> 0 <= k < MAX_TRIES ->
  steps ROOT [InTimer; InTimer]
    (mk_state (Some to_send_next_message) (mk_qe m sz k :: next) true sn
       onl alw p miq rcb h)
  = (failed_try p (packet_of (mk_qe m sz k)) (k + 1),
     Some (mk_state (Some to_send_next_message) (mk_qe m sz (k + 1) :: next)
             true sn onl alw p miq rcb h)).
Proof.
  unfold MAX_TRIES. intros Hp Hk. apply Z.eqb_neq in Hp.
  unfold steps, step, ctimer_expires, rsu_send_next_message. simpl.
  rewrite Hp. simpl. unfold rsu_on_ack_timeout. simpl.
  rewrite (uint8_small (k + 1)) by lia.
  unfold MAX_TRIES.
  replace (k + 1 >? 5) with false
    by (symmetry; destruct (Z.gtb_spec (k + 1) 5); [lia|reflexivity]).
  reflexivity.
Qed.

(** The last try of the only element of the queue: after the time-out the
    element is unlinked, the timer stays stopped, and the channels are
    closed when sleeping is allowed. *)
Lemma try_last (ROOT : bool) (m : list Z) (sz : Z) (sn : Z)
    (onl alw : bool) (p miq : Z) (rcb : bool) (h : History.history) :
  p <> 0 ->
  steps ROOT [InTimer; InTimer]
    (mk_state (Some to_send_next_message) [mk_qe m sz MAX_TRIES] true sn
       onl alw p miq rcb h)
  = (failed_try p (packet_of (mk_qe m sz MAX_TRIES)) (MAX_TRIES + 1)
       ++ (if alw then [EvUnicastClose rsu_data_channel;
                        EvUnicastClose rsu_ack_channel] else []),
     Some (mk_state None [] true sn (if alw then false else onl) alw p miq
             rcb h)).
Proof.
  intros Hp. apply Z.eqb_neq in Hp.
  unfold steps, step, ctimer_expires, rsu_send_next_message. simpl.
  rewrite Hp. simpl. unfold rsu_on_ack_timeout. simpl.
  destruct alw; reflexivity.
Qed.

Lemma steps_seq (ROOT : bool) (xs ys : list input) (s s1 : state)
    (es1 es2 : list event) (r : option state) :
  steps ROOT xs s = (es1, Some s1) ->
  steps ROOT ys s1 = (es2, r) ->
  steps ROOT (xs ++ ys) s = (es1 ++ es2, r).
Proof.
  intros H1 H2. rewrite steps_app, H1. unfold bind. rewrite H2. reflexivity.
Qed.

(** The six tries of a lone queue element, from the moment the send timer
    is armed. *)
Lemma six_tries (ROOT : bool) (m : list Z) (sz : Z) (sn : Z)
    (onl alw : bool) (p miq : Z) (rcb : bool) (h : History.history) :
  p <> 0 ->
  steps ROOT (repeat InTimer 12)
    (mk_state (Some to_send_next_message) [mk_qe m sz 0] true sn onl alw p
       miq rcb h)
  = (flat_map (failed_try p (packet_of (mk_qe m sz 0))) [1; 2; 3; 4; 5; 6]
       ++ (if alw then [EvUnicastClose rsu_data_channel;
                        EvUnicastClose rsu_ack_channel] else []),
     Some (mk_state None [] true sn (if alw then false else onl) alw p miq
             rcb h)).
Proof.
  intros Hp.
  change (repeat InTimer 12) with
    ([InTimer; InTimer] ++ [InTimer; InTimer] ++ [InTimer; InTimer]
     ++ [InTimer; InTimer] ++ [InTimer; InTimer] ++ [InTimer; InTimer]).
  cbn [flat_map]. rewrite app_nil_r. repeat rewrite <- app_assoc.
  do 5 (eapply steps_seq;
        [apply try_again; [exact Hp|unfold MAX_TRIES; lia]|]).
  apply (try_last ROOT m sz sn onl alw p miq rcb h Hp).
Qed.

(** [rsunicast_send] on an empty queue: the channels are opened if they
    were closed, the envelope becomes the queue, the send timer is armed. *)
Lemma send_on_empty_queue (payload : list Z) (tm : option ctimer_callback)
    (cb : bool) (sn : Z) (onl alw : bool) (p miq : Z) (rcb : bool)
    (h : History.history) :
  rsunicast_send payload (mk_state tm [] cb sn onl alw p miq rcb h)
  = ((if onl then []
      else [EvUnicastOpen rsu_data_channel MESSAGING_PORT;
            EvUnicastOpen rsu_ack_channel ACKNOWLEDGEMENT_PORT]),
     Some (mk_state (Some to_send_next_message)
             [mk_qe (sn :: payload) (uint16 (Z.of_nat (length payload) + 1)) 0]
             cb (if sn =? 255 then 0 else sn + 1) true alw p
             (uint16 (miq + 1)) rcb h)).
Proof. unfold rsunicast_send. destruct onl; reflexivity. Qed.

(** C3.  A payload is handed to [rsunicast_send] while the queue is empty,
    the parent is set and a failure callback is registered, and no
    acknowledgement ever arrives, so that only the timer runs.  Then the
    envelope is transmitted to the parent six times, each transmission
    followed by the failure callback with the count 1, 2, ..., 6; with the
    sixth time-out the element leaves the queue, the timer stays stopped,
    and whatever number of further timer expiries causes no event at
    all. *)
Theorem unacknowledged_send_is_tried_six_times (ROOT : bool)
    (payload : list Z) (s : state) :
  rsu_queue s = [] ->
  rsu_parent s <> 0 ->
  rsu_onLostMessageCB s = true ->
  let envelope :=
    mk_qe (rsu_seqno s :: payload) (uint16 (Z.of_nat (length payload) + 1)) 0 in
  exists s',
    steps ROOT (InSend payload :: repeat InTimer 12) s
    = ((if rsu_is_online s then []
        else [EvUnicastOpen rsu_data_channel MESSAGING_PORT;
              EvUnicastOpen rsu_ack_channel ACKNOWLEDGEMENT_PORT])
       ++ flat_map (failed_try (rsu_parent s) (packet_of envelope))
            [1; 2; 3; 4; 5; MAX_TRIES + 1]
       ++ (if rsu_is_allowed_to_sleep s
           then [EvUnicastClose rsu_data_channel;
                 EvUnicastClose rsu_ack_channel] else []),
       Some s')
    /\ rsu_queue s' = []
    /\ rsu_timer s' = None
    /\ forall n, steps ROOT (repeat InTimer n) s' = ([], Some s').
Proof.
  intros Hq Hp Hcb envelope.
  destruct s as [tm q cb sn onl alw p miq rcb h]. simpl in Hq, Hp, Hcb.
  subst q cb. subst envelope. cbn [rsu_seqno rsu_parent rsu_is_online
    rsu_is_allowed_to_sleep].
  eexists. split; [|split; [|split]].
  - change (InSend payload :: repeat InTimer 12)
      with ([InSend payload] ++ repeat InTimer 12).
    eapply steps_seq.
    + cbn [steps step]. rewrite bind_ret_r. apply send_on_empty_queue.
    + apply six_tries. exact Hp.
  - reflexivity.
  - reflexivity.
  - intros n. apply idle_timer. reflexivity.
Qed.

(** The hypotheses of C3 hold of a freshly booted transport whose parent is
    node 1, sending the four bytes 1, 2, 3, 4. *)
Lemma unacknowledged_send_witness :
  exists s',
    steps false (InSend [1; 2; 3; 4] :: repeat InTimer 12)
      (rsunicast_setFailureCallback true (rsunicast_setparent 1 boot))
    = ([EvUnicastOpen rsu_data_channel MESSAGING_PORT;
        EvUnicastOpen rsu_ack_channel ACKNOWLEDGEMENT_PORT]
       ++ flat_map (failed_try 1 [0; 1; 2; 3; 4]) [1; 2; 3; 4; 5; 6] ++ [],
       Some s')
    /\ rsu_queue s' = []
    /\ rsu_timer s' = None
    /\ forall n, steps false (repeat InTimer n) s' = ([], Some s').
Proof.
  apply (unacknowledged_send_is_tried_six_times false [1; 2; 3; 4]
           (rsunicast_setFailureCallback true (rsunicast_setparent 1 boot))).
  - reflexivity.
  - simpl. lia.
  - reflexivity.
Defined.

(** The identifier of a link address is its two bytes, big-endian. *)
Lemma decode_id_value (a : linkaddr_t) :
  linkaddr_wf a -> decode_id a = 256 * u8_0 a + u8_1 a.
Proof.
  intros [[Ha0 Ha1] [Hb0 Hb1]]. unfold decode_id.
  change (2 ^ 8) with 256 in *.
  assert (Hor : Z.lor (Z.shiftl (u8_0 a) 8) (u8_1 a) = 256 * u8_0 a + u8_1 a).
  { rewrite Z.shiftl_mul_pow2 by lia. change (2 ^ 8) with 256.
    rewrite <- Z.lxor_lor.
    - rewrite <- Z.add_nocarry_lxor; [lia|].
      apply Z.bits_inj'. intros n Hn. rewrite Z.land_spec, Z.bits_0.
      destruct (Z.lt_ge_cases n 8) as [Hlt|Hge].
      + replace (u8_0 a * 256) with (u8_0 a * 2 ^ 8) by reflexivity.
        rewrite Z.mul_pow2_bits_low by lia. reflexivity.
      + rewrite (Z.bits_above_log2 (u8_1 a) n); [apply andb_false_r|lia|].
        destruct (Z.eq_dec (u8_1 a) 0) as [->|Hnz]; [simpl; lia|].
        apply Z.log2_lt_pow2; [lia|].
        apply Z.lt_le_trans with (2 ^ 8); [change (2 ^ 8) with 256; lia|].
        apply Z.pow_le_mono_r; lia.
    - apply Z.bits_inj'. intros n Hn. rewrite Z.land_spec, Z.bits_0.
      destruct (Z.lt_ge_cases n 8) as [Hlt|Hge].
      + replace (u8_0 a * 256) with (u8_0 a * 2 ^ 8) by reflexivity.
        rewrite Z.mul_pow2_bits_low by lia. reflexivity.
      + rewrite (Z.bits_above_log2 (u8_1 a) n); [apply andb_false_r|lia|].
        destruct (Z.eq_dec (u8_1 a) 0) as [->|Hnz]; [simpl; lia|].
        apply Z.log2_lt_pow2; [lia|].
        apply Z.lt_le_trans with (2 ^ 8); [change (2 ^ 8) with 256; lia|].
        apply Z.pow_le_mono_r; lia. }
  rewrite Hor. apply uint16_small. lia.
Qed.

(** [encode_id] undoes [decode_id]: an answer goes to the address the frame
    came from. *)
Lemma encode_decode_id (a : linkaddr_t) :
  linkaddr_wf a -> encode_id (decode_id a) = a.
Proof.
  intros Hwf. rewrite (decode_id_value a Hwf).
  destruct Hwf as [[Ha0 Ha1] [Hb0 Hb1]]. change (2 ^ 8) with 256 in *.
  destruct a as [a0 a1]. cbn [u8_0 u8_1] in *. unfold encode_id. f_equal.
  - rewrite Z.shiftr_div_pow2 by lia. change (2 ^ 8) with 256.
    replace ((256 * a0 + a1) / 256) with a0
      by (apply Z.div_unique with a1; lia).
    apply uint8_small. lia.
  - change 255 with (Z.ones 8). rewrite Z.land_ones by lia.
    change (2 ^ 8) with 256.
    replace ((256 * a0 + a1) mod 256) with a1
      by (apply Z.mod_unique with a0; lia).
    apply uint8_small. lia.
Qed.

(** C8.  Whatever the state of the transport (in particular whatever its
    history holds, so also for a duplicate), and on a root as on any other
    node, the first thing [rsu_on_new_message] does with a frame is to send
    the one byte 'A' on the acknowledgement channel to the address the
    frame came from; it sends no second acknowledgement. *)
Theorem every_data_frame_is_acknowledged (ROOT : bool) (from : linkaddr_t)
    (packet : list Z) (s : state) :
  linkaddr_wf from ->
  exists rest,
    fst (rsu_on_new_message ROOT from packet s)
    = EvUnicastSend rsu_ack_channel from [65] :: rest
    /\ filter is_ack rest = [].
Proof.
  intros Hwf. unfold rsu_on_new_message, ACK.
  rewrite (encode_decode_id from Hwf).
  set (i := decode_id from).
  destruct packet as [|sq payload].
  { cbn [bind emit]. destruct ROOT;
      [destruct (rsu_on_new_message_for_root_cb s)|];
      simpl; eexists; split; reflexivity. }
  destruct ROOT.
  - cbn [bind emit].
    destruct (rsu_on_new_message_for_root_cb s);
      [destruct (History.rsu_check_history
                   (History.rsu_history_list (rsu_history s)) i sq)|];
      simpl; eexists; split; reflexivity.
  - cbn [bind emit].
    destruct (History.rsu_check_history
                (History.rsu_history_list (rsu_history s)) i sq);
      [simpl; eexists; split; reflexivity|].
    destruct (History.rsu_add_history (rsu_history s) i sq) as [h|];
      [|simpl; eexists; split; reflexivity].
    unfold rsunicast_send.
    destruct (rsu_is_online (set_history h s)); simpl;
      eexists; split; reflexivity.
Qed.

(** C8 at a duplicate: the pair (source 1, sequence number 7) is in the
    history of a node that is not the root, the frame is dropped, and the
    acknowledgement is sent all the same. *)
Lemma duplicate_is_acknowledged_witness :
  linkaddr_wf (mk_linkaddr 0 1)
  /\ rsu_on_new_message false (mk_linkaddr 0 1) [7; 42]
       (set_history (History.mk_history [History.mk_elem 1 7] 1) boot)
     = ([EvUnicastSend rsu_ack_channel (mk_linkaddr 0 1) [65]],
        Some (set_history (History.mk_history [History.mk_elem 1 7] 1) boot))
  /\ exists rest,
       fst (rsu_on_new_message false (mk_linkaddr 0 1) [7; 42]
              (set_history (History.mk_history [History.mk_elem 1 7] 1) boot))
       = EvUnicastSend rsu_ack_channel (mk_linkaddr 0 1) [65] :: rest
       /\ filter is_ack rest = [].
Proof.
  assert (Hwf : linkaddr_wf (mk_linkaddr 0 1)).
  { unfold linkaddr_wf, is_uint8. simpl. lia. }
  split; [exact Hwf|]. split; [reflexivity|].
  apply (every_data_frame_is_acknowledged false (mk_linkaddr 0 1) [7; 42]
           (set_history (History.mk_history [History.mk_elem 1 7] 1) boot)
           Hwf).
Defined.

(** On a root no entry point of the transport writes the history. *)
Lemma root_never_writes_history (i : input) (s s' : state) :
  snd (step true i s) = Some s' -> rsu_history s' = rsu_history s.
Proof.
  destruct s as [tm q cb sn onl alw p miq rcb h].
  destruct i; simpl.
  - unfold rsunicast_send. destruct onl, q; simpl;
      intros H; inversion H; reflexivity.
  - unfold ctimer_expires. simpl. destruct tm as [[|]|]; simpl.
    + unfold rsu_send_next_message. simpl.
      destruct (p =? 0); simpl; [intros H; inversion H; reflexivity|].
      destruct q; simpl; intros H; inversion H; reflexivity.
    + unfold rsu_on_ack_timeout. simpl.
      destruct q as [|hd next]; simpl; [discriminate|].
      destruct (tries hd >? MAX_TRIES); simpl.
      * destruct next; simpl; [destruct alw; simpl|];
          intros H; inversion H; reflexivity.
      * intros H; inversion H; reflexivity.
    + intros H; inversion H; reflexivity.
  - unfold rsu_on_recieve_ack. simpl.
    destruct q as [|hd next]; simpl; [intros H; inversion H; reflexivity|].
    destruct next; simpl; [destruct alw; simpl|];
      intros H; inversion H; reflexivity.
  - unfold rsu_on_new_message. simpl.
    destruct packet as [|sq payload];
      (destruct rcb; simpl; [|intros H; inversion H; reflexivity]);
      [discriminate|].
    destruct (History.rsu_check_history _ _ _); simpl;
      intros H; inversion H; reflexivity.
  - unfold rsunicast_allowSleeping. simpl.
    destruct q; simpl; intros H; inversion H; reflexivity.
  - unfold rsunicast_disallowSleeping. simpl.
    destruct onl; simpl; intros H; inversion H; reflexivity.
  - intros H; inversion H; reflexivity.
Qed.

(** A root with a callback and an empty history hands every frame to the
    callback, and its history is empty afterwards. *)
Lemma root_delivers_every_frame (from : linkaddr_t) (seqno : Z)
    (payload : list Z) (s : state) :
  rsu_on_new_message_for_root_cb s = true ->
  rsu_history s = History.empty ->
  rsu_on_new_message true from (seqno :: payload) s
  = ([EvUnicastSend rsu_ack_channel (encode_id (decode_id from)) [ACK];
      EvNewMessageForRootCB payload], Some s).
Proof.
  intros Hcb Hh. unfold rsu_on_new_message. cbn [bind emit].
  rewrite Hcb, Hh. reflexivity.
Qed.

(** C1 (the code departs from the specification).  The specification: on
    a root no pair (source, sequence number) is handed to the new-message
    callback twice.
    The root's branch of [rsu_on_new_message] asks [rsu_check_history] but
    never calls [rsu_add_history] (only the branch of the other nodes
    does), so the history of a root stays empty and every frame is
    delivered: the same frame from node 1 with sequence number 7, received
    twice, reaches the callback twice. *)
Theorem root_delivers_a_duplicate_twice :
  let s := rsunicast_setNewMessageCallback_root true boot in
  let frame := InData (mk_linkaddr 0 1) [7; 42] in
  exists s',
    steps true [frame; frame] s
    = ([EvUnicastSend rsu_ack_channel (mk_linkaddr 0 1) [65];
        EvNewMessageForRootCB [42];
        EvUnicastSend rsu_ack_channel (mk_linkaddr 0 1) [65];
        EvNewMessageForRootCB [42]], Some s')
    /\ rsu_history s' = History.empty.
Proof.
  eexists. split; [vm_compute; reflexivity|reflexivity].
Qed.

End TransportFacts.

(** ** The neighbourhood *)

Section NeighbourhoodFacts.

Import PVN.

Lemma getNbr_app (l1 l2 : list Nbr) (i : Z) :
  pvn_getNbr (l1 ++ l2) i =
  match pvn_getNbr l1 i with
  | Some n => Some n
  | None => pvn_getNbr l2 i
  end.
Proof.
  induction l1 as [|n l1 IH]; simpl; [reflexivity|].
  destruct (id n =? i); [reflexivity|exact IH].
Qed.

Lemma getNbr_id (l : list Nbr) (i : Z) (n : Nbr) :
  pvn_getNbr l i = Some n -> id n = i /\ In n l.
Proof.
  induction l as [|m l IH]; simpl; [discriminate|].
  destruct (id m =? i) eqn:E.
  - intros H. inversion H; subst. apply Z.eqb_eq in E. auto.
  - intros H. destruct (IH H). auto.
Qed.

Lemma getNbr_none (l : list Nbr) (i : Z) :
  pvn_getNbr l i = None <-> ~ In i (ids l).
Proof.
  induction l as [|m l IH]; simpl.
  - split; auto.
  - destruct (id m =? i) eqn:E.
    + apply Z.eqb_eq in E. split; [discriminate|]. intros H. exfalso. auto.
    + apply Z.eqb_neq in E. rewrite IH. tauto.
Qed.

(** What [refresh] leaves of an entry. *)
Lemma refresh_entry (p : PVN) (n : Nbr) (data : list Z) (now : Z) :
  fst (fst (refresh p n data now))
  = mk_nbr (id n) (addr n) (Some (copy_of p data)) now.
Proof.
  unfold refresh. destruct (public_var n); [reflexivity|].
  destruct (onNew (callbacks p)); reflexivity.
Qed.

(** The identifier is in the list: its first entry is refreshed in place. *)
Lemma find_or_create_found (p : PVN) (i : Z) (from : linkaddr_t)
    (data : list Z) (now : Z) (l : list Nbr) (n : Nbr) :
  pvn_getNbr l i = Some n ->
  exists l1 l2,
    l = l1 ++ n :: l2 /\ pvn_getNbr l1 i = None
    /\ find_or_create p i from data now l
       = (l1 ++ fst (fst (refresh p n data now)) :: l2,
          snd (fst (refresh p n data now)), snd (refresh p n data now)).
Proof.
  induction l as [|m l IH]; simpl; [discriminate|].
  destruct (id m =? i) eqn:E.
  - intros H. inversion H; subst. exists [], l. simpl.
    destruct (refresh p n data now) as [[n' evs] inc]. auto.
  - intros H. destruct (IH H) as (l1 & l2 & Hl & Hnone & Hfc).
    exists (m :: l1), l2. simpl. rewrite E.
    split; [congruence|]. split; [assumption|].
    destruct l as [|m' l']; [destruct l1; discriminate|].
    rewrite Hfc. reflexivity.
Qed.

(** The identifier is not in the (non-empty) list: a zeroed entry is linked
    behind the last one and refreshed; the address of the sender lands in
    the entry that was the last. *)
Lemma find_or_create_missing (p : PVN) (i : Z) (from : linkaddr_t)
    (data : list Z) (now : Z) (l : list Nbr) :
  l <> [] ->
  pvn_getNbr l i = None ->
  exists l1 last,
    l = l1 ++ [last]
    /\ find_or_create p i from data now l
       = (l1 ++ [mk_nbr (id last) from (public_var last) (timestamp last);
                 fst (fst (refresh p (mk_nbr i null_addr None 0) data now))],
          snd (fst (refresh p (mk_nbr i null_addr None 0) data now)),
          snd (refresh p (mk_nbr i null_addr None 0) data now)).
Proof.
  induction l as [|m l IH]; [congruence|]. intros _. simpl.
  destruct (id m =? i) eqn:E; [discriminate|]. intros H.
  destruct l as [|m' l'].
  - exists [], m. simpl.
    destruct (refresh p (mk_nbr i null_addr None 0) data now) as [[c evs] inc].
    auto.
  - destruct (IH ltac:(discriminate) H) as (l1 & last & Hl & Hfc).
    exists (m :: l1), last. rewrite Hl at 1. split; [reflexivity|].
    rewrite Hfc. reflexivity.
Qed.

Lemma frame_settings (p : PVN) (from : linkaddr_t) (data : list Z) (now : Z) :
  same_settings p (fst (on_new_neighbor_information_at p from data now)).
Proof.
  unfold on_new_neighbor_information_at.
  destruct (find_or_create p (decode_id from) from data now _) as [[l evs] inc].
  unfold same_settings. simpl. auto.
Qed.

Lemma sweep_settings (p : PVN) (now : Z) :
  same_settings p (fst (pvn_remove_old_neighbor_information p now)).
Proof.
  unfold pvn_remove_old_neighbor_information.
  destruct (remove_at_front _ _ _ _) as [[l1 evs1] sz1].
  destruct l1 as [|nbr behind]; [unfold same_settings; simpl; auto|].
  destruct (remove_behind _ _ _ _ _) as [[l2 evs2] sz2].
  unfold same_settings. simpl. auto.
Qed.

(** The first frame of a neighbour that has no entry: the entry is made,
    it holds the image of the frame, and the new-neighbour callback is the
    one event. *)
Lemma frame_of_unknown (p : PVN) (from : linkaddr_t) (data : list Z)
    (now : Z) :
  pvn_getNbr (nbrList p) (decode_id from) = None ->
  onNew (callbacks p) = true ->
  (exists a,
     snd (on_new_neighbor_information_at p from data now)
     = [EvOnNew (mk_nbr (decode_id from) a (Some (copy_of p data)) now)])
  /\ holds (fst (on_new_neighbor_information_at p from data now))
       (decode_id from) (copy_of p data).
Proof.
  intros Hnone Hnew. unfold on_new_neighbor_information_at.
  set (i := decode_id from) in *.
  destruct (nbrList p) as [|m l] eqn:Hl.
  - simpl. rewrite Z.eqb_refl. unfold refresh. simpl. rewrite Hnew. simpl.
    split; [eexists; reflexivity|].
    eexists. simpl. rewrite Z.eqb_refl. split; reflexivity.
  - destruct (find_or_create_missing p i from data now (m :: l)
                ltac:(discriminate) Hnone) as (l1 & last & Hsplit & Hfc).
    rewrite Hfc. unfold refresh. simpl. rewrite Hnew. simpl.
    split; [eexists; reflexivity|].
    rewrite Hsplit, getNbr_app in Hnone.
    destruct (pvn_getNbr l1 i) eqn:H1; [discriminate|].
    simpl in Hnone.
    exists (mk_nbr i null_addr (Some (copy_of p data)) now).
    split; [|reflexivity].
    simpl. rewrite getNbr_app, H1. simpl.
    destruct (id last =? i); [discriminate|].
    rewrite Z.eqb_refl. reflexivity.
Qed.

(** A frame that brings the image the neighbourhood already holds for its
    sender: no callback at all, and the image stays. *)
Lemma frame_of_same_image (p : PVN) (from : linkaddr_t) (data : list Z)
    (now : Z) :
  cmp_ok p ->
  holds p (decode_id from) (copy_of p data) ->
  snd (on_new_neighbor_information_at p from data now) = []
  /\ holds (fst (on_new_neighbor_information_at p from data now))
       (decode_id from) (copy_of p data).
Proof.
  intros Hcmp (n & Hget & Hvar). unfold on_new_neighbor_information_at.
  set (i := decode_id from) in *.
  destruct (nbrList p) as [|m l] eqn:Hl; [discriminate|].
  destruct (find_or_create_found p i from data now (m :: l) n Hget)
    as (l1 & l2 & Hsplit & Hnone & Hfc).
  rewrite Hfc.
  assert (Hev : snd (fst (refresh p n data now)) = []).
  { unfold refresh. rewrite Hvar. simpl. unfold has_changed.
    destruct (cmp p) as [f|] eqn:Hf.
    - rewrite (Hcmp f _ Hf). reflexivity.
    - destruct (list_eq_dec Z.eq_dec (copy_of p data) (copy_of p data));
        [reflexivity|congruence]. }
  assert (Hinc : snd (refresh p n data now) = false).
  { unfold refresh. rewrite Hvar. reflexivity. }
  rewrite Hev, Hinc, refresh_entry. simpl. split; [reflexivity|].
  exists (mk_nbr (id n) (addr n) (Some (copy_of p data)) now).
  split; [|reflexivity]. simpl. rewrite getNbr_app, Hnone. simpl.
  destruct (getNbr_id _ _ _ Hget) as [Hid _]. rewrite Hid.
  rewrite Z.eqb_refl. reflexivity.
Qed.

Lemma same_settings_copy (p p' : PVN) (data : list Z) :
  same_settings p p' -> copy_of p' data = copy_of p data.
Proof. intros (Hsz & _). unfold copy_of. rewrite Hsz. reflexivity. Qed.

Lemma same_settings_cmp_ok (p p' : PVN) :
  same_settings p p' -> cmp_ok p -> cmp_ok p'.
Proof.
  intros (_ & _ & Hc & _) Hok f v Hf. apply Hok. rewrite <- Hc. exact Hf.
Qed.

(** Further frames with the image already held fire nothing. *)
Lemma repeated_frames_are_silent (from : linkaddr_t) (data : list Z)
    (nows : list Z) :
  forall p, cmp_ok p -> holds p (decode_id from) (copy_of p data) ->
  snd (steps (map (InFrame from data) nows) p) = [].
Proof.
  induction nows as [|now nows IH]; intros p Hcmp Hholds; [reflexivity|].
  cbn [map steps step].
  pose proof (frame_of_same_image p from data now Hcmp Hholds) as [Hev Hh].
  pose proof (frame_settings p from data now) as Hset.
  destruct (on_new_neighbor_information_at p from data now) as [p' evs].
  simpl in Hev, Hh, Hset. subst evs.
  specialize (IH p' (same_settings_cmp_ok p p' Hset Hcmp)).
  rewrite (same_settings_copy p p' data Hset) in IH. specialize (IH Hh).
  destruct (steps (map (InFrame from data) nows) p') as [p'' evs'].
  simpl in *. exact IH.
Qed.

(** C7, as the code has it.  A neighbourhood has a new-neighbour callback,
    its comparison (the default [memcmp], or a function that answers "no
    change" on equal images) is in use, and it has no entry for a sender.
    Frames with one and the same payload of at least [size_of_variable]
    bytes then arrive from that sender, at the times [now], [later].  The
    callbacks fired by all of them together are exactly one: the
    new-neighbour callback, fired by the first frame; the change callback,
    registered or not, is fired by none. *)
Theorem identical_broadcasts_fire_on_new_once (p : PVN) (from : linkaddr_t)
    (data : list Z) (now : Z) (later : list Z) :
  size_of_variable p <= Z.of_nat (length data) ->
  onNew (callbacks p) = true ->
  cmp_ok p ->
  pvn_getNbr (nbrList p) (decode_id from) = None ->
  exists n,
    snd (on_new_neighbor_information_at p from data now) = [EvOnNew n]
    /\ snd (steps (map (InFrame from data) (now :: later)) p) = [EvOnNew n]
    /\ id n = decode_id from
    /\ public_var n = Some (firstn (Z.to_nat (size_of_variable p)) data).
Proof.
  intros _ Hnew Hcmp Hnone. fold (copy_of p data).
  destruct (frame_of_unknown p from data now Hnone Hnew) as [[a Hev] Hh].
  pose proof (frame_settings p from data now) as Hset.
  exists (mk_nbr (decode_id from) a (Some (copy_of p data)) now).
  split; [exact Hev|]. split; [|split; reflexivity].
  cbn [map steps step].
  destruct (on_new_neighbor_information_at p from data now) as [p' evs].
  simpl in Hev, Hh, Hset. subst evs.
  pose proof (repeated_frames_are_silent from data later p'
                (same_settings_cmp_ok p p' Hset Hcmp)) as Hrest.
  rewrite (same_settings_copy p p' data Hset) in Hrest.
  specialize (Hrest Hh).
  destruct (steps (map (InFrame from data) later) p') as [p'' evs'].
  simpl in *. subst evs'. reflexivity.
Qed.

(** C7 on a fresh neighbourhood with the default comparison: three frames
    from node 2 with the payload 1, 2, 3, 4. *)
Lemma identical_broadcasts_witness :
  exists n,
    snd (on_new_neighbor_information_at
           (pvn_setCallbacks (mk_callbacks true true true)
              (fst (pvn_init 154 4 15)))
           (mk_linkaddr 0 2) [1; 2; 3; 4] 10) = [EvOnNew n]
    /\ snd (steps (map (InFrame (mk_linkaddr 0 2) [1; 2; 3; 4]) [10; 11; 12])
              (pvn_setCallbacks (mk_callbacks true true true)
                 (fst (pvn_init 154 4 15)))) = [EvOnNew n]
    /\ id n = decode_id (mk_linkaddr 0 2)
    /\ public_var n
       = Some (firstn
                 (Z.to_nat
                    (size_of_variable
                       (pvn_setCallbacks (mk_callbacks true true true)
                          (fst (pvn_init 154 4 15))))) [1; 2; 3; 4]).
Proof.
  apply (identical_broadcasts_fire_on_new_once
           (pvn_setCallbacks (mk_callbacks true true true)
              (fst (pvn_init 154 4 15)))
           (mk_linkaddr 0 2) [1; 2; 3; 4] 10 [11; 12]).
  - cbn. lia.
  - reflexivity.
  - intros f v Hf. simpl in Hf. discriminate Hf.
  - reflexivity.
Defined.

(** C7 does not hold of every neighbourhood with both callbacks.  First,
    the comparison is the application's: a fresh neighbourhood for
    variables of four bytes with a comparison function that answers 1
    whatever it is given receives the payload 1, 2, 3, 4 from node 2 at
    the seconds 10, 11 and 12; the new-neighbour callback is fired once,
    by the first frame, and the change callback by each of the two
    repetitions.  Second, the sender may have an entry: with the default
    [memcmp], after a frame 9, 9, 9, 9 from node 2 the payload
    1, 2, 3, 4 arrives twice from node 2; the new-neighbour callback is
    fired by neither frame and the change callback by the first. *)
Lemma identical_broadcasts_fire_on_change :
  (onNew (callbacks
            (pvn_set_comparison_function (Some (fun _ _ => 1))
               (pvn_setCallbacks (mk_callbacks true true true)
                  (fst (pvn_init 154 4 15))))) = true
   /\ onChange (callbacks
                  (pvn_set_comparison_function (Some (fun _ _ => 1))
                     (pvn_setCallbacks (mk_callbacks true true true)
                        (fst (pvn_init 154 4 15))))) = true
   /\ pvn_getNbr
        (nbrList
           (pvn_set_comparison_function (Some (fun _ _ => 1))
              (pvn_setCallbacks (mk_callbacks true true true)
                 (fst (pvn_init 154 4 15)))))
        (decode_id (mk_linkaddr 0 2)) = None
   /\ snd (steps (map (InFrame (mk_linkaddr 0 2) [1; 2; 3; 4]) [10; 11; 12])
             (pvn_set_comparison_function (Some (fun _ _ => 1))
                (pvn_setCallbacks (mk_callbacks true true true)
                   (fst (pvn_init 154 4 15)))))
      = [EvOnNew (mk_nbr 2 (mk_linkaddr 0 2) (Some [1; 2; 3; 4]) 10);
         EvOnChange (mk_nbr 2 (mk_linkaddr 0 2) (Some [1; 2; 3; 4]) 11);
         EvOnChange (mk_nbr 2 (mk_linkaddr 0 2) (Some [1; 2; 3; 4]) 12)])
  /\ (onNew (callbacks
               (fst (on_new_neighbor_information_at
                       (pvn_setCallbacks (mk_callbacks true true true)
                          (fst (pvn_init 154 4 15)))
                       (mk_linkaddr 0 2) [9; 9; 9; 9] 5))) = true
      /\ onChange (callbacks
                     (fst (on_new_neighbor_information_at
                             (pvn_setCallbacks (mk_callbacks true true true)
                                (fst (pvn_init 154 4 15)))
                             (mk_linkaddr 0 2) [9; 9; 9; 9] 5))) = true
      /\ cmp (fst (on_new_neighbor_information_at
                     (pvn_setCallbacks (mk_callbacks true true true)
                        (fst (pvn_init 154 4 15)))
                     (mk_linkaddr 0 2) [9; 9; 9; 9] 5)) = None
      /\ snd (steps (map (InFrame (mk_linkaddr 0 2) [1; 2; 3; 4]) [10; 11])
                (fst (on_new_neighbor_information_at
                        (pvn_setCallbacks (mk_callbacks true true true)
                           (fst (pvn_init 154 4 15)))
                        (mk_linkaddr 0 2) [9; 9; 9; 9] 5)))
         = [EvOnChange (mk_nbr 2 (mk_linkaddr 0 2) (Some [9; 9; 9; 9]) 10)]).
Proof.
  split.
  - split; [reflexivity|]. split; [reflexivity|]. split; reflexivity.
  - split; [reflexivity|]. split; [reflexivity|]. split; reflexivity.
Qed.

(** *** Counting the entries *)

Lemma uint16_succ (n : nat) :
  uint16 (uint16 (Z.of_nat n) + 1) = uint16 (Z.of_nat (S n)).
Proof.
  unfold uint16. rewrite Zplus_mod_idemp_l. f_equal. lia.
Qed.

Lemma uint16_pred (n : nat) :
  uint16 (uint16 (Z.of_nat (S n)) - 1) = uint16 (Z.of_nat n).
Proof.
  unfold uint16. rewrite Zminus_mod_idemp_l. f_equal. lia.
Qed.

(** The first loop of the sweep unlinks a prefix of outdated entries, with
    one notification and one decrement each when [onDelete] is set. *)
Lemma remove_at_front_spec (cbs : PVN_callbacks) (oldest : Z) (l : list Nbr) :
  forall sz,
  exists prefix,
    l = prefix ++ fst (fst (remove_at_front cbs oldest l sz))
    /\ Forall (fun n => timestamp n < oldest) prefix
    /\ snd (fst (remove_at_front cbs oldest l sz))
       = (if onDelete cbs then map EvOnDelete prefix else [])
    /\ (onDelete cbs = true -> sz = uint16 (Z.of_nat (length l)) ->
        snd (remove_at_front cbs oldest l sz)
        = uint16 (Z.of_nat
                    (length (fst (fst (remove_at_front cbs oldest l sz))))))
    /\ (onDelete cbs = false -> snd (remove_at_front cbs oldest l sz) = sz).
Proof.
  induction l as [|n l IH]; intros sz.
  - exists []. simpl. repeat split; auto. destruct (onDelete cbs); reflexivity.
  - cbn [remove_at_front]. destruct (timestamp n <? oldest) eqn:E.
    + apply Z.ltb_lt in E. unfold notify_delete.
      destruct (onDelete cbs) eqn:Hd.
      * destruct (IH (uint16 (sz - 1))) as (prefix & Hl & Hall & Hev & Hc & _).
        destruct (remove_at_front cbs oldest l (uint16 (sz - 1)))
          as [[l' evs] sz'].
        simpl in *. exists (n :: prefix). simpl.
        split; [congruence|]. split; [constructor; assumption|].
        split; [congruence|]. split; [|discriminate].
        intros _ Hsz. apply Hc; [reflexivity|].
        rewrite Hsz. apply uint16_pred.
      * destruct (IH sz) as (prefix & Hl & Hall & Hev & _ & Hc).
        destruct (remove_at_front cbs oldest l sz) as [[l' evs] sz'].
        simpl in *. exists (n :: prefix). simpl.
        split; [congruence|]. split; [constructor; assumption|].
        split; [assumption|]. split; [discriminate|]. auto.
    + exists []. simpl. repeat split; auto.
      destruct (onDelete cbs); reflexivity.
Qed.

(** The second loop keeps the cursor and a selection of the entries behind
    it, in their order; [c] counts the entries in front of the cursor. *)
Lemma remove_behind_spec (cbs : PVN_callbacks) (oldest : Z) (k : nat) :
  forall (nbr : Nbr) (behind : list Nbr) (sz : Z),
  (length behind <= k)%nat ->
  (exists rest,
     fst (fst (remove_behind cbs oldest nbr behind sz)) = nbr :: rest
     /\ incl rest behind)
  /\ (NoDup (ids (nbr :: behind)) ->
      NoDup (ids (fst (fst (remove_behind cbs oldest nbr behind sz)))))
  /\ (onDelete cbs = true -> forall c : nat,
      sz = uint16 (Z.of_nat (c + length (nbr :: behind))) ->
      snd (remove_behind cbs oldest nbr behind sz)
      = uint16 (Z.of_nat
           (c + length (fst (fst (remove_behind cbs oldest nbr behind sz))))))
  /\ (onDelete cbs = false ->
      snd (remove_behind cbs oldest nbr behind sz) = sz)
  /\ (forall e, In e (snd (fst (remove_behind cbs oldest nbr behind sz))) ->
      exists n, e = EvOnDelete n /\ In n behind /\ timestamp n < oldest).
Proof.
  induction k as [|k IH]; intros nbr behind sz Hlen.
  - destruct behind; [|simpl in Hlen; lia]. simpl.
    split; [exists []; split; [reflexivity|apply incl_refl]|].
    split; [auto|]. split; [auto|]. split; [auto|]. intros e [].
  - destruct behind as [|nx behind'].
    + simpl.
      split; [exists []; split; [reflexivity|apply incl_refl]|].
      split; [auto|]. split; [auto|]. split; [auto|]. intros e [].
    + simpl in Hlen. cbn [remove_behind].
      destruct (timestamp nx <? oldest) eqn:E.
      * apply Z.ltb_lt in E.
        assert (Hnote : forall e,
                  In e (fst (notify_delete cbs nx sz)) ->
                  exists n, e = EvOnDelete n /\ In n (nx :: behind')
                            /\ timestamp n < oldest).
        { unfold notify_delete. destruct (onDelete cbs); simpl.
          - intros e [<-|[]]. exists nx. simpl. auto.
          - intros e []. }
        assert (Hcnt : onDelete cbs = true -> forall c : nat,
                  sz = uint16 (Z.of_nat (c + length (nbr :: nx :: behind'))) ->
                  snd (notify_delete cbs nx sz)
                  = uint16 (Z.of_nat (c + length (nbr :: behind')))).
        { unfold notify_delete. intros Hd c Hsz. rewrite Hd. cbn [snd].
          rewrite Hsz.
          replace (c + length (nbr :: nx :: behind'))%nat
            with (S (c + length (nbr :: behind'))) by (simpl; lia).
          apply uint16_pred. }
        assert (Hsame : onDelete cbs = false ->
                  snd (notify_delete cbs nx sz) = sz).
        { unfold notify_delete. intros ->. reflexivity. }
        destruct (notify_delete cbs nx sz) as [ev sz1].
        simpl in Hnote, Hcnt, Hsame.
        destruct behind' as [|c0 behind''].
        { simpl.
          split; [exists []; split; [reflexivity|intros x []]|].
          split; [intros Hnd; inversion Hnd; subst;
                  constructor; [intros []|constructor]|].
          split; [exact Hcnt|]. split; [exact Hsame|]. exact Hnote. }
        { simpl in Hlen.
          destruct (IH c0 behind'' sz1 ltac:(lia))
            as ((rest & Hrest & Hincl) & Hnd1 & Hc1 & Hs1 & He1).
          destruct (remove_behind cbs oldest c0 behind'' sz1)
            as [[l evs] sz2].
          simpl in Hrest, Hnd1, Hc1, Hs1, He1. subst l. simpl.
          split.
          { exists (c0 :: rest). split; [reflexivity|].
            intros x [<-|Hx]; [simpl; auto|].
            right. right. apply Hincl. exact Hx. }
          split.
          { intros Hnd. inversion Hnd as [|? ? Hn1 Hnd']; subst.
            inversion Hnd' as [|? ? Hn2 Hnd'']; subst.
            specialize (Hnd1 Hnd''). constructor; [|exact Hnd1].
            intros Hin. apply Hn1. simpl. right.
            destruct Hin as [Hin|Hin]; [left; exact Hin|].
            right. exact (incl_map id Hincl _ Hin). }
          split.
          { intros Hd c Hsz. specialize (Hc1 Hd (S c)).
            specialize (Hcnt Hd c Hsz).
            replace (c + S (S (length rest)))%nat
              with (S c + length (c0 :: rest))%nat by (simpl; lia).
            apply Hc1. rewrite Hcnt. f_equal. simpl. lia. }
          split.
          { intros Hd. rewrite (Hs1 Hd). apply Hsame. exact Hd. }
          intros e He. apply in_app_or in He. destruct He as [He|He].
          - apply Hnote. exact He.
          - destruct (He1 e He) as (n & -> & Hn & Ht).
            exists n. split; [reflexivity|]. split; [|exact Ht].
            simpl. right. right. exact Hn. }
      * destruct (IH nx behind' sz ltac:(lia))
          as ((rest & Hrest & Hincl) & Hnd1 & Hc1 & Hs1 & He1).
        destruct (remove_behind cbs oldest nx behind' sz) as [[l evs] sz2].
        simpl in Hrest, Hnd1, Hc1, Hs1, He1. subst l. simpl.
        split.
        { exists (nx :: rest). split; [reflexivity|].
          intros x [<-|Hx]; [simpl; auto|]. right. apply Hincl. exact Hx. }
        split.
        { intros Hnd. inversion Hnd as [|? ? Hn1 Hnd']; subst.
          specialize (Hnd1 Hnd'). constructor; [|exact Hnd1].
          intros Hin. apply Hn1. simpl.
          destruct Hin as [Hin|Hin]; [left; exact Hin|].
          right. exact (incl_map id Hincl _ Hin). }
        split.
        { intros Hd c Hsz. specialize (Hc1 Hd (S c)).
          replace (c + S (S (length rest)))%nat
            with (S c + length (nx :: rest))%nat by (simpl; lia).
          apply Hc1. rewrite Hsz. f_equal. simpl. lia. }
        split; [exact Hs1|].
        intros e He. destruct (He1 e He) as (n & -> & Hn & Ht).
        exists n. split; [reflexivity|]. split; [|exact Ht].
        simpl. right. exact Hn.
Qed.

(** The sweep keeps a selection of the entries, in their order; with
    [onDelete] set the counter follows the list, without it the counter is
    left alone; only outdated entries are notified. *)
Lemma sweep_keeps (p : PVN) (now : Z) :
  incl (nbrList (fst (pvn_remove_old_neighbor_information p now))) (nbrList p)
  /\ (NoDup (ids (nbrList p)) ->
      NoDup (ids (nbrList (fst (pvn_remove_old_neighbor_information p now)))))
  /\ (onDelete (callbacks p) = true -> counts_entries p ->
      counts_entries (fst (pvn_remove_old_neighbor_information p now)))
  /\ (onDelete (callbacks p) = false ->
      neighborhood_size (fst (pvn_remove_old_neighbor_information p now))
      = neighborhood_size p)
  /\ (forall e, In e (snd (pvn_remove_old_neighbor_information p now)) ->
      exists n, e = EvOnDelete n /\ In n (nbrList p)
                /\ timestamp n <
                   oldest_timestamp_allowed now
                     (maximum_age_of_neighbor_information p)).
Proof.
  unfold pvn_remove_old_neighbor_information, counts_entries.
  set (oldest := oldest_timestamp_allowed now
                   (maximum_age_of_neighbor_information p)).
  destruct (remove_at_front_spec (callbacks p) oldest (nbrList p)
              (neighborhood_size p)) as (prefix & Hl & Hold & Hev & Hc & Hs).
  destruct (remove_at_front (callbacks p) oldest (nbrList p)
              (neighborhood_size p)) as [[l1 evs1] sz1].
  simpl in Hl, Hev, Hc, Hs.
  assert (Hev1 : forall e, In e evs1 ->
            exists n, e = EvOnDelete n /\ In n (nbrList p)
                      /\ timestamp n < oldest).
  { intros e He. rewrite Hev in He.
    destruct (onDelete (callbacks p)); [|destruct He].
    apply in_map_iff in He. destruct He as (n & <- & Hn).
    exists n. split; [reflexivity|]. split.
    - rewrite Hl. apply in_or_app. left. exact Hn.
    - rewrite Forall_forall in Hold. apply Hold. exact Hn. }
  destruct l1 as [|nbr behind].
  - simpl. split; [intros x []|]. split; [constructor|].
    split; [intros Hd Hsz; apply (Hc Hd Hsz)|]. split; [exact Hs|exact Hev1].
  - destruct (remove_behind_spec (callbacks p) oldest (length behind) nbr
                behind sz1 (le_n _))
      as ((rest & Hrest & Hincl) & Hnd & Hc2 & Hs2 & He2).
    destruct (remove_behind (callbacks p) oldest nbr behind sz1)
      as [[l2 evs2] sz2].
    simpl in Hrest, Hnd, Hc2, Hs2, He2. subst l2. simpl.
    split.
    { rewrite Hl. intros x [<-|Hx]; apply in_or_app; right; simpl; auto. }
    split.
    { intros Hnd0. apply Hnd. rewrite Hl in Hnd0. unfold ids in *.
      rewrite map_app in Hnd0. apply NoDup_app_remove_l in Hnd0. exact Hnd0. }
    split.
    { intros Hd Hsz. apply (Hc2 Hd 0%nat). apply (Hc Hd Hsz). }
    split.
    { intros Hd. rewrite (Hs2 Hd). apply Hs. exact Hd. }
    intros e He. apply in_app_or in He. destruct He as [He|He].
    + apply Hev1. exact He.
    + destruct (He2 e He) as (n & -> & Hn & Ht).
      exists n. split; [reflexivity|]. split; [|exact Ht].
      rewrite Hl. apply in_or_app. right. simpl. auto.
Qed.

Lemma decode_id_range (from : linkaddr_t) : is_uint16 (decode_id from).
Proof. unfold decode_id, uint16, is_uint16. apply Z.mod_pos_bound. lia. Qed.

(** Without a new-neighbour callback no frame moves the counter. *)
Lemma find_or_create_no_callback (p : PVN) (i : Z) (from : linkaddr_t)
    (data : list Z) (now : Z) (l : list Nbr) :
  onNew (callbacks p) = false ->
  snd (find_or_create p i from data now l) = false.
Proof.
  intros Hnew.
  assert (Hr : forall n, snd (refresh p n data now) = false).
  { intros n. unfold refresh. rewrite Hnew.
    destruct (public_var n); reflexivity. }
  induction l as [|m l IH]; [reflexivity|]. simpl.
  destruct (id m =? i).
  - specialize (Hr m). destruct (refresh p m data now) as [[n' evs] inc].
    exact Hr.
  - destruct l as [|m' l'].
    + specialize (Hr (mk_nbr i null_addr None 0)).
      destruct (refresh p _ data now) as [[n' evs] inc]. exact Hr.
    + destruct (find_or_create p i from data now (m' :: l')) as [[l1 evs] inc].
      exact IH.
Qed.

(** With a new-neighbour callback a frame keeps the list well formed and
    the counter equal to its length. *)
Lemma frame_keeps (p : PVN) (from : linkaddr_t) (data : list Z) (now : Z) :
  onNew (callbacks p) = true ->
  nbrs_ok (nbrList p) ->
  counts_entries p ->
  nbrs_ok (nbrList (fst (on_new_neighbor_information_at p from data now)))
  /\ counts_entries (fst (on_new_neighbor_information_at p from data now))
  /\ incl (ids (nbrList (fst (on_new_neighbor_information_at p from data now))))
          (decode_id from :: ids (nbrList p)).
Proof.
  intros Hnew (Hnd & Hrange & Hpop) Hcount.
  unfold on_new_neighbor_information_at, counts_entries in *.
  set (i := decode_id from).
  assert (Hi : is_uint16 i) by apply decode_id_range.
  destruct (pvn_getNbr (nbrList p) i) as [n|] eqn:Hget.
  - destruct (nbrList p) as [|m l] eqn:Hl; [discriminate|].
    destruct (find_or_create_found p i from data now (m :: l) n Hget)
      as (l1 & l2 & Hsplit & Hnone & Hfc).
    rewrite Hfc, refresh_entry.
    assert (Hin : In n (m :: l)) by (apply (getNbr_id _ _ _ Hget)).
    assert (Hvar : public_var n <> None).
    { unfold populated in Hpop. rewrite Forall_forall in Hpop. auto. }
    assert (Hinc : snd (refresh p n data now) = false).
    { unfold refresh. destruct (public_var n); [reflexivity|congruence]. }
    rewrite Hinc. simpl fst. cbn [nbrList neighborhood_size set_nbrs].
    assert (Hids : ids (l1 ++ mk_nbr (id n) (addr n) (Some (copy_of p data)) now
                          :: l2) = ids (m :: l)).
    { rewrite Hsplit. unfold ids. rewrite !map_app. reflexivity. }
    split; [split; [|split]|split].
    + rewrite Hids. exact Hnd.
    + rewrite Hids. exact Hrange.
    + unfold populated in *. rewrite Hsplit in Hpop.
      apply Forall_app in Hpop. destruct Hpop as [H1 H2].
      apply Forall_app. split; [exact H1|].
      inversion H2; subst. constructor; [discriminate|assumption].
    + rewrite Hcount. f_equal. f_equal.
      rewrite Hsplit, !length_app. reflexivity.
    + rewrite Hids. apply incl_tl, incl_refl.
  - destruct (nbrList p) as [|m l] eqn:Hl.
    + simpl. rewrite Z.eqb_refl. unfold refresh. simpl. rewrite Hnew.
      cbn [fst snd nbrList neighborhood_size set_nbrs].
      split; [split; [|split]|split].
      * simpl. constructor; [intros []|constructor].
      * simpl. constructor; [exact Hi|constructor].
      * constructor; [discriminate|constructor].
      * rewrite Hcount. apply (uint16_succ 0).
      * simpl. intros x [<-|[]]. left. reflexivity.
    + destruct (find_or_create_missing p i from data now (m :: l)
                  ltac:(discriminate) Hget) as (l1 & last & Hsplit & Hfc).
      rewrite Hfc, refresh_entry.
      assert (Hinc : snd (refresh p (mk_nbr i null_addr None 0) data now)
                     = true).
      { unfold refresh. simpl. rewrite Hnew. reflexivity. }
      rewrite Hinc. cbn [fst snd nbrList neighborhood_size set_nbrs id addr].
      assert (Hids : ids (l1 ++ [mk_nbr (id last) from (public_var last)
                                   (timestamp last);
                                 mk_nbr i null_addr (Some (copy_of p data)) now])
                     = ids (m :: l) ++ [i]).
      { rewrite Hsplit. unfold ids. rewrite !map_app. simpl.
        rewrite <- app_assoc. reflexivity. }
      apply getNbr_none in Hget.
      split; [split; [|split]|split].
      * rewrite Hids. apply NoDup_app; [exact Hnd| |].
        { constructor; [intros []|constructor]. }
        { intros x Hx [<-|[]]. exact (Hget Hx). }
      * rewrite Hids. apply Forall_app. split; [exact Hrange|].
        constructor; [exact Hi|constructor].
      * unfold populated in *. rewrite Hsplit in Hpop.
        apply Forall_app in Hpop. destruct Hpop as [H1 H2].
        apply Forall_app. split; [exact H1|].
        inversion H2; subst.
        constructor; [assumption|constructor; [discriminate|constructor]].
      * rewrite Hcount. rewrite uint16_succ. f_equal. f_equal.
        rewrite Hsplit, !length_app. simpl. lia.
      * rewrite Hids. intros x Hx. apply in_app_or in Hx.
        destruct Hx as [Hx|[<-|[]]]; [right; exact Hx|left; reflexivity].
Qed.

(** Distinct 16-bit identifiers that leave one identifier out are fewer
    than 65536. *)
Lemma fewer_than_all_ids (l : list Z) (own : Z) :
  NoDup l -> Forall is_uint16 l -> is_uint16 own -> ~ In own l ->
  Z.of_nat (length l) < 2 ^ 16.
Proof.
  intros Hnd Hrange Hown Hnotin.
  assert (Hnd' : NoDup (map Z.to_nat (own :: l))).
  { apply (NoDup_map_NoDup_ForallPairs Z.to_nat).
    - intros x y Hx Hy Heq.
      assert (Hall : Forall is_uint16 (own :: l)) by (constructor; assumption).
      rewrite Forall_forall in Hall.
      pose proof (Hall x Hx) as [Hx0 _]. pose proof (Hall y Hy) as [Hy0 _].
      apply Z2Nat.inj; assumption.
    - constructor; assumption. }
  assert (Hincl : incl (map Z.to_nat (own :: l)) (seq 0 (Z.to_nat (2 ^ 16)))).
  { intros x Hx. apply in_map_iff in Hx. destruct Hx as (z & <- & Hz).
    assert (Hall : Forall is_uint16 (own :: l)) by (constructor; assumption).
    rewrite Forall_forall in Hall. destruct (Hall z Hz) as [Hz0 Hz1].
    apply in_seq. change (2 ^ 16) with 65536 in *. lia. }
  pose proof (NoDup_incl_length Hnd' Hincl) as Hlen.
  rewrite length_map, length_seq in Hlen. cbn [length] in Hlen.
  change (2 ^ 16) with 65536 in *. lia.
Qed.

(** The invariant of a neighbourhood with both callbacks, along any frames
    and sweeps. *)
Lemma steps_keep (ins : list input) :
  forall p,
  onNew (callbacks p) = true -> onDelete (callbacks p) = true ->
  nbrs_ok (nbrList p) -> counts_entries p ->
  nbrs_ok (nbrList (fst (steps ins p)))
  /\ counts_entries (fst (steps ins p))
  /\ incl (ids (nbrList (fst (steps ins p)))) (senders ins ++ ids (nbrList p)).
Proof.
  induction ins as [|i ins IH]; intros p Hnew Hdel Hok Hcount.
  - simpl. split; [exact Hok|]. split; [exact Hcount|apply incl_refl].
  - cbn [steps].
    assert (Hstep :
      nbrs_ok (nbrList (fst (step i p))) /\ counts_entries (fst (step i p))
      /\ incl (ids (nbrList (fst (step i p))))
              (senders [i] ++ ids (nbrList p))
      /\ same_settings p (fst (step i p))).
    { destruct i as [from data now|now]; cbn [step senders flat_map].
      - destruct (frame_keeps p from data now Hnew Hok Hcount)
          as (H1 & H2 & H3).
        split; [exact H1|]. split; [exact H2|]. split; [exact H3|].
        apply frame_settings.
      - destruct (sweep_keeps p now) as (Hincl & Hnd & Hc & _ & _).
        destruct Hok as (Hok1 & Hok2 & Hok3).
        split; [split; [|split]|split; [|split]].
        + apply Hnd. exact Hok1.
        + unfold ids. rewrite Forall_forall in *. intros x Hx.
          apply Hok2. exact (incl_map id Hincl _ Hx).
        + unfold populated in *. rewrite Forall_forall in *. intros x Hx.
          apply Hok3. apply Hincl. exact Hx.
        + apply Hc; assumption.
        + simpl. exact (incl_map id Hincl).
        + apply sweep_settings. }
    destruct Hstep as (H1 & H2 & H3 & (_ & _ & _ & Hcb)).
    destruct (step i p) as [p' evs]. simpl in H1, H2, H3, Hcb.
    specialize (IH p'). rewrite Hcb in IH.
    destruct (IH Hnew Hdel H1 H2) as (H4 & H5 & H6).
    destruct (steps ins p') as [p'' evs']. cbn [fst] in *.
    split; [exact H4|]. split; [exact H5|].
    intros x Hx. specialize (H6 x Hx).
    replace (senders (i :: ins)) with (senders [i] ++ senders ins)
      by (unfold senders; simpl; rewrite app_nil_r; reflexivity).
    apply in_app_or in H6. destruct H6 as [H6|H6].
    + apply in_or_app. left. apply in_or_app. right. exact H6.
    + specialize (H3 x H6). apply in_app_or in H3. destruct H3 as [H3|H3].
      * apply in_or_app. left. apply in_or_app. left. exact H3.
      * apply in_or_app. right. exact H3.
Qed.

(** C10.  A neighbourhood starts without entries and with the counter at
    zero.  With both [onNew] and [onDelete] registered, after any frames
    and sweeps [pvn_neighborhood_size] is the length of the neighbour
    list; the frames come from other nodes, that is, some 16-bit
    identifier [own] is the sender of none (otherwise the list could hold
    all 65536 identifiers, one more than the [uint16_t] counter counts).
    With [onNew] null a frame leaves the counter as it is, and with
    [onDelete] null so does a sweep. *)
Theorem neighborhood_size_is_number_of_entries :
  (forall (p : PVN) (own : Z) (ins : list input),
     nbrList p = [] -> neighborhood_size p = 0 ->
     onNew (callbacks p) = true -> onDelete (callbacks p) = true ->
     is_uint16 own -> ~ In own (senders ins) ->
     pvn_neighborhood_size (fst (steps ins p))
     = Z.of_nat (length (nbrList (fst (steps ins p)))))
  /\ (forall (p : PVN) (from : linkaddr_t) (data : list Z) (now : Z),
       onNew (callbacks p) = false ->
       pvn_neighborhood_size
         (fst (on_new_neighbor_information_at p from data now))
       = pvn_neighborhood_size p)
  /\ (forall (p : PVN) (now : Z),
       onDelete (callbacks p) = false ->
       pvn_neighborhood_size (fst (pvn_remove_old_neighbor_information p now))
       = pvn_neighborhood_size p).
Proof.
  split; [|split].
  - intros p own ins Hnil Hzero Hnew Hdel Hown Hnotin.
    assert (Hok : nbrs_ok (nbrList p)).
    { rewrite Hnil. split; [constructor|]. split; constructor. }
    assert (Hcount : counts_entries p).
    { unfold counts_entries. rewrite Hnil, Hzero. reflexivity. }
    destruct (steps_keep ins p Hnew Hdel Hok Hcount)
      as ((Hnd & Hrange & _) & Hc & Hincl).
    unfold pvn_neighborhood_size. rewrite Hc.
    rewrite Hnil in Hincl. simpl in Hincl. rewrite app_nil_r in Hincl.
    assert (Hout : ~ In own (ids (nbrList (fst (steps ins p))))).
    { intros Hin. apply Hnotin. apply Hincl. exact Hin. }
    pose proof (fewer_than_all_ids _ own Hnd Hrange Hown Hout) as Hlt.
    unfold ids in Hlt. rewrite length_map in Hlt.
    apply uint16_small. change (2 ^ 16) with 65536 in Hlt. lia.
  - intros p from data now Hnew. unfold on_new_neighbor_information_at.
    set (l0 := match nbrList p with
               | [] => [mk_nbr (decode_id from) from None 0]
               | n :: l => n :: l
               end).
    pose proof (find_or_create_no_callback p (decode_id from) from data now
                  l0 Hnew) as Hinc.
    destruct (find_or_create p (decode_id from) from data now l0)
      as [[l evs] inc].
    simpl in Hinc. subst inc. reflexivity.
  - intros p now Hdel.
    destruct (sweep_keeps p now) as (_ & _ & _ & Hs & _). exact (Hs Hdel).
Qed.

(** C10 on the neighbourhood of node 1 with three callbacks: frames from
    nodes 2 and 3, and a sweep that removes them; and on neighbourhoods
    without callbacks. *)
Lemma neighborhood_size_witness :
  pvn_neighborhood_size
    (fst (steps [InFrame (mk_linkaddr 0 2) [1; 2; 3; 4] 0;
                 InFrame (mk_linkaddr 0 3) [1; 2; 3; 4] 50;
                 InSweep 60]
            (pvn_setCallbacks (mk_callbacks true true true)
               (fst (pvn_init 154 4 15)))))
  = 1
  /\ pvn_neighborhood_size
       (fst (on_new_neighbor_information_at (fst (pvn_init 154 4 15))
               (mk_linkaddr 0 2) [1; 2; 3; 4] 0)) = 0
  /\ pvn_neighborhood_size
       (fst (pvn_remove_old_neighbor_information
               (set_nbrs [mk_nbr 2 null_addr (Some [1; 2; 3; 4]) 0] 1
                  (fst (pvn_init 154 4 15))) 60)) = 1.
Proof.
  split; [|split].
  - apply (proj1 neighborhood_size_is_number_of_entries
             (pvn_setCallbacks (mk_callbacks true true true)
                (fst (pvn_init 154 4 15))) 1
             [InFrame (mk_linkaddr 0 2) [1; 2; 3; 4] 0;
              InFrame (mk_linkaddr 0 3) [1; 2; 3; 4] 50;
              InSweep 60]).
    + reflexivity.
    + reflexivity.
    + reflexivity.
    + reflexivity.
    + unfold is_uint16. simpl. lia.
    + vm_compute. intros [H|[H|H]]; [discriminate H|discriminate H|exact H].
  - apply (proj1 (proj2 neighborhood_size_is_number_of_entries)
             (fst (pvn_init 154 4 15)) (mk_linkaddr 0 2) [1; 2; 3; 4] 0).
    reflexivity.
  - apply (proj2 (proj2 neighborhood_size_is_number_of_entries)
             (set_nbrs [mk_nbr 2 null_addr (Some [1; 2; 3; 4]) 0] 1
                (fst (pvn_init 154 4 15))) 60).
    reflexivity.
Defined.

(** While the clock has not passed the maximum age nothing is outdated,
    later an entry is outdated exactly when its time stamp lies before
    [oldest_timestamp_allowed]. *)
Lemma outdated_iff (p : PVN) (now : Z) (n : Nbr) :
  0 <= timestamp n <= now ->
  0 <= maximum_age_of_neighbor_information p ->
  (outdated p now n = true <->
   timestamp n <
   oldest_timestamp_allowed now (maximum_age_of_neighbor_information p)).
Proof.
  intros Ht Hm. unfold outdated, oldest_timestamp_allowed.
  rewrite Z.gtb_lt.
  destruct (Z.leb_spec now (maximum_age_of_neighbor_information p)); lia.
Qed.

(** The half of the sweep's contract that the code keeps: whatever the
    sweep notifies (and unlinks) was an entry of the list and is
    outdated. *)
Lemma sweep_removes_only_outdated (p : PVN) (now : Z) (e : event) :
  Forall (fun n => 0 <= timestamp n <= now) (nbrList p) ->
  0 <= maximum_age_of_neighbor_information p ->
  In e (snd (pvn_remove_old_neighbor_information p now)) ->
  exists n, e = EvOnDelete n /\ In n (nbrList p) /\ outdated p now n = true.
Proof.
  intros Hts Hm He.
  destruct (sweep_keeps p now) as (_ & _ & _ & _ & Hev).
  destruct (Hev e He) as (n & -> & Hn & Hold).
  exists n. split; [reflexivity|]. split; [exact Hn|].
  rewrite Forall_forall in Hts. apply outdated_iff; auto.
Qed.

(** The entry behind an unlinked one is kept without a look at its time
    stamp. *)
Lemma remove_behind_skips (cbs : PVN_callbacks) (oldest : Z)
    (nbr nx c : Nbr) (rest : list Nbr) (sz : Z) :
  timestamp nx < oldest ->
  exists rest',
    fst (fst (remove_behind cbs oldest nbr (nx :: c :: rest) sz))
    = nbr :: c :: rest'.
Proof.
  intros Hold. apply Z.ltb_lt in Hold. cbn [remove_behind]. rewrite Hold.
  destruct (notify_delete cbs nx sz) as [ev sz1].
  destruct (remove_behind_spec cbs oldest (length rest) c rest sz1 (le_n _))
    as ((rest' & Hrest & _) & _).
  destruct (remove_behind cbs oldest c rest sz1) as [[l evs] sz2].
  simpl in Hrest. subst l. exists rest'. reflexivity.
Qed.

(** C4 (the code departs from the specification).  The specification: one
    sweep removes all entries whose age exceeds the maximum age, and only
    those.  Node 1 has
    heard nodes 2, 3 and 4 at second 0 and node 2 again at second 100; the
    maximum age is 15.  At second 100 the entries of 3 and 4 are outdated.
    The sweep unlinks the entry of 3, and its loop then steps onto the
    entry of 4 without having examined it: the entry of 4, of age 100,
    stays in the list. *)
Theorem sweep_leaves_an_outdated_entry :
  let p0 := pvn_setCallbacks (mk_callbacks true true true)
              (fst (pvn_init 154 4 15)) in
  let p := fst (steps [InFrame (mk_linkaddr 0 2) [1; 2; 3; 4] 0;
                       InFrame (mk_linkaddr 0 3) [1; 2; 3; 4] 0;
                       InFrame (mk_linkaddr 0 4) [1; 2; 3; 4] 0;
                       InFrame (mk_linkaddr 0 2) [1; 2; 3; 4] 100] p0) in
  let p' := fst (pvn_remove_old_neighbor_information p 100) in
  ids (nbrList p) = [2; 3; 4]
  /\ map (outdated p 100) (nbrList p) = [false; true; true]
  /\ ids (nbrList p') = [2; 4]
  /\ map (outdated p' 100) (nbrList p') = [false; true]
  /\ map is_on_delete (snd (pvn_remove_old_neighbor_information p 100))
     = [Some 3].
Proof.
  vm_compute. repeat split.
Qed.

End NeighbourhoodFacts.

(** ** The transport never reads through a null pointer *)

Section TransportTotality.

Import RSU.

(** From a state in which an armed timer implies a queued element and the
    history is well formed, every entry point runs to its end and leaves
    such a state, a data frame if it carries its sequence number. *)
Lemma step_completes (ROOT : bool) (i : input) (s : state) :
  has_seqno i ->
  timer_ok s -> History.history_ok (rsu_history s) ->
  exists s',
    snd (step ROOT i s) = Some s'
    /\ timer_ok s' /\ History.history_ok (rsu_history s').
Proof.
  destruct s as [tm q cb sn onl alw p miq rcb h].
  unfold timer_ok. cbn [rsu_timer rsu_queue rsu_history]. intros Hsq Htm Hh.
  assert (Hsend : forall payload tm q cb sn onl alw p miq rcb h,
            History.history_ok h ->
            exists s',
              snd (rsunicast_send payload
                     (mk_state tm q cb sn onl alw p miq rcb h)) = Some s'
              /\ (rsu_timer s' <> None -> rsu_queue s' <> [])
              /\ History.history_ok (rsu_history s')).
  { clear. intros payload tm q cb sn onl alw p miq rcb h Hh.
    unfold rsunicast_send.
    destruct onl, q; simpl; eexists; (split; [reflexivity|]);
      simpl; (split; [|exact Hh]); intros _;
      try discriminate; destruct q; discriminate. }
  destruct i as [payload| | |from packet| | |id]; cbn [step].
  - apply Hsend. exact Hh.
  - unfold ctimer_expires. cbn [rsu_timer].
    destruct tm as [[|]|].
    + assert (Hq : q <> []) by (apply Htm; discriminate).
      destruct q as [|hd next]; [congruence|].
      unfold rsu_send_next_message. simpl.
      destruct (p =? 0); simpl; eexists; (split; [reflexivity|]);
        simpl; (split; [intros _; discriminate|exact Hh]).
    + assert (Hq : q <> []) by (apply Htm; discriminate).
      destruct q as [|hd next]; [congruence|].
      unfold rsu_on_ack_timeout. simpl.
      destruct (tries hd >? MAX_TRIES); simpl.
      * destruct next as [|e next']; simpl; [destruct alw; simpl|];
          eexists; (split; [reflexivity|]); simpl;
          (split; [|exact Hh]); intros H; congruence.
      * eexists. split; [reflexivity|]. simpl.
        split; [intros _; discriminate|exact Hh].
    + simpl. eexists. split; [reflexivity|]. simpl.
      split; [intros H; congruence|exact Hh].
  - unfold rsu_on_recieve_ack. cbn [rsu_queue].
    destruct q as [|hd next].
    + simpl. eexists. split; [reflexivity|]. simpl. split; [exact Htm|exact Hh].
    + destruct next as [|e next']; simpl; [destruct alw; simpl|];
        eexists; (split; [reflexivity|]); simpl;
        (split; [|exact Hh]); intros H; congruence.
  - destruct packet as [|sq payload]; [destruct Hsq|].
    unfold rsu_on_new_message. cbn [bind emit].
    destruct ROOT.
    + cbn [rsu_on_new_message_for_root_cb rsu_history].
      destruct rcb;
        [destruct (History.rsu_check_history (History.rsu_history_list h)
                     (decode_id from) sq)|];
        simpl; eexists; (split; [reflexivity|]); simpl;
        (split; [exact Htm|exact Hh]).
    + cbn [rsu_history].
      destruct (History.rsu_check_history (History.rsu_history_list h)
                  (decode_id from) sq).
      * simpl. eexists. split; [reflexivity|]. simpl.
        split; [exact Htm|exact Hh].
      * destruct (rsu_add_history_ok h (decode_id from) sq Hh)
          as (h' & Hadd & Hh').
        rewrite Hadd. unfold set_history. cbn [rsu_timer rsu_queue
          rsu_onLostMessageCB rsu_seqno rsu_is_online rsu_is_allowed_to_sleep
          rsu_parent rsu_messages_in_queue rsu_on_new_message_for_root_cb].
        destruct (Hsend payload tm q cb sn onl alw p miq rcb h' Hh')
          as (s' & Hs' & Ht' & Hk').
        destruct (rsunicast_send payload
                    (mk_state tm q cb sn onl alw p miq rcb h')) as [es r].
        simpl in Hs'. subst r. simpl. exists s'. auto.
  - unfold rsunicast_allowSleeping. simpl.
    destruct q; simpl; eexists; (split; [reflexivity|]); simpl;
      (split; [exact Htm|exact Hh]).
  - unfold rsunicast_disallowSleeping. simpl.
    destruct onl; simpl; eexists; (split; [reflexivity|]); simpl;
      (split; [exact Htm|exact Hh]).
  - simpl. eexists. split; [reflexivity|]. simpl. split; [exact Htm|exact Hh].
Qed.

(** A frame of no bytes on a root without a callback: the acknowledgement,
    and nothing else. *)
Lemma empty_frame_on_root (from : linkaddr_t) (s : state) :
  rsu_on_new_message_for_root_cb s = false ->
  step true (InData from []) s
  = ([EvUnicastSend rsu_ack_channel (encode_id (decode_id from)) [ACK]],
     Some s).
Proof.
  intros Hcb. cbn [step]. unfold rsu_on_new_message. cbn [bind emit].
  rewrite Hcb. reflexivity.
Qed.

(** A frame of no bytes returns on a root without a callback only. *)
Lemma empty_frame_returns (ROOT : bool) (from : linkaddr_t) (s s' : state) :
  snd (step ROOT (InData from []) s) = Some s' ->
  s' = s /\ ROOT = true /\ rsu_on_new_message_for_root_cb s = false.
Proof.
  cbn [step]. unfold rsu_on_new_message. cbn [bind emit].
  destruct ROOT; [destruct (rsu_on_new_message_for_root_cb s)|];
    cbn; intros H; inversion H; auto.
Qed.

Lemma has_seqno_dec (i : input) :
  has_seqno i \/ exists from, i = InData from [].
Proof.
  destruct i as [payload| | |from [|sq payload]| | |id]; cbn; eauto.
Qed.

(** What an entry point that returns leaves in order. *)
Lemma step_preserves (ROOT : bool) (i : input) (s s' : state) :
  timer_ok s -> History.history_ok (rsu_history s) ->
  snd (step ROOT i s) = Some s' ->
  timer_ok s' /\ History.history_ok (rsu_history s').
Proof.
  intros Ht Hh Hs. destruct (has_seqno_dec i) as [Hi|(from & ->)].
  - destruct (step_completes ROOT i s Hi Ht Hh) as (s1 & H1 & Ht1 & Hh1).
    rewrite H1 in Hs. inversion Hs; subst. auto.
  - destruct (empty_frame_returns ROOT from s s' Hs) as (-> & _). auto.
Qed.

(** No entry point registers or removes the root's callback. *)
Lemma step_keeps_root_cb (ROOT : bool) (i : input) (s s' : state) :
  snd (step ROOT i s) = Some s' ->
  rsu_on_new_message_for_root_cb s' = rsu_on_new_message_for_root_cb s.
Proof.
  destruct s as [tm q cb sn onl alw p miq rcb h].
  destruct i as [payload| | |from packet| | |id]; cbn [step].
  - unfold rsunicast_send. destruct onl, q; simpl;
      intros H; inversion H; reflexivity.
  - unfold ctimer_expires. cbn [rsu_timer]. destruct tm as [[|]|]; simpl.
    + unfold rsu_send_next_message. simpl.
      destruct (p =? 0); simpl; [intros H; inversion H; reflexivity|].
      destruct q; simpl; intros H; inversion H; reflexivity.
    + unfold rsu_on_ack_timeout. simpl.
      destruct q as [|hd next]; simpl; [discriminate|].
      destruct (tries hd >? MAX_TRIES); simpl.
      * destruct next; simpl; [destruct alw; simpl|];
          intros H; inversion H; reflexivity.
      * intros H; inversion H; reflexivity.
    + intros H; inversion H; reflexivity.
  - unfold rsu_on_recieve_ack. simpl.
    destruct q as [|hd next]; simpl; [intros H; inversion H; reflexivity|].
    destruct next; simpl; [destruct alw; simpl|];
      intros H; inversion H; reflexivity.
  - unfold rsu_on_new_message. cbn [bind emit].
    destruct packet as [|sq payload].
    + destruct ROOT; [destruct rcb|]; cbn; intros H; inversion H; reflexivity.
    + destruct ROOT.
      * cbn [rsu_on_new_message_for_root_cb rsu_history].
        destruct rcb;
          [destruct (History.rsu_check_history _ _ _)|];
          cbn; intros H; inversion H; reflexivity.
      * cbn [rsu_history].
        destruct (History.rsu_check_history _ _ _);
          [cbn; intros H; inversion H; reflexivity|].
        destruct (History.rsu_add_history h (decode_id from) sq) as [h'|];
          [|cbn; discriminate].
        unfold set_history. cbn [rsu_timer rsu_queue rsu_onLostMessageCB
          rsu_seqno rsu_is_online rsu_is_allowed_to_sleep rsu_parent
          rsu_messages_in_queue rsu_on_new_message_for_root_cb].
        unfold rsunicast_send. destruct onl, q; simpl;
          intros H; inversion H; reflexivity.
  - unfold rsunicast_allowSleeping. simpl.
    destruct q; simpl; intros H; inversion H; reflexivity.
  - unfold rsunicast_disallowSleeping. simpl.
    destruct onl; simpl; intros H; inversion H; reflexivity.
  - intros H; inversion H; reflexivity.
Qed.

Lemma boot_ok : timer_ok boot /\ History.history_ok (rsu_history boot).
Proof.
  split; [intros H; exfalso; apply H; reflexivity|apply empty_ok].
Qed.

End TransportTotality.

(** ** The tree *)

Section TreeFacts.

Import MLST.

Lemma callbacks_keep_null (evs : list PVN.event) :
  forall s, mlst_parent s = None -> mlst_parent (callbacks evs s) = None.
Proof.
  unfold callbacks.
  induction evs as [|e evs IH]; intros s Hs; [exact Hs|].
  simpl. apply IH. destruct e; simpl; try exact Hs.
  unfold onPvnDelete. rewrite Hs. exact Hs.
Qed.

Lemma happen_on_root (h : happening) (n : node) :
  root_ok n -> exists n', happen true h n = Done n' /\ root_ok n'.
Proof.
  intros (Hp & Ht & Hh & Hcb). destruct h as [from data now|i]; simpl.
  - destruct (PVN.online (mlst_pvn n)).
    + destruct (PVN.on_new_neighbor_information_at (mlst_pvn n) from data now)
        as [p evs].
      eexists. split; [reflexivity|]. split; [|split; [|split]]; simpl; auto.
      apply callbacks_keep_null. exact Hp.
    + exists n. split; [reflexivity|]. split; [|split; [|split]]; assumption.
  - assert (Hr : exists r, snd (RSU.step true i (rsu n)) = Some r).
    { destruct (has_seqno_dec i) as [Hi|(from & ->)].
      - destruct (step_completes true i (rsu n) Hi Ht Hh) as (r & Hr & _).
        exists r. exact Hr.
      - exists (rsu n). rewrite (empty_frame_on_root from (rsu n) Hcb).
        reflexivity. }
    destruct Hr as (r & Hr).
    destruct (step_preserves true i (rsu n) r Ht Hh Hr) as (Ht' & Hh').
    pose proof (step_keeps_root_cb true i (rsu n) r Hr) as Hcb'.
    unfold transport. rewrite Hr.
    eexists. split; [reflexivity|]. split; [|split; [|split]]; simpl; auto.
    congruence.
Qed.

Lemma wait_on_root (hs : list happening) :
  forall n, root_ok n ->
  exists n', WAIT_ONE_PERIOD true hs n = Done n' /\ root_ok n'.
Proof.
  induction hs as [|h hs IH]; intros n Hok; simpl.
  - exists n. auto.
  - destruct (happen_on_root h n Hok) as (n1 & -> & Hok1). apply IH. exact Hok1.
Qed.

Lemma before_wait_on_root (now : Z) (n : node) :
  root_ok n -> exists n', before_wait now n = Done n' /\ root_ok n'.
Proof.
  intros (Hp & Ht & Hh & Hcb). unfold before_wait.
  destruct (PVN.pvn_remove_old_neighbor_information (mlst_pvn n) now)
    as [p evs].
  pose proof (callbacks_keep_null evs (mlst n) Hp) as Hp'.
  unfold mlst_is_undefined. rewrite Hp'.
  destruct (step_completes true RSU.InDisallowSleeping (rsu n) I Ht Hh)
    as (r & Hr & Ht' & Hh').
  pose proof (step_keeps_root_cb true _ (rsu n) r Hr) as Hcb'.
  simpl in Hr. unfold transport. rewrite Hr.
  eexists. split; [reflexivity|]. split; [|split; [|split]]; simpl; auto.
  congruence.
Qed.

Lemma after_wait_on_root (L : layout) (RIME_ID : Z) (c : bool) (n : node) :
  root_ok n ->
  exists n', after_wait true L RIME_ID c n = Done n' /\ root_ok n'
             /\ own_mlst_public_variable (mlst n') = mk_pv 0 65535 255.
Proof.
  intros (Hp & Ht & Hh & Hcb). unfold after_wait, mlst_recalculate.
  eexists. split; [reflexivity|].
  split; [split; [|split; [|split]]|]; simpl; auto.
Qed.

Lemma round_on_root (L : layout) (RIME_ID : Z) (p : period) (n : node) :
  root_ok n ->
  exists n', round true L RIME_ID p n = Done n' /\ root_ok n'
             /\ own_mlst_public_variable (mlst n') = mk_pv 0 65535 255.
Proof.
  intros Hok. unfold round.
  destruct (before_wait_on_root (clock_seconds p) n Hok) as (n1 & -> & Hok1).
  destruct (wait_on_root (during_wait p) n1 Hok1) as (n2 & -> & Hok2).
  apply after_wait_on_root. exact Hok2.
Qed.

Lemma mlst_init_ok (L : layout) : root_ok (mlst_init L).
Proof.
  unfold root_ok, mlst_init. simpl. split; [reflexivity|].
  split; [intros H; exfalso; apply H; reflexivity|].
  split; [apply empty_ok|reflexivity].
Qed.

(** C9.  On a node compiled with [ROOT], whatever the periods bring (the
    clock, the frames and the calls of the transport that arrive while the
    thread waits, the coin), every pass through the loop of [mlst_process]
    runs to its end, and after it [mlst_parent] is still the null pointer
    it was after [mlst_init]: [mlst_is_undefined] answers 1, although the
    public variable carries the parent 0xFFFF. *)
Theorem root_is_undefined_forever (L : layout) (RIME_ID : Z)
    (ps : list period) :
  exists n,
    rounds true L RIME_ID ps (mlst_init L) = Done n
    /\ mlst_is_undefined (mlst n) = true
    /\ mlst_parent (mlst n) = None
    /\ own_mlst_public_variable (mlst n)
       = match ps with
         | [] => mk_pv 0 0 0
         | _ :: _ => mk_pv 0 65535 255
         end.
Proof.
  assert (H : forall ps n0, root_ok n0 ->
            exists n, rounds true L RIME_ID ps n0 = Done n /\ root_ok n
              /\ own_mlst_public_variable (mlst n)
                 = match ps with
                   | [] => own_mlst_public_variable (mlst n0)
                   | _ :: _ => mk_pv 0 65535 255
                   end).
  { clear ps. induction ps as [|p ps IH]; intros n0 Hok; simpl.
    - exists n0. split; [reflexivity|]. split; [exact Hok|reflexivity].
    - destruct (round_on_root L RIME_ID p n0 Hok) as (n1 & -> & Hok1 & Hown1).
      destruct (IH n1 Hok1) as (n & Hn & Hokn & Hownn).
      exists n. split; [exact Hn|]. split; [exact Hokn|].
      rewrite Hownn. destruct ps; [exact Hown1|reflexivity]. }
  destruct (H ps (mlst_init L) (mlst_init_ok L)) as (n & Hn & (Hp & _) & Hown).
  exists n. split; [exact Hn|]. split; [|split; [exact Hp|]].
  - unfold mlst_is_undefined. rewrite Hp. reflexivity.
  - rewrite Hown. destruct ps; reflexivity.
Qed.

(** *** The choice of the parent *)

Lemma minimizes_snoc_other (L : layout) (RIME_ID : Z) (seen : list PVN.Nbr)
    (best n : PVN.Nbr) :
  minimizes L RIME_ID seen best ->
  (forall bytes bytes',
     is_candidate L RIME_ID n ->
     PVN.public_var best = Some bytes -> PVN.public_var n = Some bytes' ->
     no_later (as_pv L bytes) (PVN.id best) (as_pv L bytes') (PVN.id n)) ->
  minimizes L RIME_ID (seen ++ [n]) best.
Proof.
  intros (Hin & Hc & Hmin) Hn. split; [apply in_or_app; left; exact Hin|].
  split; [exact Hc|]. intros m bytes bytes' Hm Hcm Hb Hmb.
  apply in_app_or in Hm. destruct Hm as [Hm|[<-|[]]].
  - apply (Hmin m); assumption.
  - apply Hn; assumption.
Qed.

Lemma no_later_trans (v1 v2 v3 : mlst_public_variable) (i1 i2 i3 : Z) :
  no_later v1 i1 v2 i2 -> no_later v2 i2 v3 i3 -> no_later v1 i1 v3 i3.
Proof. unfold no_later. lia. Qed.

Lemma minimizes_snoc_new (L : layout) (RIME_ID : Z) (seen : list PVN.Nbr)
    (n : PVN.Nbr) (bytes : list Z) :
  PVN.public_var n = Some bytes ->
  is_candidate L RIME_ID n ->
  (forall m bytes',
     In m seen -> is_candidate L RIME_ID m ->
     PVN.public_var m = Some bytes' ->
     no_later (as_pv L bytes) (PVN.id n) (as_pv L bytes') (PVN.id m)) ->
  minimizes L RIME_ID (seen ++ [n]) n.
Proof.
  intros Hv Hc Hmin. split; [apply in_or_app; right; simpl; auto|].
  split; [exact Hc|]. intros m b b' Hm Hcm Hb Hmb.
  rewrite Hv in Hb. inversion Hb; subst b.
  apply in_app_or in Hm. destruct Hm as [Hm|[<-|[]]].
  - apply Hmin; assumption.
  - rewrite Hv in Hmb. inversion Hmb; subst b'. unfold no_later. lia.
Qed.

(** One iteration keeps what the loop has established. *)
Lemma visit_scanned (L : layout) (RIME_ID : Z) (seen : list PVN.Nbr)
    (a a' : locals) (n : PVN.Nbr) :
  publishes_uint8 L n ->
  scanned L RIME_ID seen a ->
  visit L RIME_ID a n = Done a' ->
  scanned L RIME_ID (seen ++ [n]) a'.
Proof.
  intros Hu Hs. unfold visit.
  destruct (PVN.public_var n) as [bytes|] eqn:Hv; [|discriminate].
  specialize (Hu bytes Hv). destruct Hu as [Hd0 Hd1].
  change (2 ^ 8) with 256 in Hd1.
  set (v := as_pv L bytes) in *.
  assert (Hnotc : parent_id v = 0 \/ parent_id v = RIME_ID
                  \/ distance_to_root v = 255 ->
                  ~ is_candidate L RIME_ID n).
  { intros H (b & Hb & H1 & H2 & H3). rewrite Hv in Hb.
    inversion Hb; subst b. fold v in H1, H2, H3. tauto. }
  assert (Hchild : forall cc st,
            parent_id v = 0 \/ parent_id v = RIME_ID ->
            scanned L RIME_ID (seen ++ [n])
              (mk_locals cc (l_distance_to_root a)
                 (l_number_of_potential_parents a) (l_best_parent a) st)).
  { intros cc st Hp. unfold scanned in *. simpl.
    destruct (l_best_parent a) as [[b bv]|].
    - destruct Hs as (Hb & Hbu & Hdist & Hmin).
      split; [exact Hb|]. split; [exact Hbu|]. split; [exact Hdist|].
      apply minimizes_snoc_other; [exact Hmin|].
      intros b1 b2 Hc. exfalso. apply Hnotc; [tauto|exact Hc].
    - destruct Hs as (Hdist & Hnone). split; [exact Hdist|].
      intros m Hm. apply in_app_or in Hm. destruct Hm as [Hm|[<-|[]]].
      + apply Hnone. exact Hm.
      + apply Hnotc. tauto. }
  destruct (parent_id v =? 0) eqn:Hp0.
  { apply Z.eqb_eq in Hp0. intros H. inversion H; subst a'.
    apply Hchild. tauto. }
  destruct (parent_id v =? RIME_ID) eqn:Hp1.
  { apply Z.eqb_eq in Hp1. intros H. inversion H; subst a'.
    apply Hchild. tauto. }
  apply Z.eqb_neq in Hp0. apply Z.eqb_neq in Hp1.
  assert (Hcand : distance_to_root v <> 255 -> is_candidate L RIME_ID n).
  { intros Hd. exists bytes. fold v. auto. }
  destruct (distance_to_root v + 1 <? l_distance_to_root a) eqn:Hlt.
  { apply Z.ltb_lt in Hlt. intros H. inversion H; subst a'. clear H.
    unfold scanned in *. simpl.
    destruct (l_best_parent a) as [[b bv]|].
    - destruct Hs as ((bb & Hbb & ->) & [Hb0 Hb1] & Hdist & Hmin).
      change (2 ^ 8) with 256 in Hb1.
      split; [exists bytes; auto|].
      split; [split; [lia|change (2 ^ 8) with 256; lia]|].
      split; [apply uint8_small; lia|].
      apply (minimizes_snoc_new L RIME_ID seen n bytes Hv);
        [apply Hcand; lia|].
      intros m b' Hm Hcm Hmb. destruct Hmin as (_ & _ & Hmin).
      pose proof (Hmin m bb b' Hm Hcm Hbb Hmb) as Hle.
      fold v. unfold no_later in *. lia.
    - destruct Hs as (Hdist & Hnone).
      split; [exists bytes; auto|].
      split; [split; [lia|change (2 ^ 8) with 256; lia]|].
      split; [apply uint8_small; lia|].
      apply (minimizes_snoc_new L RIME_ID seen n bytes Hv);
        [apply Hcand; lia|].
      intros m b' Hm Hcm _. exfalso. exact (Hnone m Hm Hcm). }
  apply Z.ltb_ge in Hlt.
  destruct (distance_to_root v + 1 =? l_distance_to_root a) eqn:Heq.
  { apply Z.eqb_eq in Heq. unfold scanned in Hs.
    destruct (l_best_parent a) as [[b bv]|] eqn:Hbest; [|discriminate].
    destruct Hs as ((bb & Hbb & ->) & [Hb0 Hb1] & Hdist & Hmin).
    change (2 ^ 8) with 256 in Hb1.
    assert (Hbc : distance_to_root (as_pv L bb) <> 255).
    { destruct Hmin as (_ & (b0 & Hb0' & _ & _ & H3) & _).
      rewrite Hbb in Hb0'. inversion Hb0'; subst b0. exact H3. }
    assert (Hnew : - children_count v < - children_count (as_pv L bb)
                   \/ (- children_count v = - children_count (as_pv L bb)
                       /\ PVN.id n <= PVN.id b) ->
              forall cc num st,
              scanned L RIME_ID (seen ++ [n])
                (mk_locals cc (l_distance_to_root a) num (Some (n, v)) st)).
    { intros Hbetter cc num st. unfold scanned. simpl.
      split; [exists bytes; auto|].
      split; [split; [lia|change (2 ^ 8) with 256; lia]|].
      split; [lia|].
      apply (minimizes_snoc_new L RIME_ID seen n bytes Hv);
        [apply Hcand; lia|].
      intros m b' Hm Hcm Hmb. destruct Hmin as (_ & _ & Hmin).
      pose proof (Hmin m bb b' Hm Hcm Hbb Hmb) as Hle.
      fold v. unfold no_later in *. lia. }
    assert (Hold : - children_count (as_pv L bb) < - children_count v
                   \/ (- children_count (as_pv L bb) = - children_count v
                       /\ PVN.id b <= PVN.id n) ->
              forall cc num st,
              scanned L RIME_ID (seen ++ [n])
                (mk_locals cc (l_distance_to_root a) num
                   (Some (b, as_pv L bb)) st)).
    { intros Hbetter cc num st. unfold scanned. simpl.
      split; [exists bb; auto|].
      split; [split; [lia|change (2 ^ 8) with 256; lia]|].
      split; [lia|].
      apply minimizes_snoc_other; [exact Hmin|].
      intros b1 b2 _ H1 H2. rewrite Hbb in H1. inversion H1; subst b1.
      rewrite Hv in H2. inversion H2; subst b2.
      fold v. unfold no_later. lia. }
    destruct (children_count (as_pv L bb) <? children_count v) eqn:Hcc.
    { apply Z.ltb_lt in Hcc. intros H. inversion H; subst a'.
      apply Hnew. lia. }
    apply Z.ltb_ge in Hcc.
    destruct (children_count (as_pv L bb) =? children_count v) eqn:Hce.
    { apply Z.eqb_eq in Hce. intros H. inversion H; subst a'. clear H.
      destruct (PVN.id b >? PVN.id n) eqn:Hid.
      - apply Z.gtb_lt in Hid. apply Hnew. lia.
      - assert (PVN.id b <= PVN.id n)
          by (destruct (Z.gtb_spec (PVN.id b) (PVN.id n)); [discriminate|lia]).
        apply Hold. lia. }
    apply Z.eqb_neq in Hce. intros H. inversion H; subst a'.
    destruct a as [cc d num bp st]. simpl in Hbest. subst bp.
    apply Hold. lia. }
  apply Z.eqb_neq in Heq. intros H. inversion H; subst a'. clear H.
  unfold scanned in *.
  destruct (l_best_parent a) as [[b bv]|].
  - destruct Hs as ((bb & Hbb & ->) & Hbu & Hdist & Hmin).
    split; [exists bb; auto|]. split; [exact Hbu|]. split; [exact Hdist|].
    apply minimizes_snoc_other; [exact Hmin|].
    intros b1 b2 _ H1 H2. rewrite Hbb in H1. inversion H1; subst b1.
    rewrite Hv in H2. inversion H2; subst b2.
    fold v. unfold no_later. lia.
  - destruct Hs as (Hdist & Hnone). split; [exact Hdist|].
    intros m Hm. apply in_app_or in Hm. destruct Hm as [Hm|[<-|[]]].
    + apply Hnone. exact Hm.
    + apply Hnotc. right. right. lia.
Qed.

Lemma iterate_scanned (L : layout) (RIME_ID : Z) (nbrs : list PVN.Nbr) :
  forall (seen : list PVN.Nbr) (a a' : locals),
  Forall (publishes_uint8 L) nbrs ->
  scanned L RIME_ID seen a ->
  iterate L RIME_ID a nbrs = Done a' ->
  scanned L RIME_ID (seen ++ nbrs) a'.
Proof.
  induction nbrs as [|n nbrs IH]; intros seen a a' Hu Hs; simpl.
  - intros H. inversion H; subst a'. rewrite app_nil_r. exact Hs.
  - inversion Hu as [|? ? Hn Hrest]; subst.
    destruct (visit L RIME_ID a n) as [a1|] eqn:Hvisit; [|discriminate].
    intros H.
    replace (seen ++ n :: nbrs) with ((seen ++ [n]) ++ nbrs)
      by (rewrite <- app_assoc; reflexivity).
    apply (IH (seen ++ [n]) a1 a' Hrest); [|exact H].
    apply (visit_scanned L RIME_ID seen a a1 n Hn Hs Hvisit).
Qed.

(** The loop runs to its end when every entry has its buffer and none
    publishes the distance 254. *)
Lemma iterate_completes (L : layout) (RIME_ID : Z) (nbrs : list PVN.Nbr) :
  forall a,
  (l_best_parent a = None -> l_distance_to_root a = 255) ->
  Forall (not_at_254 L) nbrs ->
  exists a', iterate L RIME_ID a nbrs = Done a'.
Proof.
  induction nbrs as [|n nbrs IH]; intros a Ha Hall; simpl.
  - exists a. reflexivity.
  - inversion Hall as [|? ? (bytes & Hv & Hd) Hrest]; subst.
    assert (Hvisit : exists a1, visit L RIME_ID a n = Done a1
              /\ (l_best_parent a1 = None -> l_distance_to_root a1 = 255)).
    { unfold visit. rewrite Hv.
      destruct (parent_id (as_pv L bytes) =? 0);
        [eexists; split; [reflexivity|exact Ha]|].
      destruct (parent_id (as_pv L bytes) =? RIME_ID);
        [eexists; split; [reflexivity|exact Ha]|].
      destruct (distance_to_root (as_pv L bytes) + 1 <? l_distance_to_root a);
        [eexists; split; [reflexivity|simpl; discriminate]|].
      destruct (distance_to_root (as_pv L bytes) + 1 =? l_distance_to_root a)
        eqn:Heq; [|eexists; split; [reflexivity|exact Ha]].
      apply Z.eqb_eq in Heq.
      destruct (l_best_parent a) as [[b bv]|] eqn:Hb.
      - destruct (children_count bv <? children_count (as_pv L bytes));
          [eexists; split; [reflexivity|simpl; discriminate]|].
        destruct (children_count bv =? children_count (as_pv L bytes)).
        + eexists. split; [reflexivity|]. simpl.
          destruct (PVN.id b >? PVN.id n); discriminate.
        + exists a. split; [reflexivity|]. rewrite Hb. discriminate.
      - specialize (Ha eq_refl). lia. }
    destruct Hvisit as (a1 & -> & Ha1). apply IH; assumption.
Qed.

(** C5.  The neighbours publish distances that are values of a [uint8_t].
    Whenever [mlst_recalculate] of the plain variant returns with a parent
    committed (the published [parent_id] is not 0), that parent is an entry
    [best] of the neighbour list which is not counted as a child and
    publishes a known distance, and among all such entries it minimizes
    the tuple (distance_to_root + 1, - children_count, id); the node
    publishes the distance of [best] plus one and [mlst_parent] points to
    [best].  And a parent is committed: when no entry publishes the
    distance 254, some entry is such a candidate and the coin does not
    defer, [mlst_recalculate] returns with the minimizing entry as
    [mlst_parent] and its identifier as [parent_id]. *)
Theorem committed_parent_minimizes (L : layout) (RIME_ID : Z)
    (nbrs : list PVN.Nbr) (coin : bool) (s : state) :
  Forall (publishes_uint8 L) nbrs ->
  (forall s',
     mlst_recalculate false L RIME_ID nbrs coin s = Done s' ->
     parent_id (own_mlst_public_variable s') <> 0 ->
     exists best bytes,
       minimizes L RIME_ID nbrs best
       /\ PVN.public_var best = Some bytes
       /\ mlst_parent s' = Some (PVN.id best)
       /\ parent_id (own_mlst_public_variable s') = PVN.id best
       /\ distance_to_root (own_mlst_public_variable s')
          = distance_to_root (as_pv L bytes) + 1)
  /\ (Forall (not_at_254 L) nbrs ->
      (exists n, In n nbrs /\ is_candidate L RIME_ID n) ->
      coin = false ->
      exists s' best,
        mlst_recalculate false L RIME_ID nbrs coin s = Done s'
        /\ minimizes L RIME_ID nbrs best
        /\ mlst_parent s' = Some (PVN.id best)
        /\ parent_id (own_mlst_public_variable s') = PVN.id best).
Proof.
  intros Hu. unfold mlst_recalculate.
  set (a0 := start (mlst_stay_active_for_next_n_periods s)).
  assert (H0 : scanned L RIME_ID [] a0).
  { unfold scanned, a0, start. simpl. split; [reflexivity|]. intros n []. }
  split.
  - intros s'.
    destruct (iterate L RIME_ID a0 nbrs) as [a|] eqn:Hit; [|discriminate].
    pose proof (iterate_scanned L RIME_ID nbrs [] a0 a Hu H0 Hit) as Hs.
    simpl in Hs. unfold scanned in Hs.
    destruct (l_best_parent a) as [[best best_pv]|].
    + destruct Hs as ((bytes & Hb & ->) & _ & Hdist & Hmin).
      destruct ((l_number_of_potential_parents a >? 1) && coin).
      * intros H. inversion H; subst s'. simpl. intros Habs. congruence.
      * intros H. inversion H; subst s'. simpl. intros _.
        exists best, bytes. repeat split; auto; apply Hmin.
    + intros H. inversion H; subst s'. simpl. intros Habs. congruence.
  - intros Hall (n & Hn & Hc) ->.
    destruct (iterate_completes L RIME_ID nbrs a0 (fun _ => eq_refl) Hall)
      as (a & Hit).
    rewrite Hit.
    pose proof (iterate_scanned L RIME_ID nbrs [] a0 a Hu H0 Hit) as Hs.
    simpl in Hs. unfold scanned in Hs.
    destruct (l_best_parent a) as [[best best_pv]|].
    + destruct Hs as (_ & _ & _ & Hmin).
      rewrite andb_false_r. eexists. exists best.
      split; [reflexivity|]. simpl. auto.
    + destruct Hs as (_ & Hnone). exfalso. exact (Hnone n Hn Hc).
Qed.

(** C5 at four neighbours of node 1: node 7 at distance 3, nodes 8, 5 and 4
    at distance 2, of which 5 and 4 have one child each.  The parent is
    node 4. *)
Lemma committed_parent_witness :
  (exists best bytes,
     minimizes packed 1
       [PVN.mk_nbr 7 (mk_linkaddr 0 7) (Some [3; 9; 0; 0]) 0;
        PVN.mk_nbr 8 (mk_linkaddr 0 7) (Some [2; 9; 0; 0]) 0;
        PVN.mk_nbr 5 (mk_linkaddr 0 7) (Some [2; 9; 0; 1]) 0;
        PVN.mk_nbr 4 (mk_linkaddr 0 7) (Some [2; 9; 0; 1]) 0] best
     /\ PVN.public_var best = Some bytes
     /\ Some 4 = Some (PVN.id best)
     /\ 4 = PVN.id best
     /\ 3 = distance_to_root (as_pv packed bytes) + 1)
  /\ (exists s' best,
        mlst_recalculate false packed 1
          [PVN.mk_nbr 7 (mk_linkaddr 0 7) (Some [3; 9; 0; 0]) 0;
           PVN.mk_nbr 8 (mk_linkaddr 0 7) (Some [2; 9; 0; 0]) 0;
           PVN.mk_nbr 5 (mk_linkaddr 0 7) (Some [2; 9; 0; 1]) 0;
           PVN.mk_nbr 4 (mk_linkaddr 0 7) (Some [2; 9; 0; 1]) 0]
          false (mk_state None 0 1 (mk_pv 255 0 0)) = Done s'
        /\ minimizes packed 1
             [PVN.mk_nbr 7 (mk_linkaddr 0 7) (Some [3; 9; 0; 0]) 0;
              PVN.mk_nbr 8 (mk_linkaddr 0 7) (Some [2; 9; 0; 0]) 0;
              PVN.mk_nbr 5 (mk_linkaddr 0 7) (Some [2; 9; 0; 1]) 0;
              PVN.mk_nbr 4 (mk_linkaddr 0 7) (Some [2; 9; 0; 1]) 0] best
        /\ mlst_parent s' = Some (PVN.id best)
        /\ parent_id (own_mlst_public_variable s') = PVN.id best).
Proof.
  assert (Hu : Forall (publishes_uint8 packed)
                 [PVN.mk_nbr 7 (mk_linkaddr 0 7) (Some [3; 9; 0; 0]) 0;
                  PVN.mk_nbr 8 (mk_linkaddr 0 7) (Some [2; 9; 0; 0]) 0;
                  PVN.mk_nbr 5 (mk_linkaddr 0 7) (Some [2; 9; 0; 1]) 0;
                  PVN.mk_nbr 4 (mk_linkaddr 0 7) (Some [2; 9; 0; 1]) 0]).
  { repeat (apply Forall_cons;
            [intros bytes H; inversion H; subst bytes;
             unfold is_uint8; simpl; lia|]).
    apply Forall_nil. }
  split.
  - apply (proj1 (committed_parent_minimizes packed 1 _ false
                    (mk_state None 0 1 (mk_pv 255 0 0)) Hu)
             (mk_state (Some 4) 3 3 (mk_pv 3 4 0))).
    + reflexivity.
    + simpl. lia.
  - apply (proj2 (committed_parent_minimizes packed 1 _ false
                    (mk_state None 0 1 (mk_pv 255 0 0)) Hu)).
    + repeat (apply Forall_cons;
              [eexists; split; [reflexivity|simpl; lia]|]).
      apply Forall_nil.
    + exists (PVN.mk_nbr 7 (mk_linkaddr 0 7) (Some [3; 9; 0; 0]) 0).
      split; [simpl; auto|].
      eexists. split; [reflexivity|]. simpl. repeat split; lia.
    + reflexivity.
Defined.

(** Whatever the layout: the first neighbour that is neither undefined nor
    a child, if it publishes the distance 254, makes the loop of the plain
    variant read through the null [best_parent_pv]. *)
Lemma first_candidate_at_254 (L : layout) (RIME_ID stay : Z) (n : PVN.Nbr)
    (bytes : list Z) :
  PVN.public_var n = Some bytes ->
  parent_id (as_pv L bytes) <> 0 ->
  parent_id (as_pv L bytes) <> RIME_ID ->
  distance_to_root (as_pv L bytes) = 254 ->
  visit L RIME_ID (start stay) n = NullRead.
Proof.
  intros Hv H0 H1 Hd. unfold visit. rewrite Hv.
  apply Z.eqb_neq in H0. apply Z.eqb_neq in H1. rewrite H0, H1, Hd.
  reflexivity.
Qed.

(** The same in the energy-aware variant, for a neighbour of energy state 1
    whose distance in the high tier is 254. *)
Lemma first_candidate_at_254_ea (as_pv : list Z -> EAMLST.mlst_public_variable)
    (RIME_ID stay : Z) (n : PVN.Nbr) (bytes : list Z) :
  PVN.public_var n = Some bytes ->
  EAMLST.parent_id (as_pv bytes) <> 0 ->
  EAMLST.parent_id (as_pv bytes) <> RIME_ID ->
  EAMLST.energy_state (as_pv bytes) = 1 ->
  EAMLST.distance_to_root_high (as_pv bytes) = 254 ->
  EAMLST.visit as_pv RIME_ID (EAMLST.start stay) n = NullRead.
Proof.
  intros Hv H0 H1 He Hd. unfold EAMLST.visit. rewrite Hv.
  apply Z.eqb_neq in H0. apply Z.eqb_neq in H1. rewrite H0, H1, He.
  unfold EAMLST.potential_parent, EAMLST.same_distance.
  rewrite He, Hd. reflexivity.
Qed.

(** C6 (the code departs from the specification).  The specification:
    [mlst_recalculate] never reads [children_count] through
    [best_parent_pv] while that pointer is null.  Node 1 has a single
    neighbour, node 7, which names node 9 as its parent and publishes the
    distance 254.  Then [distance_to_root + 1] is 255, which is not below the initial 255 but
    equal to it, and the branch for equal distances reads
    [best_parent_pv->children_count] with [best_parent_pv] still null: in
    the plain variant, and in the energy-aware variant (there with the
    energy state 1 and 254 as the distance of the high tier). *)
Theorem recalculation_reads_through_null_best_parent :
  MLST.visit packed 1 (MLST.start 0)
    (PVN.mk_nbr 7 (mk_linkaddr 0 7) (Some [254; 9; 0; 0]) 0) = NullRead
  /\ MLST.mlst_recalculate false packed 1
       [PVN.mk_nbr 7 (mk_linkaddr 0 7) (Some [254; 9; 0; 0]) 0] false
       (mk_state None 0 1 (mk_pv 255 0 0)) = NullRead
  /\ EAMLST.visit EAMLST.packed 1 (EAMLST.start 0)
       (PVN.mk_nbr 7 (mk_linkaddr 0 7) (Some [254; 255; 255; 9; 0; 0; 1]) 0)
     = NullRead
  /\ EAMLST.iterate EAMLST.packed 1 (EAMLST.start 0)
       [PVN.mk_nbr 7 (mk_linkaddr 0 7) (Some [254; 255; 255; 9; 0; 0; 1]) 0]
     = NullRead.
Proof.
  repeat split; reflexivity.
Qed.

End TreeFacts.

(** ** More on the duplicate history *)

Section HistoryMore.

Import History.

(** [rsu_check_history] answers 1 exactly for the pairs in the list. *)
Lemma check_history_In (l : list rsu_history_element) (from sq : Z) :
  rsu_check_history l from sq = true <-> In (mk_elem from sq) l.
Proof.
  induction l as [|[i q] l IH]; simpl.
  - split; [discriminate|intros []].
  - destruct ((i =? from) && (q =? sq)) eqn:E.
    + apply andb_true_iff in E. destruct E as [E1 E2].
      apply Z.eqb_eq in E1. apply Z.eqb_eq in E2. subst.
      split; auto.
    + rewrite IH. split; [auto|]. intros [H|H]; [|exact H].
      inversion H; subst. rewrite !Z.eqb_refl in E. discriminate.
Qed.

Lemma remove_at_head_incl (l : list rsu_history_element) (size from : Z) :
  incl (fst (remove_at_head l size from)) l.
Proof.
  revert size. induction l as [|e l IH]; intros size; simpl.
  - apply incl_refl.
  - destruct (id e =? from).
    + apply incl_tl. apply IH.
    + apply incl_refl.
Qed.

Lemma append_loop_incl (from sq : Z) (k : nat) :
  forall (tmp : rsu_history_element) (behind : list rsu_history_element),
  (length behind <= k)%nat ->
  forall x, In x (fst (append_loop tmp behind from sq)) ->
  x = mk_elem from sq \/ In x (tmp :: behind).
Proof.
  induction k as [|k IH]; intros tmp behind Hlen x.
  - destruct behind; [|simpl in Hlen; lia]. simpl.
    intros [H|[H|[]]]; auto.
  - destruct behind as [|nx behind']; [simpl; intros [H|[H|[]]]; auto|].
    simpl in Hlen. cbn [append_loop]. destruct (id nx =? from).
    + destruct behind' as [|c behind'']; [simpl; tauto|].
      simpl in Hlen. specialize (IH c behind'' ltac:(lia) x).
      destruct (append_loop c behind'' from sq) as [l added].
      simpl in *. tauto.
    + specialize (IH nx behind' ltac:(lia) x).
      destruct (append_loop nx behind' from sq) as [l added].
      simpl in *. tauto.
Qed.

Lemma clean_oldest_incl (l : list rsu_history_element) :
  forall size h, clean_oldest l size = Some h -> incl (rsu_history_list h) l.
Proof.
  induction l as [|e l IH]; intros size h; simpl.
  - destruct (size >? MAX_HISTORY_SIZE); [discriminate|].
    intros H. inversion H. apply incl_refl.
  - destruct (size >? MAX_HISTORY_SIZE).
    + intros H. apply incl_tl. exact (IH _ _ H).
    + intros H. inversion H. apply incl_refl.
Qed.

(** [rsu_add_history] invents nothing: an entry of the list afterwards is
    the pair just added or was an entry before. *)
Lemma rsu_add_history_incl (h h' : history) (from sq : Z) :
  rsu_add_history h from sq = Some h' ->
  forall x, In x (rsu_history_list h') ->
  x = mk_elem from sq \/ In x (rsu_history_list h).
Proof.
  unfold rsu_add_history.
  pose proof (remove_at_head_incl (rsu_history_list h) (rsu_history_size h)
                from) as H1.
  destruct (remove_at_head (rsu_history_list h) (rsu_history_size h) from)
    as [l1 size1]. simpl in H1.
  destruct l1 as [|tmp behind].
  - intros H x Hx. apply clean_oldest_incl in H.
    destruct (H x Hx) as [<-|[]]. left. reflexivity.
  - pose proof (append_loop_incl from sq (length behind) tmp behind (le_n _))
      as H2.
    destruct (append_loop tmp behind from sq) as [l added]. simpl in H2.
    intros H x Hx. apply clean_oldest_incl in H.
    destruct (H2 x (H x Hx)) as [Hn|Ho]; [left; exact Hn|].
    right. apply H1. exact Ho.
Qed.

Lemma add_all_incl (calls : list (Z * Z)) :
  forall h h', add_all h calls = Some h' ->
  forall x, In x (rsu_history_list h') ->
  In x (rsu_history_list h) \/ In (id x, seqno x) calls.
Proof.
  induction calls as [|[from sq] rest IH]; intros h h'; simpl.
  - intros H. inversion H. auto.
  - destruct (rsu_add_history h from sq) as [h1|] eqn:Hadd; [|discriminate].
    intros H x Hx. destruct (IH h1 h' H x Hx) as [H1|H1]; [|auto].
    destruct (rsu_add_history_incl h h1 from sq Hadd x H1) as [->|H2];
      [right; left; reflexivity|left; exact H2].
Qed.

(** X1.  Whatever calls of [rsu_add_history] are made on the empty history,
    none reads through a null pointer, and afterwards no source has two
    entries, the list has at most [MAX_HISTORY_SIZE] entries, and the
    counter lies between the length of the list and [MAX_HISTORY_SIZE]. *)
Theorem history_stays_well_formed (calls : list (Z * Z)) :
  exists h,
    add_all empty calls = Some h
    /\ NoDup (ids (rsu_history_list h))
    /\ Z.of_nat (length (rsu_history_list h)) <= rsu_history_size h
    /\ rsu_history_size h <= MAX_HISTORY_SIZE.
Proof.
  destruct (add_all_ok calls empty empty_ok) as (h & Hh & Hok).
  exists h. split; [exact Hh|exact Hok].
Qed.

(** X2.  The history gives no false alarm: when [rsu_check_history] answers
    1 for a pair after some calls of [rsu_add_history] on the empty
    history, that very pair was added by one of the calls. *)
Theorem check_history_only_finds_added (calls : list (Z * Z)) (h : history)
    (from sq : Z) :
  add_all empty calls = Some h ->
  rsu_check_history (rsu_history_list h) from sq = true ->
  In (from, sq) calls.
Proof.
  intros Hadd Hcheck. apply check_history_In in Hcheck.
  destruct (add_all_incl calls empty h Hadd _ Hcheck) as [[]|H]. exact H.
Qed.

Lemma check_history_only_finds_added_witness :
  In (2, 5) [(1, 0); (2, 5); (3, 9)].
Proof.
  apply (check_history_only_finds_added [(1, 0); (2, 5); (3, 9)]
           (mk_history [mk_elem 1 0; mk_elem 2 5; mk_elem 3 9] 3) 2 5).
  - reflexivity.
  - reflexivity.
Defined.

(** When the new entry is linked in, it comes behind the cursor. *)
Lemma append_loop_added_length (from sq : Z) (k : nat) :
  forall (tmp : rsu_history_element) (behind : list rsu_history_element),
  (length behind <= k)%nat ->
  snd (append_loop tmp behind from sq) = true ->
  (2 <= length (fst (append_loop tmp behind from sq)))%nat.
Proof.
  induction k as [|k IH]; intros tmp behind Hlen.
  - destruct behind; [|simpl in Hlen; lia]. simpl. lia.
  - destruct behind as [|nx behind']; [simpl; lia|].
    simpl in Hlen. cbn [append_loop]. destruct (id nx =? from).
    + destruct behind' as [|c behind'']; [simpl; discriminate|].
      simpl in Hlen. specialize (IH c behind'' ltac:(lia)).
      destruct (append_loop c behind'' from sq) as [l added].
      simpl in *. intros H. specialize (IH H). lia.
    + specialize (IH nx behind' ltac:(lia)).
      destruct (append_loop nx behind' from sq) as [l added].
      simpl in *. intros H. specialize (IH H). lia.
Qed.

(** Unless the entry of [from] is the last cell behind the cursor, the loop
    reaches the end of the list and links the new entry in there. *)
Lemma append_loop_appends (from sq : Z) (k : nat) :
  forall (tmp : rsu_history_element) (behind : list rsu_history_element),
  (length behind <= k)%nat ->
  NoDup (ids (tmp :: behind)) ->
  id tmp <> from ->
  behind = [] \/ id (last behind (mk_elem 0 0)) <> from ->
  exists pre,
    append_loop tmp behind from sq = (tmp :: pre ++ [mk_elem from sq], true).
Proof.
  induction k as [|k IH]; intros tmp behind Hlen Hnd Hne Hlast.
  - destruct behind; [|simpl in Hlen; lia]. exists []. reflexivity.
  - destruct behind as [|nx behind']; [exists []; reflexivity|].
    simpl in Hlen. cbn [append_loop].
    destruct Hlast as [Habs|Hlast]; [discriminate|].
    inversion Hnd as [|? ? Hn1 Hnd1]; subst.
    destruct (id nx =? from) eqn:Hnx.
    + apply Z.eqb_eq in Hnx.
      destruct behind' as [|c behind'']; [simpl in Hlast; congruence|].
      inversion Hnd1 as [|? ? Hn2 Hnd2]; subst.
      assert (Hc : id c <> id nx).
      { intros Heq. apply Hn2. simpl. auto. }
      simpl in Hlen.
      destruct (IH c behind'' ltac:(lia) Hnd2 Hc) as (pre & Hpre).
      { destruct behind''; [left; reflexivity|right; exact Hlast]. }
      rewrite Hpre. exists (c :: pre). reflexivity.
    + apply Z.eqb_neq in Hnx.
      destruct (IH nx behind' ltac:(lia) Hnd1 Hnx) as (pre & Hpre).
      { destruct behind'; [left; reflexivity|right; exact Hlast]. }
      rewrite Hpre. exists (nx :: pre). reflexivity.
Qed.

(** After a call the list is not empty. *)
Lemma rsu_add_history_live (h : history) (from sq : Z) :
  history_live h ->
  exists h', rsu_add_history h from sq = Some h'
             /\ history_live h' /\ rsu_history_list h' <> [].
Proof.
  intros [Hok Hzero].
  destruct (rsu_add_history_ok h from sq Hok) as (h' & Hadd & Hok').
  exists h'. split; [exact Hadd|].
  assert (Hne : rsu_history_list h' <> []).
  { revert Hadd. unfold rsu_add_history.
    destruct Hok as (Hnd & Hlo & Hhi).
    pose proof (remove_at_head_spec (rsu_history_list h) (rsu_history_size h)
                  from Hnd (conj Hlo Hhi)) as H1.
    destruct (remove_at_head (rsu_history_list h) (rsu_history_size h) from)
      as [l1 size1].
    destruct H1 as (Hnd1 & _ & Hsz1 & Hhd & Hcase).
    unfold MAX_HISTORY_SIZE in *.
    destruct l1 as [|tmp behind].
    - assert (Hs : size1 < 30).
      { destruct (Hcase eq_refl) as [H|H]; [exact H|].
        specialize (Hzero H). simpl in Hsz1. lia. }
      simpl in Hsz1. cbn [clean_oldest]. unfold MAX_HISTORY_SIZE.
      rewrite uint8_small by lia.
      replace (size1 + 1 >? 30) with false
        by (symmetry; destruct (Z.gtb_spec (size1 + 1) 30); [lia|reflexivity]).
      intros H. inversion H. discriminate.
    - pose proof (append_loop_spec from sq (length behind) tmp behind
                    (le_n _) Hnd1 Hhd) as H2.
      pose proof (append_loop_added_length from sq (length behind) tmp behind
                    (le_n _)) as H3.
      destruct (append_loop tmp behind from sq) as [l added].
      destruct H2 as (_ & _ & Hne2 & Hlen2 & Hlen2'). simpl in H3.
      destruct l as [|e l']; [congruence|].
      cbn [clean_oldest]. unfold MAX_HISTORY_SIZE.
      destruct added.
      + specialize (H3 eq_refl). simpl in H3.
        destruct l' as [|e' l'']; [simpl in H3; lia|].
        simpl in Hlen2, Hsz1. rewrite uint8_small by lia.
        destruct (size1 + 1 >? 30) eqn:Hgt.
        * apply Z.gtb_lt in Hgt. assert (size1 = 30) by lia. subst size1.
          cbn [clean_oldest]. simpl. intros H. inversion H. discriminate.
        * intros H. inversion H. discriminate.
      + replace (size1 >? 30) with false
          by (symmetry; destruct (Z.gtb_spec size1 30); [lia|reflexivity]).
        intros H. inversion H. discriminate. }
  split; [|exact Hne]. split; [exact Hok'|]. intros Habs. congruence.
Qed.

Lemma add_all_live (calls : list (Z * Z)) :
  forall h h', history_live h -> add_all h calls = Some h' -> history_live h'.
Proof.
  induction calls as [|[from sq] rest IH]; intros h h' Hlive; simpl.
  - intros H. inversion H; subst. exact Hlive.
  - destruct (rsu_add_history_live h from sq Hlive) as (h1 & -> & Hlive1 & _).
    apply IH. exact Hlive1.
Qed.

Lemma empty_live : history_live empty.
Proof. split; [apply empty_ok|reflexivity]. Qed.

Lemma check_history_last (l : list rsu_history_element) (from sq : Z) :
  rsu_check_history (l ++ [mk_elem from sq]) from sq = true.
Proof. apply check_history_In. apply in_or_app. right. simpl. auto. Qed.

Lemma last_snoc (l : list rsu_history_element) (x d : rsu_history_element) :
  last (l ++ [x]) d = x.
Proof. apply last_last. Qed.

Lemma last_in (l : list rsu_history_element) (d : rsu_history_element) :
  l <> [] -> In (last l d) l.
Proof.
  induction l as [|x l IH]; [congruence|]. intros _.
  destruct l as [|y l']; [left; reflexivity|].
  right. apply IH. discriminate.
Qed.

(** The call records the pair as the last entry, from a history that is
    live and in which the source is not buried. *)
Lemma rsu_add_history_records (h : history) (from sq : Z) :
  history_live h ->
  buried (rsu_history_list h) from = false ->
  exists h' pre,
    rsu_add_history h from sq = Some h'
    /\ rsu_history_list h' = pre ++ [mk_elem from sq].
Proof.
  intros [(Hnd & Hlo & Hhi) Hzero] Hbur. unfold MAX_HISTORY_SIZE in *.
  destruct h as [l size]. cbn [rsu_history_list rsu_history_size] in *.
  unfold rsu_add_history. cbn [rsu_history_list rsu_history_size].
  assert (Hnogt : forall z, z <= 30 -> (z >? 30) = false).
  { intros z Hz. destruct (Z.gtb_spec z 30); [lia|reflexivity]. }
  destruct l as [|e rest].
  - specialize (Hzero eq_refl). subst size. simpl.
    eexists. exists []. split; reflexivity.
  - cbn [remove_at_head]. cbn [length] in Hlo.
    inversion Hnd as [|? ? Hn1 Hnd1]; subst.
    destruct (id e =? from) eqn:He.
    + apply Z.eqb_eq in He. rewrite uint8_small by lia.
      destruct rest as [|tmp behind].
      * simpl. unfold MAX_HISTORY_SIZE. rewrite uint8_small by lia.
        rewrite Hnogt by lia. eexists. exists []. split; reflexivity.
      * assert (Htmp : id tmp <> from).
        { intros Heq. apply Hn1. simpl. left. congruence. }
        cbn [remove_at_head]. apply Z.eqb_neq in Htmp. rewrite Htmp.
        apply Z.eqb_neq in Htmp.
        destruct (append_loop_appends from sq (length behind) tmp behind
                    (le_n _) Hnd1 Htmp) as (pre & Hpre).
        { destruct behind as [|b behind']; [left; reflexivity|right].
          intros Heq. apply Hn1. right. rewrite He, <- Heq.
          apply (in_map id). apply last_in. discriminate. }
        rewrite Hpre. cbn [length] in Hlo. rewrite uint8_small by lia.
        cbn [clean_oldest]. unfold MAX_HISTORY_SIZE. rewrite Hnogt by lia.
        eexists. exists (tmp :: pre). split; reflexivity.
    + apply Z.eqb_neq in He.
      destruct (append_loop_appends from sq (length rest) e rest
                  (le_n _) Hnd He) as (pre & Hpre).
      { destruct rest as [|b rest']; [left; reflexivity|right].
        simpl in Hbur. apply Z.eqb_neq in Hbur. exact Hbur. }
      rewrite Hpre. rewrite uint8_small by lia.
      cbn [clean_oldest]. unfold MAX_HISTORY_SIZE.
      destruct (size + 1 >? 30) eqn:Hgt.
      * apply Z.gtb_lt in Hgt. assert (size = 30) by lia. subst size.
        destruct pre as [|x pre'].
        { simpl. eexists. exists []. split; reflexivity. }
        { simpl. eexists. exists (x :: pre'). split; reflexivity. }
      * eexists. exists (e :: pre). split; reflexivity.
Qed.

Lemma add_then_check_finds_helper (calls : list (Z * Z)) (h : history)
    (from sq : Z) :
  add_all empty calls = Some h ->
  buried (rsu_history_list h) from = false ->
  exists h',
    rsu_add_history h from sq = Some h'
    /\ rsu_check_history (rsu_history_list h') from sq = true.
Proof.
  intros Hadd Hbur.
  pose proof (add_all_live calls empty h empty_live Hadd) as Hlive.
  destruct (rsu_add_history_records h from sq Hlive Hbur)
    as (h' & pre & Hh' & Hl).
  exists h'. split; [exact Hh'|]. rewrite Hl. apply check_history_last.
Qed.

(** X3.  After calls of [rsu_add_history] on the empty history, one more
    call for a source whose entry is not the last cell of a list of two or
    more cells runs to its end, leaves the pair as the last (the youngest)
    entry, and [rsu_check_history] then answers 1 for it. *)
Theorem add_then_check_finds (calls : list (Z * Z)) (h : history)
    (from sq : Z) :
  add_all empty calls = Some h ->
  buried (rsu_history_list h) from = false ->
  exists h',
    rsu_add_history h from sq = Some h'
    /\ last (rsu_history_list h') (mk_elem 0 0) = mk_elem from sq
    /\ rsu_check_history (rsu_history_list h') from sq = true.
Proof.
  intros Hadd Hbur.
  pose proof (add_all_live calls empty h empty_live Hadd) as Hlive.
  destruct (rsu_add_history_records h from sq Hlive Hbur)
    as (h' & pre & Hh' & Hl).
  exists h'. split; [exact Hh'|]. rewrite Hl.
  split; [apply last_snoc|apply check_history_last].
Qed.

Lemma add_then_check_finds_witness :
  exists h',
    rsu_add_history (mk_history [mk_elem 1 0; mk_elem 2 5; mk_elem 3 9] 3) 2 6
    = Some h'
    /\ last (rsu_history_list h') (mk_elem 0 0) = mk_elem 2 6
    /\ rsu_check_history (rsu_history_list h') 2 6 = true.
Proof.
  apply (add_then_check_finds [(1, 0); (2, 5); (3, 9)]
           (mk_history [mk_elem 1 0; mk_elem 2 5; mk_elem 3 9] 3) 2 6).
  - reflexivity.
  - reflexivity.
Defined.

End HistoryMore.

(** ** More on the transport *)

Section TransportMore.

Import RSU.

(** X4.  Identifiers and link addresses are two spellings of one thing:
    [encode_id] (the two assignments to [recv.u8]) and [decode_id] (the
    shift-and-or of [from->u8]) undo each other on the addresses of two
    bytes and the identifiers of sixteen bits. *)
Theorem link_address_round_trip :
  (forall a, linkaddr_wf a -> encode_id (decode_id a) = a)
  /\ (forall i, is_uint16 i ->
       linkaddr_wf (encode_id i) /\ decode_id (encode_id i) = i).
Proof.
  split; [exact encode_decode_id|].
  intros i [Hi0 Hi1]. change (2 ^ 16) with 65536 in Hi1.
  assert (Hwf : linkaddr_wf (encode_id i)).
  { unfold linkaddr_wf, is_uint8, encode_id, uint8. simpl.
    split; apply Z.mod_pos_bound; lia. }
  split; [exact Hwf|]. rewrite (decode_id_value _ Hwf).
  unfold encode_id, uint8. cbn [u8_0 u8_1].
  rewrite Z.shiftr_div_pow2 by lia. change 255 with (Z.ones 8).
  rewrite Z.land_ones by lia. change (2 ^ 8) with 256.
  rewrite Z.mod_mod by lia.
  rewrite (Z.mod_small (i / 256) 256).
  - symmetry. apply Z.div_mod. lia.
  - split; [apply Z.div_pos; lia|apply Z.div_lt_upper_bound; lia].
Qed.

Lemma link_address_round_trip_witness :
  encode_id (decode_id (mk_linkaddr 1 2)) = mk_linkaddr 1 2
  /\ decode_id (encode_id 258) = 258.
Proof.
  split.
  - apply (proj1 link_address_round_trip (mk_linkaddr 1 2)).
    unfold linkaddr_wf, is_uint8. simpl. lia.
  - apply (proj2 link_address_round_trip 258).
    unfold is_uint16. simpl. lia.
Defined.

Lemma transmitted_app (a b : list event) :
  transmitted (a ++ b) = transmitted a ++ transmitted b.
Proof.
  induction a as [|e a IH]; [reflexivity|].
  destruct e as [| |c to packet| | |]; simpl; try exact IH.
  destruct c; simpl; [rewrite IH; reflexivity|exact IH].
Qed.

(** [rsunicast_send] on any state. *)
Lemma send_explicit (payload : list Z) (tm : option ctimer_callback)
    (q : list RSUnicastQueueElement) (cb : bool) (sn : Z) (onl alw : bool)
    (p miq : Z) (rcb : bool) (h : History.history) :
  rsunicast_send payload (mk_state tm q cb sn onl alw p miq rcb h)
  = ((if onl then []
      else [EvUnicastOpen rsu_data_channel MESSAGING_PORT;
            EvUnicastOpen rsu_ack_channel ACKNOWLEDGEMENT_PORT]),
     Some (mk_state
             (match q with [] => Some to_send_next_message | _ => tm end)
             (q ++ [mk_qe (sn :: payload)
                      (uint16 (Z.of_nat (length payload) + 1)) 0])
             cb (if sn =? 255 then 0 else sn + 1) true alw p
             (uint16 (miq + 1)) rcb h)).
Proof. unfold rsunicast_send. destruct onl, q; reflexivity. Qed.

(** Sends in a row: nothing is transmitted yet, and the payloads stand in
    the queue in the order of the calls. *)
Lemma sends_enqueue (ROOT : bool) (ps : list (list Z)) :
  forall tm q cb sn onl alw p miq rcb h,
  exists evs s',
    steps ROOT (map InSend ps) (mk_state tm q cb sn onl alw p miq rcb h)
    = (evs, Some s')
    /\ transmitted evs = []
    /\ rsu_queue s' = q ++ enqueued sn ps
    /\ rsu_parent s' = p
    /\ (q ++ enqueued sn ps <> [] -> tm = Some to_send_next_message
        \/ q = [] -> rsu_timer s' = Some to_send_next_message).
Proof.
  induction ps as [|payload ps IH]; intros tm q cb sn onl alw p miq rcb h.
  - exists [], (mk_state tm q cb sn onl alw p miq rcb h). simpl.
    rewrite app_nil_r. repeat split; auto.
    intros Hne [H|H]; [exact H|congruence].
  - cbn [map steps step]. rewrite send_explicit.
    match goal with
    | |- context [Some (mk_state ?tm' ?q' ?cb' ?sn' ?onl' ?alw' ?p' ?miq'
                          ?rcb' ?h')] =>
        destruct (IH tm' q' cb' sn' onl' alw' p' miq' rcb' h')
          as (evs & s' & Hrun & Htx & Hq & Hp & Htm)
    end.
    unfold bind. rewrite Hrun.
    eexists. exists s'. split; [reflexivity|].
    split; [rewrite transmitted_app, Htx; destruct onl; reflexivity|].
    split; [rewrite Hq, <- app_assoc; reflexivity|].
    split; [exact Hp|].
    intros _ Hcase. apply Htm.
    + destruct q; discriminate.
    + left. destruct q as [|e q']; [reflexivity|].
      destruct Hcase as [H|H]; [exact H|discriminate].
Qed.

(** A queue whose head is sent and acknowledged, element after element:
    the elements are transmitted once each, in the order of the queue. *)
Lemma acknowledged_queue_drains (ROOT : bool)
    (q : list RSUnicastQueueElement) :
  forall e cb sn onl alw p miq rcb h,
  p <> 0 ->
  exists evs s',
    steps ROOT (flat_map (fun _ => [InTimer; InAck]) (e :: q))
      (mk_state (Some to_send_next_message) (e :: q) cb sn onl alw p miq
         rcb h)
    = (evs, Some s')
    /\ transmitted evs = map packet_of (e :: q)
    /\ rsu_queue s' = []
    /\ rsu_timer s' = None.
Proof.
  induction q as [|e' q IH]; intros e cb sn onl alw p miq rcb h Hp;
    pose proof Hp as Hp'; apply Z.eqb_neq in Hp'.
  - cbn [flat_map app steps step]. unfold ctimer_expires.
    cbn [rsu_timer]. unfold rsu_send_next_message.
    cbn [set_timer rsu_parent rsu_queue rsu_timer rsu_onLostMessageCB
         rsu_seqno rsu_is_online rsu_is_allowed_to_sleep
         rsu_messages_in_queue rsu_on_new_message_for_root_cb rsu_history].
    rewrite Hp'. destruct alw; simpl; eexists; eexists;
      (split; [reflexivity|]); simpl; auto.
  - change (flat_map (fun _ => [InTimer; InAck]) (e :: e' :: q))
      with ([InTimer; InAck]
            ++ flat_map (fun _ => [InTimer; InAck]) (e' :: q)).
    destruct (IH e' cb sn onl alw p (uint16 (miq - 1)) rcb h Hp)
      as (evs & s' & Hrun & Htx & Hq & Htm).
    exists (EvUnicastSend rsu_data_channel (encode_id p) (packet_of e) :: evs),
      s'.
    split; [|split; [simpl; rewrite Htx; reflexivity|auto]].
    apply (steps_seq ROOT [InTimer; InAck] _ _
             (mk_state (Some to_send_next_message) (e' :: q) cb sn onl alw p
                (uint16 (miq - 1)) rcb h)
             [EvUnicastSend rsu_data_channel (encode_id p) (packet_of e)]
             evs (Some s')); [|exact Hrun].
    cbn [steps step]. unfold ctimer_expires. cbn [rsu_timer].
    unfold rsu_send_next_message.
    cbn [set_timer rsu_parent rsu_queue rsu_timer rsu_onLostMessageCB
         rsu_seqno rsu_is_online rsu_is_allowed_to_sleep
         rsu_messages_in_queue rsu_on_new_message_for_root_cb rsu_history].
    rewrite Hp'. reflexivity.
Qed.

Lemma next_seqno (sn : Z) :
  is_uint8 sn ->
  (if sn =? 255 then 0 else sn + 1) = (sn + 1) mod 256
  /\ is_uint8 ((sn + 1) mod 256).
Proof.
  intros [H0 H1]. change (2 ^ 8) with 256 in H1. split.
  - destruct (Z.eqb_spec sn 255) as [->|Hne]; [reflexivity|].
    symmetry. apply Z.mod_small. lia.
  - unfold is_uint8. change (2 ^ 8) with 256. apply Z.mod_pos_bound. lia.
Qed.

Lemma packets_numbered (ps : list (list Z)) :
  forall sn, is_uint8 sn ->
  Forall (fun p => Z.of_nat (length p) < 65535) ps ->
  map packet_of (enqueued sn ps) = numbered sn ps.
Proof.
  induction ps as [|p ps IH]; intros sn Hsn Hall; [reflexivity|].
  inversion Hall as [|? ? Hp Hrest]; subst.
  destruct (next_seqno sn Hsn) as [Hnext Hrange].
  cbn [enqueued map numbered]. rewrite Hnext, (IH _ Hrange Hrest).
  f_equal. unfold packet_of. cbn [size msg].
  rewrite uint16_small by lia.
  replace (Z.to_nat (Z.of_nat (length p) + 1)) with (length (sn :: p))
    by (simpl; lia).
  apply firstn_all.
Qed.

Lemma enqueued_length (ps : list (list Z)) :
  forall sn, length (enqueued sn ps) = length ps.
Proof.
  induction ps as [|p ps IH]; intros sn; simpl; [reflexivity|].
  rewrite IH. reflexivity.
Qed.

Lemma flat_map_const {A B C : Type} (c : list C) (l1 : list A) :
  forall l2 : list B, length l1 = length l2 ->
  flat_map (fun _ => c) l1 = flat_map (fun _ => c) l2.
Proof.
  induction l1 as [|x l1 IH]; intros [|y l2] H; simpl in *;
    try discriminate; [reflexivity|].
  f_equal. apply IH. lia.
Qed.

(** X5.  First in, first out.  Payloads that fit the 16-bit length field
    are handed to [rsunicast_send] one after the other while the queue is
    empty and a parent is set; then, once per payload, the timer expires
    and the acknowledgement arrives.  The packets sent to the parent are
    exactly the payloads, once each and in the order of the calls, each
    behind its sequence number, which counts up from [rsu_seqno] and wraps
    from 255 to 0; at the end the queue is empty. *)
Theorem acknowledged_sends_are_first_in_first_out (ROOT : bool)
    (ps : list (list Z)) (s : state) :
  rsu_queue s = [] ->
  rsu_parent s <> 0 ->
  is_uint8 (rsu_seqno s) ->
  Forall (fun p => Z.of_nat (length p) < 65535) ps ->
  exists evs s',
    steps ROOT (map InSend ps ++ flat_map (fun _ => [InTimer; InAck]) ps) s
    = (evs, Some s')
    /\ transmitted evs = numbered (rsu_seqno s) ps
    /\ rsu_queue s' = [].
Proof.
  intros Hq Hp Hsn Hall.
  destruct s as [tm q cb sn onl alw p miq rcb h].
  cbn [rsu_queue rsu_parent rsu_seqno] in *. subst q.
  destruct ps as [|p0 ps'].
  - exists [], (mk_state tm [] cb sn onl alw p miq rcb h).
    repeat split; reflexivity.
  - destruct (sends_enqueue ROOT (p0 :: ps') tm [] cb sn onl alw p miq rcb h)
      as (evs1 & s1 & Hrun1 & Htx1 & Hq1 & Hp1 & Htm1).
    rewrite app_nil_l in Hq1, Htm1.
    destruct s1 as [tm1 q1 cb1 sn1 onl1 alw1 p1 miq1 rcb1 h1].
    cbn [rsu_queue rsu_parent rsu_timer] in *. subst q1 p1.
    rewrite Htm1 in Hrun1 by (try discriminate; right; reflexivity).
    remember (enqueued sn (p0 :: ps')) as qs eqn:Hqs.
    assert (Hlen : length (p0 :: ps') = length qs)
      by (rewrite Hqs; symmetry; apply enqueued_length).
    rewrite (flat_map_const [InTimer; InAck] (p0 :: ps') qs Hlen).
    destruct qs as [|e q]; [discriminate|].
    destruct (acknowledged_queue_drains ROOT q e cb1 sn1 onl1 alw1 p miq1
                rcb1 h1 Hp) as (evs2 & s2 & Hrun2 & Htx2 & Hq2 & _).
    exists (evs1 ++ evs2), s2.
    split; [exact (steps_seq ROOT _ _ _ _ _ _ _ Hrun1 Hrun2)|].
    split; [|exact Hq2].
    rewrite transmitted_app, Htx1, Htx2. rewrite app_nil_l.
    rewrite Hqs. apply packets_numbered; assumption.
Qed.

Lemma first_in_first_out_witness :
  exists evs s',
    steps false (map InSend [[10]; [20; 21]]
                 ++ flat_map (fun _ => [InTimer; InAck]) [[10]; [20; 21]])
      (set_seqno 255 (rsunicast_setparent 1 boot))
    = (evs, Some s')
    /\ transmitted evs = [[255; 10]; [0; 20; 21]]
    /\ rsu_queue s' = [].
Proof.
  apply (acknowledged_sends_are_first_in_first_out false [[10]; [20; 21]]
           (set_seqno 255 (rsunicast_setparent 1 boot))).
  - reflexivity.
  - simpl. lia.
  - unfold is_uint8. simpl. lia.
  - repeat (apply Forall_cons; [simpl; lia|]). apply Forall_nil.
Defined.

(** X6.  While no parent is set ([rsu_parent] is 0) the timer keeps
    running but nothing is transmitted and nothing is given up: with a
    head that has not used up its tries, after any number of expiries the
    queue is the same, the timer is armed, and every event was the failure
    callback, called with parent 0 and the unchanged number of tries. *)
Theorem without_parent_the_queue_waits (ROOT : bool) (n : nat) (s : state)
    (e : RSUnicastQueueElement) (q : list RSUnicastQueueElement) :
  rsu_parent s = 0 ->
  rsu_queue s = e :: q ->
  tries e <= MAX_TRIES ->
  rsu_timer s <> None ->
  exists evs s',
    steps ROOT (repeat InTimer n) s = (evs, Some s')
    /\ transmitted evs = []
    /\ Forall (fun ev => ev = EvLostMessageCB 0 (tries e)) evs
    /\ rsu_queue s' = e :: q
    /\ rsu_timer s' <> None.
Proof.
  unfold MAX_TRIES. revert s.
  induction n as [|n IH]; intros s Hp Hq Ht Htm.
  - exists [], s. simpl. repeat split; auto.
  - destruct s as [tm q0 cb sn onl alw p miq rcb h].
    cbn [rsu_queue rsu_parent rsu_timer] in *. subst p q0.
    assert (Hle : (tries e >? 5) = false)
      by (destruct (Z.gtb_spec (tries e) 5); [lia|reflexivity]).
    destruct tm as [[|]|]; [| |congruence].
    + destruct (IH (mk_state (Some to_on_ack_timeout) (e :: q) cb sn onl
                      alw 0 miq rcb h)) as (evs & s' & Hrun & H1 & H2 & H3 & H4);
        try reflexivity; try assumption; try discriminate.
      exists evs, s'. split; [|auto].
      change (repeat InTimer (S n)) with ([InTimer] ++ repeat InTimer n).
      apply (steps_seq ROOT [InTimer] _ _
               (mk_state (Some to_on_ack_timeout) (e :: q) cb sn onl alw 0
                  miq rcb h) [] evs (Some s')); [reflexivity|exact Hrun].
    + destruct (IH (mk_state (Some to_send_next_message) (e :: q) cb sn onl
                      alw 0 miq rcb h)) as (evs & s' & Hrun & H1 & H2 & H3 & H4);
        try reflexivity; try assumption; try discriminate.
      exists ((if cb then [EvLostMessageCB 0 (tries e)] else []) ++ evs), s'.
      split; [|split; [|split; [|auto]]].
      * change (repeat InTimer (S n)) with ([InTimer] ++ repeat InTimer n).
        apply (steps_seq ROOT [InTimer] _ _
                 (mk_state (Some to_send_next_message) (e :: q) cb sn onl
                    alw 0 miq rcb h)); [|exact Hrun].
        cbn [steps step]. unfold ctimer_expires. cbn [rsu_timer].
        unfold rsu_on_ack_timeout.
        cbn [set_timer rsu_parent rsu_queue rsu_timer rsu_onLostMessageCB
             rsu_seqno rsu_is_online rsu_is_allowed_to_sleep
             rsu_messages_in_queue rsu_on_new_message_for_root_cb
             rsu_history].
        unfold MAX_TRIES. rewrite Hle. destruct cb; reflexivity.
      * rewrite transmitted_app, H1. destruct cb; reflexivity.
      * apply Forall_app. split; [|exact H2].
        destruct cb; [constructor; [reflexivity|constructor]|constructor].
Qed.

Lemma without_parent_witness :
  exists evs s',
    steps false (repeat InTimer 7)
      (mk_state (Some to_send_next_message) [mk_qe [0; 9] 2 0] true 1 true
         false 0 1 false History.empty)
    = (evs, Some s')
    /\ transmitted evs = []
    /\ Forall (fun ev => ev = EvLostMessageCB 0 0) evs
    /\ rsu_queue s' = [mk_qe [0; 9] 2 0]
    /\ rsu_timer s' <> None.
Proof.
  apply (without_parent_the_queue_waits false 7
           (mk_state (Some to_send_next_message) [mk_qe [0; 9] 2 0] true 1
              true false 0 1 false History.empty)
           (mk_qe [0; 9] 2 0) []).
  - reflexivity.
  - reflexivity.
  - unfold MAX_TRIES. simpl. lia.
  - simpl. discriminate.
Defined.

Lemma snd_bind (r : run) (k : state -> run) (s1 : state) :
  snd r = Some s1 -> snd (r >>= k) = snd (k s1).
Proof.
  destruct r as [es [s|]]; simpl; [|discriminate].
  intros H. inversion H; subst. destruct (k s1). reflexivity.
Qed.

(** No entry point closes the channels over a queued element or without
    the permission to sleep. *)
Lemma step_keeps_awake (ROOT : bool) (i : input) (s s' : state) :
  timer_ok s -> awake_ok s ->
  snd (step ROOT i s) = Some s' -> awake_ok s'.
Proof.
  destruct s as [tm q cb sn onl alw p miq rcb h].
  unfold timer_ok, awake_ok.
  cbn [rsu_timer rsu_queue rsu_is_online rsu_is_allowed_to_sleep].
  intros Htm Haw.
  assert (Hsend : forall payload tm q cb sn onl alw p miq rcb h s',
            snd (rsunicast_send payload
                   (mk_state tm q cb sn onl alw p miq rcb h)) = Some s' ->
            rsu_is_online s' = true).
  { clear. intros. rewrite send_explicit in H. simpl in H.
    inversion H. reflexivity. }
  destruct i as [payload| | |from packet| | |id]; cbn [step].
  - intros H. apply Hsend in H. intros Hoff. congruence.
  - unfold ctimer_expires. cbn [rsu_timer]. destruct tm as [[|]|].
    + unfold rsu_send_next_message. simpl.
      destruct (p =? 0); simpl.
      * intros H. inversion H; subst. simpl. exact Haw.
      * destruct q; simpl; [discriminate|].
        intros H. inversion H; subst. simpl. intros Hoff.
        destruct (Haw Hoff) as [Habs _]. discriminate.
    + unfold rsu_on_ack_timeout. simpl.
      destruct q as [|hd next]; simpl; [discriminate|].
      destruct (tries hd >? MAX_TRIES); simpl.
      * destruct next as [|e next']; simpl; [destruct alw; simpl|];
          intros H; inversion H; subst; simpl; intros Hoff;
          try (split; [reflexivity|reflexivity]);
          destruct (Haw Hoff) as [Habs _]; discriminate.
      * intros H. inversion H; subst. simpl. exact Haw.
    + simpl. intros H. inversion H; subst. exact Haw.
  - unfold rsu_on_recieve_ack. cbn [rsu_queue].
    destruct q as [|hd next]; simpl.
    + intros H. inversion H; subst. exact Haw.
    + destruct next as [|e next']; simpl; [destruct alw; simpl|];
        intros H; inversion H; subst; simpl; intros Hoff;
        try (split; [reflexivity|reflexivity]);
        destruct (Haw Hoff) as [Habs _]; discriminate.
  - unfold rsu_on_new_message. cbn [bind emit].
    destruct packet as [|sq payload].
    { destruct ROOT; [destruct rcb|]; simpl; intros H; inversion H; subst;
        exact Haw. }
    destruct ROOT.
    + cbn [rsu_on_new_message_for_root_cb rsu_history].
      destruct rcb;
        [destruct (History.rsu_check_history (History.rsu_history_list h)
                     (decode_id from) sq)|];
        simpl; intros H; inversion H; subst; exact Haw.
    + cbn [rsu_history].
      destruct (History.rsu_check_history (History.rsu_history_list h)
                  (decode_id from) sq).
      * simpl. intros H. inversion H; subst. exact Haw.
      * destruct (History.rsu_add_history h (decode_id from) sq)
          as [h'|]; [|simpl; discriminate].
        unfold set_history. cbn [rsu_timer rsu_queue rsu_onLostMessageCB
          rsu_seqno rsu_is_online rsu_is_allowed_to_sleep rsu_parent
          rsu_messages_in_queue rsu_on_new_message_for_root_cb].
        intros H.
        assert (Hs : snd (rsunicast_send payload
                            (mk_state tm q cb sn onl alw p miq rcb h'))
                     = Some s').
        { destruct (rsunicast_send payload
                      (mk_state tm q cb sn onl alw p miq rcb h')) as [es r].
          exact H. }
        apply Hsend in Hs. intros Hoff. congruence.
  - unfold rsunicast_allowSleeping. simpl.
    destruct q; simpl; intros H; inversion H; subst; simpl; intros Hoff.
    + split; reflexivity.
    + destruct (Haw Hoff) as [Habs _]. discriminate.
  - unfold rsunicast_disallowSleeping. simpl.
    destruct onl; simpl; intros H; inversion H; subst; simpl;
      intros Hoff; discriminate.
  - simpl. intros H. inversion H; subst. exact Haw.
Qed.

Lemma input_ok_has_seqno (i : input) : input_ok i = true -> has_seqno i.
Proof.
  destruct i as [payload| | |from [|sq payload]| | |id]; cbn; auto.
  discriminate.
Qed.

Lemma steps_keep_awake (ROOT : bool) (ins : list input) :
  forall s,
  forallb input_ok ins = true ->
  timer_ok s -> History.history_ok (rsu_history s) -> awake_ok s ->
  exists s', snd (steps ROOT ins s) = Some s' /\ awake_ok s'.
Proof.
  induction ins as [|i ins IH]; intros s Hin Ht Hh Ha.
  - exists s. split; [reflexivity|exact Ha].
  - cbn [steps]. cbn [forallb] in Hin. apply andb_prop in Hin.
    destruct Hin as [Hi Hin].
    destruct (step_completes ROOT i s (input_ok_has_seqno i Hi) Ht Hh)
      as (s1 & Hs1 & Ht1 & Hh1).
    pose proof (step_keeps_awake ROOT i s s1 Ht Ha Hs1) as Ha1.
    rewrite (snd_bind _ _ s1 Hs1). apply IH; assumption.
Qed.

(** X7.  The transport does not sleep on the job.  After [rsunicast_init],
    whatever happens (sends of fewer than 65535 bytes, timer expiries,
    acknowledgements, data frames that carry their sequence number and at
    most 65535 bytes, permissions to sleep and their withdrawal, new
    parents), every entry point runs to its end, and whenever the channels
    are closed the queue is empty and sleeping is allowed. *)
Theorem channels_close_only_when_idle (ROOT : bool) (ins : list input) :
  forallb input_ok ins = true ->
  exists s',
    snd (steps ROOT ins initialized) = Some s'
    /\ (rsu_is_online s' = false ->
        rsu_queue s' = [] /\ rsu_is_allowed_to_sleep s' = true).
Proof.
  intros Hin.
  destruct (steps_keep_awake ROOT ins initialized Hin) as (s' & Hs & Ha).
  - intros H. exfalso. apply H. reflexivity.
  - apply empty_ok.
  - intros H. discriminate.
  - exists s'. split; [exact Hs|exact Ha].
Qed.

Lemma channels_close_only_when_idle_witness :
  exists s',
    snd (steps false
           [InAllowSleeping; InData (mk_linkaddr 0 1) [7; 42]; InTimer; InAck]
           initialized) = Some s'
    /\ (rsu_is_online s' = false ->
        rsu_queue s' = [] /\ rsu_is_allowed_to_sleep s' = true).
Proof.
  apply (channels_close_only_when_idle false
           [InAllowSleeping; InData (mk_linkaddr 0 1) [7; 42]; InTimer; InAck]).
  reflexivity.
Defined.

(** X8.  A node that is not the root forwards a message once.  Its history
    is what calls of [rsu_add_history] on the empty history leave; a frame
    arrives that carries a sequence number and a payload of fewer than
    65535 bytes; its sender is not buried in the history, and its pair is
    not in it.  Then the payload is put in the queue behind a sequence
    number of this node, with its length plus one as the size; and when
    the same frame arrives again it is acknowledged and nothing else
    happens: the state stays as it is. *)
Theorem forwarder_enqueues_a_message_once (calls : list (Z * Z))
    (from : linkaddr_t) (seqno : Z) (payload : list Z) (s : state) :
  Z.of_nat (length payload) < 65535 ->
  History.add_all History.empty calls = Some (rsu_history s) ->
  History.buried (History.rsu_history_list (rsu_history s)) (decode_id from)
  = false ->
  History.rsu_check_history (History.rsu_history_list (rsu_history s))
    (decode_id from) seqno = false ->
  exists s1,
    snd (rsu_on_new_message false from (seqno :: payload) s) = Some s1
    /\ rsu_queue s1
       = rsu_queue s
         ++ [mk_qe (rsu_seqno s :: payload) (Z.of_nat (length payload) + 1) 0]
    /\ rsu_on_new_message false from (seqno :: payload) s1
       = ([EvUnicastSend rsu_ack_channel (encode_id (decode_id from)) [ACK]],
          Some s1).
Proof.
  intros Hlen Hcalls Hbur Hnew.
  destruct (add_then_check_finds_helper calls (rsu_history s)
              (decode_id from) seqno Hcalls Hbur)
    as (h' & Hadd & Hfound).
  destruct s as [tm q cb sn onl alw p miq rcb h].
  cbn [rsu_history rsu_queue rsu_seqno] in *.
  unfold rsu_on_new_message. cbn [bind emit rsu_history].
  rewrite Hnew, Hadd. unfold set_history.
  cbn [rsu_timer rsu_queue rsu_onLostMessageCB rsu_seqno rsu_is_online
       rsu_is_allowed_to_sleep rsu_parent rsu_messages_in_queue
       rsu_on_new_message_for_root_cb].
  rewrite send_explicit. cbn [snd].
  rewrite (uint16_small (Z.of_nat (length payload) + 1)) by lia.
  eexists. split; [reflexivity|]. split; [reflexivity|].
  cbn [rsu_history]. rewrite Hfound. reflexivity.
Qed.

Lemma forwarder_witness :
  exists s1,
    snd (rsu_on_new_message false (mk_linkaddr 0 1) [8; 42]
           (set_history (History.mk_history [History.mk_elem 1 7] 1)
              initialized)) = Some s1
    /\ rsu_queue s1 = [] ++ [mk_qe [0; 42] (Z.of_nat (length [42]) + 1) 0]
    /\ rsu_on_new_message false (mk_linkaddr 0 1) [8; 42] s1
       = ([EvUnicastSend rsu_ack_channel
             (encode_id (decode_id (mk_linkaddr 0 1))) [ACK]], Some s1).
Proof.
  apply (forwarder_enqueues_a_message_once [(1, 7)] (mk_linkaddr 0 1) 8 [42]
           (set_history (History.mk_history [History.mk_elem 1 7] 1)
              initialized)).
  - cbn. lia.
  - reflexivity.
  - reflexivity.
  - reflexivity.
Defined.

Lemma given_up_app (a b : list event) :
  given_up (a ++ b) = given_up a + given_up b.
Proof.
  unfold given_up. rewrite filter_app, length_app. lia.
Qed.

Lemma uint16_add_l (a b : Z) : uint16 (uint16 a + b) = uint16 (a + b).
Proof. unfold uint16. apply Zplus_mod_idemp_l. Qed.

(** What is left to show once an entry point has returned. *)
Lemma counted_intro (g k : Z) (q q' : list RSUnicastQueueElement)
    (miq miq' : Z) (evs : list event) :
  miq = uint16 (Z.of_nat (length q) + g) ->
  miq' = uint16 (miq + k) ->
  Z.of_nat (length q') + given_up evs = Z.of_nat (length q) + k ->
  miq' = uint16 (Z.of_nat (length q') + (g + given_up evs)).
Proof.
  intros -> -> H. rewrite uint16_add_l. apply (f_equal uint16). lia.
Qed.

Lemma uint16_same (miq g : Z) (q : list RSUnicastQueueElement) :
  miq = uint16 (Z.of_nat (length q) + g) -> miq = uint16 (miq + 0).
Proof.
  intros ->. rewrite uint16_add_l. apply (f_equal uint16). lia.
Qed.

(** Every entry point keeps the counter in step with the queue, except
    that a message given up stays counted. *)
Lemma step_counts (ROOT : bool) (i : input) (s s' : state) (g : Z)
    (evs : list event) :
  counted g s ->
  step ROOT i s = (evs, Some s') ->
  counted (g + given_up evs) s'.
Proof.
  destruct s as [tm q cb sn onl alw p miq rcb h].
  unfold counted. cbn [rsu_onLostMessageCB rsu_messages_in_queue rsu_queue].
  intros (Hcb & Hm). subst cb.
  pose proof (uint16_same miq g q Hm) as Hsame.
  assert (Hsend : forall payload tm onl h evs s',
            rsunicast_send payload
              (mk_state tm q true sn onl alw p miq rcb h) = (evs, Some s') ->
            rsu_onLostMessageCB s' = true
            /\ rsu_messages_in_queue s'
               = uint16 (Z.of_nat (length (rsu_queue s'))
                         + (g + given_up evs))).
  { intros payload tm0 onl0 h0 evs0 s0 H. rewrite send_explicit in H.
    inversion H; subst evs0 s0.
    cbn [rsu_onLostMessageCB rsu_messages_in_queue rsu_queue].
    split; [reflexivity|].
    apply (counted_intro g 1 q _ miq _ _ Hm eq_refl).
    rewrite length_app. destruct onl0; unfold given_up; cbn; lia. }
  destruct i as [payload| | |from packet| | |id]; cbn [step].
  - apply Hsend.
  - unfold ctimer_expires. cbn [rsu_timer]. destruct tm as [[|]|].
    + unfold rsu_send_next_message, set_timer, set_queue, emit, ret.
      cbn [rsu_parent rsu_queue rsu_timer rsu_onLostMessageCB rsu_seqno
        rsu_is_online rsu_is_allowed_to_sleep rsu_messages_in_queue
        rsu_on_new_message_for_root_cb rsu_history].
      destruct (p =? 0); [|destruct q as [|hd next]; [discriminate|]];
        cbn [bind app fst snd]; intros H; inversion H; subst evs s';
        cbn [rsu_onLostMessageCB rsu_messages_in_queue rsu_queue];
        (split; [reflexivity|]);
        apply (counted_intro g 0 _ _ miq _ _ Hm Hsame);
        unfold given_up; cbn [filter is_given_up length]; lia.
    + unfold rsu_on_ack_timeout, go_to_sleep, set_timer, set_queue,
        set_is_online, emit, ret.
      cbn [rsu_parent rsu_queue rsu_timer rsu_onLostMessageCB rsu_seqno
        rsu_is_online rsu_is_allowed_to_sleep rsu_messages_in_queue
        rsu_on_new_message_for_root_cb rsu_history].
      destruct q as [|hd next]; [discriminate|].
      cbn [bind app].
      destruct (tries hd >? MAX_TRIES) eqn:Et.
      * destruct next as [|e next']; [destruct alw|];
          cbn [is_nil andb bind app rsu_queue rsu_is_allowed_to_sleep
            rsu_timer rsu_onLostMessageCB rsu_seqno rsu_is_online
            rsu_parent rsu_messages_in_queue rsu_on_new_message_for_root_cb
            rsu_history];
          intros H; inversion H; subst evs s';
          cbn [rsu_onLostMessageCB rsu_messages_in_queue rsu_queue];
          (split; [reflexivity|]);
          apply (counted_intro g 0 _ _ miq _ _ Hm Hsame);
          unfold given_up; cbn [filter is_given_up length];
          rewrite Et; cbn [length]; lia.
      * cbn [is_nil andb bind app rsu_queue rsu_is_allowed_to_sleep
          rsu_timer rsu_onLostMessageCB rsu_seqno rsu_is_online
          rsu_parent rsu_messages_in_queue rsu_on_new_message_for_root_cb
          rsu_history].
        intros H; inversion H; subst evs s'.
        cbn [rsu_onLostMessageCB rsu_messages_in_queue rsu_queue].
        split; [reflexivity|].
        apply (counted_intro g 0 _ _ miq _ _ Hm Hsame).
        unfold given_up. cbn [filter is_given_up length].
        rewrite Et. cbn [length]. lia.
    + unfold ret. intros H; inversion H; subst evs s'.
      cbn [rsu_onLostMessageCB rsu_messages_in_queue rsu_queue].
      split; [reflexivity|].
      apply (counted_intro g 0 _ _ miq _ _ Hm Hsame).
      unfold given_up. cbn [filter is_given_up length]. lia.
  - unfold rsu_on_recieve_ack, go_to_sleep, set_timer, set_queue,
      set_messages_in_queue, set_is_online, emit, ret.
    cbn [rsu_parent rsu_queue rsu_timer rsu_onLostMessageCB rsu_seqno
      rsu_is_online rsu_is_allowed_to_sleep rsu_messages_in_queue
      rsu_on_new_message_for_root_cb rsu_history].
    destruct q as [|hd next].
    + intros H; inversion H; subst evs s'.
      cbn [rsu_onLostMessageCB rsu_messages_in_queue rsu_queue].
      split; [reflexivity|].
      apply (counted_intro g 0 _ _ miq _ _ Hm Hsame).
      unfold given_up. cbn [filter is_given_up length]. lia.
    + destruct next as [|e next']; [destruct alw|];
        cbn [is_nil andb rsu_queue rsu_is_allowed_to_sleep
          rsu_timer rsu_onLostMessageCB rsu_seqno rsu_is_online
          rsu_parent rsu_messages_in_queue rsu_on_new_message_for_root_cb
          rsu_history];
        intros H; inversion H; subst evs s';
        cbn [rsu_onLostMessageCB rsu_messages_in_queue rsu_queue];
        (split; [reflexivity|]);
        apply (counted_intro g (-1) _ _ miq _ _ Hm eq_refl);
        unfold given_up; cbn [filter is_given_up length]; lia.
  - unfold rsu_on_new_message, emit, ret, fault. cbn [bind].
    destruct packet as [|sq payload].
    { destruct ROOT;
        [cbn [rsu_on_new_message_for_root_cb]; destruct rcb|];
        try discriminate.
      cbn [app]. intros H; inversion H; subst evs s'.
      cbn [rsu_onLostMessageCB rsu_messages_in_queue rsu_queue].
      split; [reflexivity|].
      apply (counted_intro g 0 _ _ miq _ _ Hm Hsame).
      unfold given_up. cbn [filter is_given_up length]. lia. }
    destruct ROOT.
    + cbn [rsu_on_new_message_for_root_cb rsu_history].
      destruct rcb;
        [destruct (History.rsu_check_history (History.rsu_history_list h)
                     (decode_id from) sq)|];
        cbn [app]; intros H; inversion H; subst evs s';
        cbn [rsu_onLostMessageCB rsu_messages_in_queue rsu_queue];
        (split; [reflexivity|]);
        apply (counted_intro g 0 _ _ miq _ _ Hm Hsame);
        unfold given_up; cbn [filter is_given_up length]; lia.
    + cbn [rsu_history].
      destruct (History.rsu_check_history (History.rsu_history_list h)
                  (decode_id from) sq).
      * cbn [app]. intros H; inversion H; subst evs s'.
        cbn [rsu_onLostMessageCB rsu_messages_in_queue rsu_queue].
        split; [reflexivity|].
        apply (counted_intro g 0 _ _ miq _ _ Hm Hsame).
        unfold given_up. cbn [filter is_given_up length]. lia.
      * destruct (History.rsu_add_history h (decode_id from) sq)
          as [h'|]; [|discriminate].
        unfold set_history. cbn [rsu_timer rsu_queue rsu_onLostMessageCB
          rsu_seqno rsu_is_online rsu_is_allowed_to_sleep rsu_parent
          rsu_messages_in_queue rsu_on_new_message_for_root_cb].
        destruct (rsunicast_send payload
                    (mk_state tm q true sn onl alw p miq rcb h'))
          as [es r] eqn:Hs.
        intros H. inversion H; subst evs r.
        destruct (Hsend _ _ _ _ _ _ Hs) as (H1 & H2).
        split; [exact H1|]. rewrite H2. apply (f_equal uint16).
        unfold given_up. cbn [app filter is_given_up]. lia.
  - unfold rsunicast_allowSleeping, go_to_sleep, set_is_allowed_to_sleep,
      set_is_online, emit, ret.
    cbn [rsu_parent rsu_queue rsu_timer rsu_onLostMessageCB rsu_seqno
      rsu_is_online rsu_is_allowed_to_sleep rsu_messages_in_queue
      rsu_on_new_message_for_root_cb rsu_history].
    destruct q; cbn [is_nil]; intros H; inversion H; subst evs s';
      cbn [rsu_onLostMessageCB rsu_messages_in_queue rsu_queue];
      (split; [reflexivity|]);
      apply (counted_intro g 0 _ _ miq _ _ Hm Hsame);
      unfold given_up; cbn [filter is_given_up length]; lia.
  - unfold rsunicast_disallowSleeping, wake_up, set_is_allowed_to_sleep,
      set_is_online, emit, ret.
    cbn [rsu_parent rsu_queue rsu_timer rsu_onLostMessageCB rsu_seqno
      rsu_is_online rsu_is_allowed_to_sleep rsu_messages_in_queue
      rsu_on_new_message_for_root_cb rsu_history].
    destruct onl; intros H; inversion H; subst evs s';
      cbn [rsu_onLostMessageCB rsu_messages_in_queue rsu_queue];
      (split; [reflexivity|]);
      apply (counted_intro g 0 _ _ miq _ _ Hm Hsame);
      unfold given_up; cbn [filter is_given_up length]; lia.
  - unfold ret, rsunicast_setparent, set_parent.
    intros H; inversion H; subst evs s'.
    cbn [rsu_onLostMessageCB rsu_messages_in_queue rsu_queue].
    split; [reflexivity|].
    apply (counted_intro g 0 _ _ miq _ _ Hm Hsame).
    unfold given_up. cbn [filter is_given_up length]. lia.
Qed.

Lemma steps_count (ROOT : bool) (ins : list input) :
  forall (s s' : state) (g : Z) (evs : list event),
  counted g s ->
  steps ROOT ins s = (evs, Some s') ->
  counted (g + given_up evs) s'.
Proof.
  induction ins as [|i ins IH]; intros s s' g evs Hc; cbn [steps].
  - unfold ret. intros H. inversion H; subst.
    unfold given_up. cbn. rewrite Z.add_0_r. exact Hc.
  - destruct (step ROOT i s) as [es [s1|]] eqn:Hstep; cbn [bind];
      [|discriminate].
    destruct (steps ROOT ins s1) as [es' r] eqn:Hrest.
    intros H. inversion H; subst.
    pose proof (step_counts ROOT i s s1 g es Hc Hstep) as Hc1.
    pose proof (IH s1 s' _ es' Hc1 Hrest) as Hc2.
    rewrite given_up_app, Z.add_assoc. exact Hc2.
Qed.

(** X29.  What [rsu_messages_in_queue] counts.  With a failure callback
    registered after [rsunicast_init], whatever happens (sends of fewer
    than 65535 bytes, data frames that carry their sequence number and at
    most 65535 bytes, and the other entry points), every entry point runs
    to its end and the counter is, as a [uint16_t], the length of the
    queue plus the number of messages given up so far (the calls of the
    callback with more than [MAX_TRIES] tries): [rsunicast_send] counts a
    message in, the acknowledgement counts it out, but giving a message up
    takes it from the queue and leaves it counted. *)
Theorem given_up_messages_stay_counted (ROOT : bool) (ins : list input) :
  forallb input_ok ins = true ->
  exists evs s',
    steps ROOT ins (rsunicast_setFailureCallback true initialized)
    = (evs, Some s')
    /\ rsu_messages_in_queue s'
       = uint16 (Z.of_nat (length (rsu_queue s')) + given_up evs).
Proof.
  intros Hin.
  destruct (steps_keep_awake ROOT ins
              (rsunicast_setFailureCallback true initialized) Hin)
    as (s' & Hs & _).
  - intros H. exfalso. apply H. reflexivity.
  - apply empty_ok.
  - intros H. discriminate.
  - destruct (steps ROOT ins (rsunicast_setFailureCallback true initialized))
      as [evs r] eqn:Hsteps.
    cbn [snd] in Hs. subst r. exists evs, s'. split; [reflexivity|].
    assert (H0 : counted 0 (rsunicast_setFailureCallback true initialized)).
    { split; reflexivity. }
    destruct (steps_count ROOT ins _ _ _ _ H0 Hsteps) as (_ & Hm).
    exact Hm.
Qed.

(** X29 at a message that is given up: one send, six tries without an
    acknowledgement; the queue is empty again and the counter is 1. *)
Lemma given_up_messages_witness :
  exists evs s',
    steps false (InSetParent 9 :: InSend [42] :: repeat InTimer 12)
      (rsunicast_setFailureCallback true initialized)
    = (evs, Some s')
    /\ rsu_messages_in_queue s'
       = uint16 (Z.of_nat (length (rsu_queue s')) + given_up evs).
Proof.
  apply (given_up_messages_stay_counted false
           (InSetParent 9 :: InSend [42] :: repeat InTimer 12)).
  reflexivity.
Defined.

End TransportMore.

(** ** More on the neighbourhood *)

Section NeighbourhoodMore.

Import PVN.

(** X9.  What a frame brings can be looked up: after
    [on_new_neighbor_information] for a frame of at least
    [size_of_variable] bytes, whatever the neighbourhood was, [pvn_getNbr]
    finds an entry for the sender, and it carries the first
    [size_of_variable] bytes of the frame and the clock of the arrival. *)
Theorem frame_is_found_afterwards (p : PVN) (from : linkaddr_t)
    (data : list Z) (now : Z) :
  size_of_variable p <= Z.of_nat (length data) ->
  exists a,
    pvn_getNbr (nbrList (fst (on_new_neighbor_information_at p from data now)))
      (decode_id from)
    = Some (mk_nbr (decode_id from) a
              (Some (firstn (Z.to_nat (size_of_variable p)) data)) now).
Proof.
  intros _. fold (copy_of p data).
  unfold on_new_neighbor_information_at. set (i := decode_id from).
  destruct (pvn_getNbr (nbrList p) i) as [n|] eqn:Hget.
  - destruct (nbrList p) as [|m l] eqn:Hl; [discriminate|].
    destruct (find_or_create_found p i from data now (m :: l) n Hget)
      as (l1 & l2 & Hsplit & Hnone & Hfc).
    rewrite Hfc, refresh_entry. cbn [fst nbrList set_nbrs].
    rewrite getNbr_app, Hnone. cbn [pvn_getNbr id].
    destruct (getNbr_id _ _ _ Hget) as [Hid _]. rewrite Hid, Z.eqb_refl.
    exists (addr n). reflexivity.
  - destruct (nbrList p) as [|m l] eqn:Hl.
    + cbn [find_or_create id]. rewrite Z.eqb_refl.
      pose proof (refresh_entry p (mk_nbr i from None 0) data now) as Hr.
      destruct (refresh p (mk_nbr i from None 0) data now) as [[n' evs] inc].
      cbn [fst] in Hr. subst n'. cbn [fst nbrList set_nbrs pvn_getNbr id].
      rewrite Z.eqb_refl. exists from. reflexivity.
    + destruct (find_or_create_missing p i from data now (m :: l)
                  ltac:(discriminate) Hget) as (l1 & last & Hsplit & Hfc).
      rewrite Hfc, refresh_entry. cbn [fst nbrList set_nbrs id addr].
      rewrite Hsplit, getNbr_app in Hget.
      destruct (pvn_getNbr l1 i) eqn:H1; [discriminate|].
      cbn [pvn_getNbr] in Hget.
      rewrite getNbr_app, H1. cbn [pvn_getNbr id].
      destruct (id last =? i); [discriminate|].
      rewrite Z.eqb_refl. exists null_addr. reflexivity.
Qed.

(** X9 at a frame of five bytes from node 3 for a neighbourhood of
    variables of four bytes that holds node 2: the entry of node 3 carries
    the first four bytes. *)
Lemma frame_is_found_witness :
  exists a,
    pvn_getNbr
      (nbrList
         (fst (on_new_neighbor_information_at
                 (set_nbrs [mk_nbr 2 null_addr (Some [1; 2; 3; 4]) 5] 1
                    (fst (pvn_init 154 4 15)))
                 (mk_linkaddr 0 3) [9; 8; 7; 6; 5] 8)))
      (decode_id (mk_linkaddr 0 3))
    = Some (mk_nbr (decode_id (mk_linkaddr 0 3)) a
              (Some (firstn
                       (Z.to_nat
                          (size_of_variable
                             (set_nbrs
                                [mk_nbr 2 null_addr (Some [1; 2; 3; 4]) 5] 1
                                (fst (pvn_init 154 4 15)))))
                       [9; 8; 7; 6; 5])) 8).
Proof.
  apply (frame_is_found_afterwards
           (set_nbrs [mk_nbr 2 null_addr (Some [1; 2; 3; 4]) 5] 1
              (fst (pvn_init 154 4 15)))
           (mk_linkaddr 0 3) [9; 8; 7; 6; 5] 8).
  cbn. lia.
Defined.

(** X10.  A frame is nobody else's business: for every identifier other
    than the sender's, [pvn_getNbr] finds after the frame what it found
    before, as far as identifier, image and time stamp go. *)
Theorem frame_leaves_the_others (p : PVN) (from : linkaddr_t)
    (data : list Z) (now : Z) (j : Z) :
  j <> decode_id from ->
  option_map seen
    (pvn_getNbr (nbrList (fst (on_new_neighbor_information_at p from data now)))
       j)
  = option_map seen (pvn_getNbr (nbrList p) j).
Proof.
  intros Hj. unfold on_new_neighbor_information_at. set (i := decode_id from).
  assert (Hij : (i =? j) = false)
    by (apply Z.eqb_neq; intro E; apply Hj; symmetry; exact E).
  destruct (pvn_getNbr (nbrList p) i) as [n|] eqn:Hget.
  - destruct (nbrList p) as [|m l] eqn:Hl; [discriminate|].
    destruct (find_or_create_found p i from data now (m :: l) n Hget)
      as (l1 & l2 & Hsplit & Hnone & Hfc).
    rewrite Hfc, refresh_entry. cbn [fst nbrList set_nbrs].
    destruct (getNbr_id _ _ _ Hget) as [Hid _].
    rewrite Hsplit, !getNbr_app. cbn [pvn_getNbr id].
    rewrite Hid, Hij. reflexivity.
  - destruct (nbrList p) as [|m l] eqn:Hl.
    + cbn [find_or_create id]. rewrite Z.eqb_refl.
      pose proof (refresh_entry p (mk_nbr i from None 0) data now) as Hr.
      destruct (refresh p (mk_nbr i from None 0) data now) as [[n' evs] inc].
      cbn [fst] in Hr. subst n'. cbn [fst nbrList set_nbrs pvn_getNbr id].
      rewrite Hij. reflexivity.
    + destruct (find_or_create_missing p i from data now (m :: l)
                  ltac:(discriminate) Hget) as (l1 & last & Hsplit & Hfc).
      rewrite Hfc, refresh_entry. cbn [fst nbrList set_nbrs id addr].
      rewrite Hsplit, !getNbr_app. cbn [pvn_getNbr id].
      rewrite Hij.
      destruct (pvn_getNbr l1 j); [reflexivity|].
      destruct (id last =? j); reflexivity.
Qed.

Lemma frame_leaves_the_others_witness :
  option_map seen
    (pvn_getNbr
       (nbrList
          (fst (on_new_neighbor_information_at
                  (set_nbrs [mk_nbr 2 null_addr (Some [1; 2; 3; 4]) 5] 1
                     (fst (pvn_init 154 4 15)))
                  (mk_linkaddr 0 3) [9; 9; 9; 9] 8))) 2)
  = Some (2, Some [1; 2; 3; 4], 5).
Proof.
  apply (frame_leaves_the_others
           (set_nbrs [mk_nbr 2 null_addr (Some [1; 2; 3; 4]) 5] 1
              (fst (pvn_init 154 4 15)))
           (mk_linkaddr 0 3) [9; 9; 9; 9] 8 2).
  vm_compute. discriminate.
Defined.



(** A frame keeps the list well formed, whatever callbacks are set. *)
Lemma frame_keeps_list (p : PVN) (from : linkaddr_t) (data : list Z)
    (now : Z) :
  nbrs_ok (nbrList p) ->
  nbrs_ok (nbrList (fst (on_new_neighbor_information_at p from data now)))
  /\ incl (ids (nbrList (fst (on_new_neighbor_information_at p from data now))))
          (decode_id from :: ids (nbrList p)).
Proof.
  intros (Hnd & Hrange & Hpop).
  unfold on_new_neighbor_information_at.
  set (i := decode_id from).
  assert (Hi : is_uint16 i) by apply decode_id_range.
  destruct (pvn_getNbr (nbrList p) i) as [n|] eqn:Hget.
  - destruct (nbrList p) as [|m l] eqn:Hl; [discriminate|].
    destruct (find_or_create_found p i from data now (m :: l) n Hget)
      as (l1 & l2 & Hsplit & Hnone & Hfc).
    rewrite Hfc, refresh_entry. cbn [fst nbrList set_nbrs].
    assert (Hids : ids (l1 ++ mk_nbr (id n) (addr n) (Some (copy_of p data)) now
                          :: l2) = ids (m :: l)).
    { rewrite Hsplit. unfold ids. rewrite !map_app. reflexivity. }
    split; [split; [|split]|].
    + rewrite Hids. exact Hnd.
    + rewrite Hids. exact Hrange.
    + unfold populated in *. rewrite Hsplit in Hpop.
      apply Forall_app in Hpop. destruct Hpop as [H1 H2].
      apply Forall_app. split; [exact H1|].
      inversion H2; subst. constructor; [discriminate|assumption].
    + rewrite Hids. apply incl_tl, incl_refl.
  - destruct (nbrList p) as [|m l] eqn:Hl.
    + cbn [find_or_create id]. rewrite Z.eqb_refl.
      pose proof (refresh_entry p (mk_nbr i from None 0) data now) as Hr.
      destruct (refresh p (mk_nbr i from None 0) data now) as [[n' evs] inc].
      cbn [fst] in Hr. subst n'. cbn [fst nbrList set_nbrs id addr].
      split; [split; [|split]|].
      * simpl. constructor; [intros []|constructor].
      * simpl. constructor; [exact Hi|constructor].
      * constructor; [discriminate|constructor].
      * simpl. intros x [<-|[]]. left. reflexivity.
    + destruct (find_or_create_missing p i from data now (m :: l)
                  ltac:(discriminate) Hget) as (l1 & last & Hsplit & Hfc).
      rewrite Hfc, refresh_entry. cbn [fst nbrList set_nbrs id addr].
      assert (Hids : ids (l1 ++ [mk_nbr (id last) from (public_var last)
                                   (timestamp last);
                                 mk_nbr i null_addr (Some (copy_of p data)) now])
                     = ids (m :: l) ++ [i]).
      { rewrite Hsplit. unfold ids. rewrite !map_app. simpl.
        rewrite <- app_assoc. reflexivity. }
      apply getNbr_none in Hget.
      split; [split; [|split]|].
      * rewrite Hids. apply NoDup_app; [exact Hnd| |].
        { constructor; [intros []|constructor]. }
        { intros x Hx [<-|[]]. exact (Hget Hx). }
      * rewrite Hids. apply Forall_app. split; [exact Hrange|].
        constructor; [exact Hi|constructor].
      * unfold populated in *. rewrite Hsplit in Hpop.
        apply Forall_app in Hpop. destruct Hpop as [H1 H2].
        apply Forall_app. split; [exact H1|].
        inversion H2; subst.
        constructor; [assumption|constructor; [discriminate|constructor]].
      * rewrite Hids. intros x Hx. apply in_app_or in Hx.
        destruct Hx as [Hx|[<-|[]]]; [right; exact Hx|left; reflexivity].
Qed.

Lemma steps_keep_list (ins : list input) :
  forall p,
  nbrs_ok (nbrList p) ->
  nbrs_ok (nbrList (fst (steps ins p)))
  /\ incl (ids (nbrList (fst (steps ins p)))) (senders ins ++ ids (nbrList p)).
Proof.
  induction ins as [|i ins IH]; intros p Hok.
  - simpl. split; [exact Hok|apply incl_refl].
  - cbn [steps].
    assert (Hstep :
      nbrs_ok (nbrList (fst (step i p)))
      /\ incl (ids (nbrList (fst (step i p))))
              (senders [i] ++ ids (nbrList p))).
    { destruct i as [from data now|now]; cbn [step senders flat_map].
      - apply frame_keeps_list. exact Hok.
      - destruct (sweep_keeps p now) as (Hincl & Hnd & _).
        destruct Hok as (Hok1 & Hok2 & Hok3).
        split; [split; [|split]|].
        + apply Hnd. exact Hok1.
        + unfold ids. rewrite Forall_forall in *. intros x Hx.
          apply Hok2. exact (incl_map id Hincl _ Hx).
        + unfold populated in *. rewrite Forall_forall in *. intros x Hx.
          apply Hok3. apply Hincl. exact Hx.
        + simpl. exact (incl_map id Hincl). }
    destruct Hstep as (H1 & H3).
    destruct (step i p) as [p' evs]. cbn [fst] in H1, H3.
    destruct (IH p' H1) as (H4 & H6).
    destruct (steps ins p') as [p'' evs']. cbn [fst] in *.
    split; [exact H4|].
    intros x Hx. specialize (H6 x Hx).
    replace (senders (i :: ins)) with (senders [i] ++ senders ins)
      by (unfold senders; simpl; rewrite app_nil_r; reflexivity).
    apply in_app_or in H6. destruct H6 as [H6|H6].
    + apply in_or_app. left. apply in_or_app. right. exact H6.
    + specialize (H3 x H6). apply in_app_or in H3. destruct H3 as [H3|H3].
      * apply in_or_app. left. apply in_or_app. left. exact H3.
      * apply in_or_app. right. exact H3.
Qed.

(** X12.  The neighbour list of a neighbourhood that started empty, after
    any frames and sweeps and with any callbacks: no identifier has two
    entries, every entry has its buffer ([public_var] is never null in the
    list a client walks), and every entry belongs to the sender of one of
    the frames. *)
Theorem one_entry_per_sender_each_with_a_buffer (p : PVN) (ins : list input) :
  nbrList p = [] ->
  NoDup (ids (nbrList (fst (steps ins p))))
  /\ populated (nbrList (fst (steps ins p)))
  /\ incl (ids (nbrList (fst (steps ins p)))) (senders ins).
Proof.
  intros Hl.
  assert (Hok : nbrs_ok (nbrList p)).
  { rewrite Hl. split; [constructor|]. split; constructor. }
  destruct (steps_keep_list ins p Hok) as ((H1 & _ & H2) & H3).
  split; [exact H1|]. split; [exact H2|].
  rewrite Hl, app_nil_r in H3. exact H3.
Qed.

Lemma one_entry_per_sender_witness :
  NoDup [2; 3]
  /\ populated
       (nbrList
          (fst (steps [InFrame (mk_linkaddr 0 2) [1; 2; 3; 4] 0;
                       InFrame (mk_linkaddr 0 3) [1; 2; 3; 4] 1;
                       InFrame (mk_linkaddr 0 2) [5; 6; 7; 8] 2]
                  (fst (pvn_init 154 4 15)))))
  /\ incl [2; 3] [2; 3; 2].
Proof.
  apply (one_entry_per_sender_each_with_a_buffer (fst (pvn_init 154 4 15))
           [InFrame (mk_linkaddr 0 2) [1; 2; 3; 4] 0;
            InFrame (mk_linkaddr 0 3) [1; 2; 3; 4] 1;
            InFrame (mk_linkaddr 0 2) [5; 6; 7; 8] 2]).
  reflexivity.
Defined.

Lemma remove_at_front_fresh (cbs : PVN_callbacks) (oldest : Z)
    (l : list Nbr) (sz : Z) :
  Forall (fun n => stale oldest n = false) l ->
  remove_at_front cbs oldest l sz = (l, [], sz).
Proof.
  intros H. destruct l as [|n l]; [reflexivity|].
  inversion H as [|? ? Hn _]; subst. unfold stale in Hn.
  cbn [remove_at_front]. rewrite Hn. reflexivity.
Qed.

Lemma remove_behind_fresh (cbs : PVN_callbacks) (oldest : Z)
    (behind : list Nbr) :
  forall (nbr : Nbr) (sz : Z),
  Forall (fun n => stale oldest n = false) behind ->
  remove_behind cbs oldest nbr behind sz = (nbr :: behind, [], sz).
Proof.
  induction behind as [|nx behind IH]; intros nbr sz H; [reflexivity|].
  inversion H as [|? ? Hn Hrest]; subst. unfold stale in Hn.
  cbn [remove_behind]. rewrite Hn, (IH nx sz Hrest). reflexivity.
Qed.

(** X13.  A sweep that finds no time stamp before
    [oldest_timestamp_allowed] does nothing at all: the neighbourhood is
    the same afterwards and no callback is fired.  This is every sweep
    while the clock has not passed the maximum age (the bound is 0 then),
    as long as time stamps are not negative. *)
Theorem sweep_of_fresh_entries_is_idle (p : PVN) (now : Z) :
  Forall (fun n => stale (oldest_timestamp_allowed now
                            (maximum_age_of_neighbor_information p)) n = false)
         (nbrList p) ->
  pvn_remove_old_neighbor_information p now = (p, []).
Proof.
  intros H. unfold pvn_remove_old_neighbor_information.
  rewrite (remove_at_front_fresh _ _ _ _ H).
  destruct p as [sv ma l sz po on cm cb]. cbn [nbrList] in *.
  destruct l as [|nbr behind]; [reflexivity|].
  inversion H as [|? ? _ Hrest]; subst.
  cbn [callbacks maximum_age_of_neighbor_information neighborhood_size] in *.
  rewrite (remove_behind_fresh _ _ _ _ _ Hrest). reflexivity.
Qed.

Lemma sweep_of_fresh_entries_witness :
  pvn_remove_old_neighbor_information
    (set_nbrs [mk_nbr 2 null_addr (Some [1; 2; 3; 4]) 0;
               mk_nbr 3 null_addr (Some [1; 2; 3; 4]) 7] 2
       (fst (pvn_init 154 4 15))) 15
  = (set_nbrs [mk_nbr 2 null_addr (Some [1; 2; 3; 4]) 0;
               mk_nbr 3 null_addr (Some [1; 2; 3; 4]) 7] 2
       (fst (pvn_init 154 4 15)), []).
Proof.
  apply (sweep_of_fresh_entries_is_idle
           (set_nbrs [mk_nbr 2 null_addr (Some [1; 2; 3; 4]) 0;
                      mk_nbr 3 null_addr (Some [1; 2; 3; 4]) 7] 2
              (fst (pvn_init 154 4 15))) 15).
  repeat (apply Forall_cons; [reflexivity|]). apply Forall_nil.
Defined.

Lemma stale_count_cons (oldest : Z) (n : Nbr) (l : list Nbr) :
  stale_count oldest (n :: l)
  = ((if (timestamp n <? oldest)%Z then 1 else 0) + stale_count oldest l)%nat.
Proof.
  unfold stale_count. cbn [filter]. unfold stale at 1.
  destruct (timestamp n <? oldest); reflexivity.
Qed.

(** The first loop removes stale entries only, and stops at a fresh one. *)
Lemma remove_at_front_count (cbs : PVN_callbacks) (oldest : Z)
    (l : list Nbr) :
  forall sz,
  (stale_count oldest (fst (fst (remove_at_front cbs oldest l sz)))
   <= stale_count oldest l)%nat
  /\ (stale_count oldest (fst (fst (remove_at_front cbs oldest l sz)))
      = stale_count oldest l ->
      fst (fst (remove_at_front cbs oldest l sz)) = l)
  /\ match fst (fst (remove_at_front cbs oldest l sz)) with
     | [] => True
     | nbr :: _ => (timestamp nbr <? oldest) = false
     end.
Proof.
  induction l as [|n l IH]; intros sz.
  - cbn. auto.
  - cbn [remove_at_front]. destruct (timestamp n <? oldest) eqn:E.
    + destruct (notify_delete cbs n sz) as [ev sz1].
      destruct (IH sz1) as (H1 & H2 & H3).
      destruct (remove_at_front cbs oldest l sz1) as [[l' evs] sz2].
      cbn [fst] in *. rewrite stale_count_cons, E.
      split; [lia|]. split; [lia|exact H3].
    + cbn [fst]. split; [lia|]. split; [reflexivity|exact E].
Qed.

(** The second loop never adds a stale entry, and removes one when there is
    one behind the cursor. *)
Lemma remove_behind_count (cbs : PVN_callbacks) (oldest : Z) (k : nat) :
  forall (nbr : Nbr) (behind : list Nbr) (sz : Z),
  (length behind <= k)%nat ->
  (stale_count oldest (fst (fst (remove_behind cbs oldest nbr behind sz)))
   <= stale_count oldest (nbr :: behind))%nat
  /\ ((0 < stale_count oldest behind)%nat ->
      (stale_count oldest (fst (fst (remove_behind cbs oldest nbr behind sz)))
       < stale_count oldest (nbr :: behind))%nat).
Proof.
  induction k as [|k IH]; intros nbr behind sz Hlen.
  - destruct behind; [|simpl in Hlen; lia]. cbn [remove_behind fst].
    split; [lia|]. unfold stale_count at 1. cbn. lia.
  - destruct behind as [|nx behind'].
    + cbn [remove_behind fst]. split; [lia|].
      unfold stale_count at 1. cbn. lia.
    + cbn [length] in Hlen. cbn [remove_behind].
      destruct (timestamp nx <? oldest) eqn:E.
      * destruct (notify_delete cbs nx sz) as [ev sz1].
        destruct behind' as [|c0 behind''].
        { cbn [fst]. rewrite !stale_count_cons, E. lia. }
        { cbn [length] in Hlen.
          destruct (IH c0 behind'' sz1 ltac:(lia)) as (H1 & _).
          destruct (remove_behind cbs oldest c0 behind'' sz1)
            as [[l evs] sz2].
          cbn [fst] in *. rewrite !stale_count_cons in *. rewrite E. lia. }
      * destruct (IH nx behind' sz ltac:(lia)) as (H1 & H2).
        destruct (remove_behind cbs oldest nx behind' sz) as [[l evs] sz2].
        cbn [fst] in *. rewrite !stale_count_cons in *. rewrite E in *. lia.
Qed.

(** One sweep lowers the number of stale entries, unless there is none. *)
Lemma sweep_count (p : PVN) (now : Z) :
  let oldest :=
    oldest_timestamp_allowed now (maximum_age_of_neighbor_information p) in
  (stale_count oldest
     (nbrList (fst (pvn_remove_old_neighbor_information p now)))
   <= Nat.pred (stale_count oldest (nbrList p)))%nat.
Proof.
  intros oldest. unfold pvn_remove_old_neighbor_information.
  fold oldest.
  destruct (remove_at_front_count (callbacks p) oldest (nbrList p)
              (neighborhood_size p)) as (H1 & H2 & H3).
  destruct (remove_at_front (callbacks p) oldest (nbrList p)
              (neighborhood_size p)) as [[l1 evs1] sz1].
  cbn [fst] in H1, H2, H3.
  destruct l1 as [|nbr behind].
  - cbn [fst nbrList set_nbrs]. unfold stale_count at 1. cbn. lia.
  - destruct (remove_behind_count (callbacks p) oldest (length behind) nbr
                behind sz1 (le_n _)) as (H4 & H5).
    destruct (remove_behind (callbacks p) oldest nbr behind sz1)
      as [[l2 evs2] sz2].
    cbn [fst nbrList set_nbrs] in *.
    rewrite stale_count_cons, H3 in H4, H5.
    destruct (Nat.eq_dec (stale_count oldest (nbr :: behind))
                (stale_count oldest (nbrList p))) as [Heq|Hne].
    + rewrite stale_count_cons, H3 in Heq.
      destruct (stale_count oldest behind) eqn:Hb; [lia|].
      specialize (H5 ltac:(lia)). lia.
    + rewrite stale_count_cons, H3 in Hne, H1. lia.
Qed.

(** X14.  Repeated sweeps finish the work of one.  A single sweep can leave
    an entry whose time stamp is too old, but every sweep that finds such
    entries removes at least one of them: after as many sweeps at one clock
    as there were such entries (or more), none is left. *)
Theorem repeated_sweeps_remove_every_stale_entry (p : PVN) (now : Z)
    (k : nat) :
  (stale_count (oldest_timestamp_allowed now
                  (maximum_age_of_neighbor_information p)) (nbrList p)
   <= k)%nat ->
  Forall (fun n => stale (oldest_timestamp_allowed now
                            (maximum_age_of_neighbor_information p)) n = false)
    (nbrList (fst (steps (repeat (InSweep now) k) p))).
Proof.
  revert p. induction k as [|k IH]; intros p Hk.
  - cbn [repeat steps fst].
    apply Forall_forall. intros n Hn.
    destruct (stale _ n) eqn:E; [|reflexivity].
    exfalso. unfold stale_count in Hk.
    assert (Hin : In n (filter (stale (oldest_timestamp_allowed now
                           (maximum_age_of_neighbor_information p)))
                          (nbrList p))).
    { apply filter_In. split; assumption. }
    destruct (filter _ (nbrList p)); [destruct Hin|simpl in Hk; lia].
  - cbn [repeat steps step].
    pose proof (sweep_count p now) as Hc. cbv zeta in Hc.
    destruct (sweep_settings p now) as (_ & Hma & _).
    destruct (pvn_remove_old_neighbor_information p now) as [p' evs].
    cbn [fst] in Hc, Hma.
    specialize (IH p'). rewrite Hma in IH.
    specialize (IH ltac:(lia)).
    destruct (steps (repeat (InSweep now) k) p') as [p'' evs'].
    cbn [fst] in *. exact IH.
Qed.

Lemma repeated_sweeps_witness :
  Forall (fun n => stale (oldest_timestamp_allowed 100 15) n = false)
    (nbrList
       (fst (steps (repeat (InSweep 100) 2)
               (set_nbrs [mk_nbr 2 null_addr (Some [1; 2; 3; 4]) 100;
                          mk_nbr 3 null_addr (Some [1; 2; 3; 4]) 0;
                          mk_nbr 4 null_addr (Some [1; 2; 3; 4]) 0] 3
                  (pvn_setCallbacks (mk_callbacks true true true)
                     (fst (pvn_init 154 4 15))))))).
Proof.
  apply (repeated_sweeps_remove_every_stale_entry
           (set_nbrs [mk_nbr 2 null_addr (Some [1; 2; 3; 4]) 100;
                      mk_nbr 3 null_addr (Some [1; 2; 3; 4]) 0;
                      mk_nbr 4 null_addr (Some [1; 2; 3; 4]) 0] 3
              (pvn_setCallbacks (mk_callbacks true true true)
                 (fst (pvn_init 154 4 15)))) 100 2).
  vm_compute. lia.
Defined.

(** X15.  A frame is handed to the neighbourhood of the connection it came
    in on and to no other: the neighbourhoods of the other connections are
    untouched, and a frame on a connection that belongs to no neighbourhood
    changes nothing and is reported as not assignable. *)
Theorem frame_reaches_its_own_neighbourhood (all : list PVN) (c : nat)
    (from : linkaddr_t) (data : list Z) (now : Z) :
  (forall d, d <> c ->
     nth_error (fst (on_new_neighbor_information all c from data now)) d
     = nth_error all d)
  /\ match nth_error all c with
     | Some tmp =>
         nth_error (fst (on_new_neighbor_information all c from data now)) c
         = Some (fst (on_new_neighbor_information_at tmp from data now))
         /\ snd (on_new_neighbor_information all c from data now)
            = snd (on_new_neighbor_information_at tmp from data now)
     | None =>
         fst (on_new_neighbor_information all c from data now) = all
         /\ snd (on_new_neighbor_information all c from data now)
            = [EvNotAssigned]
     end.
Proof.
  revert c. induction all as [|tmp next IH]; intros c.
  - cbn [on_new_neighbor_information fst snd]. destruct c; cbn; auto.
  - destruct c as [|c].
    + cbn [on_new_neighbor_information nth_error].
      destruct (on_new_neighbor_information_at tmp from data now)
        as [tmp' evs].
      cbn [fst snd nth_error]. split; [|auto].
      intros d Hd. destruct d; [congruence|reflexivity].
    + cbn [on_new_neighbor_information nth_error].
      destruct (IH c) as (H1 & H2).
      destruct (on_new_neighbor_information next c from data now)
        as [next' evs].
      cbn [fst snd] in *. split.
      * intros d Hd. destruct d; [reflexivity|].
        cbn [nth_error]. apply H1. congruence.
      * destruct (nth_error next c); [exact H2|].
        destruct H2 as [-> ->]. auto.
Qed.

(** The three shapes of the list after a frame: an entry refreshed in
    place, the first entry of all, or a new entry behind the last one. *)
Lemma frame_shape (p : PVN) (from : linkaddr_t) (data : list Z) (now : Z) :
  (exists l1 n l2,
     nbrList p = l1 ++ n :: l2 /\ id n = decode_id from
     /\ nbrList (fst (on_new_neighbor_information_at p from data now))
        = l1 ++ mk_nbr (id n) (addr n) (Some (copy_of p data)) now :: l2)
  \/ (nbrList p = []
      /\ nbrList (fst (on_new_neighbor_information_at p from data now))
         = [mk_nbr (decode_id from) from (Some (copy_of p data)) now])
  \/ (exists l1 last,
        nbrList p = l1 ++ [last]
        /\ nbrList (fst (on_new_neighbor_information_at p from data now))
           = l1 ++ [mk_nbr (id last) from (public_var last) (timestamp last);
                    mk_nbr (decode_id from) null_addr
                      (Some (copy_of p data)) now]).
Proof.
  unfold on_new_neighbor_information_at. set (i := decode_id from).
  destruct (pvn_getNbr (nbrList p) i) as [n|] eqn:Hget.
  - left. destruct (nbrList p) as [|m l] eqn:Hl; [discriminate|].
    destruct (find_or_create_found p i from data now (m :: l) n Hget)
      as (l1 & l2 & Hsplit & Hnone & Hfc).
    rewrite Hfc, refresh_entry. cbn [fst nbrList set_nbrs].
    exists l1, n, l2. split; [exact Hsplit|].
    split; [apply (getNbr_id _ _ _ Hget)|reflexivity].
  - right. destruct (nbrList p) as [|m l] eqn:Hl.
    + left. split; [reflexivity|].
      cbn [find_or_create id]. rewrite Z.eqb_refl.
      pose proof (refresh_entry p (mk_nbr i from None 0) data now) as Hr.
      destruct (refresh p (mk_nbr i from None 0) data now) as [[n' evs] inc].
      cbn [fst] in Hr. subst n'. reflexivity.
    + right.
      destruct (find_or_create_missing p i from data now (m :: l)
                  ltac:(discriminate) Hget) as (l1 & last & Hsplit & Hfc).
      rewrite Hfc, refresh_entry. cbn [fst nbrList set_nbrs id addr].
      exists l1, last. split; [exact Hsplit|reflexivity].
Qed.

(** A frame removes no identifier from the list. *)
Lemma frame_ids_grow (p : PVN) (from : linkaddr_t) (data : list Z) (now : Z) :
  incl (ids (nbrList p))
       (ids (nbrList (fst (on_new_neighbor_information_at p from data now)))).
Proof.
  destruct (frame_shape p from data now)
    as [(l1 & n & l2 & -> & _ & ->)|[(-> & _)|(l1 & last & -> & ->)]].
  - unfold ids. rewrite !map_app. apply incl_refl.
  - intros x [].
  - unfold ids. rewrite !map_app. cbn [map id].
    apply incl_app; [apply incl_appl, incl_refl|].
    apply incl_appr. intros x [<-|[]]. left. reflexivity.
Qed.

(** Every entry after a frame carries the image of the frame, or the
    image it carried before. *)
Lemma frame_entries (p : PVN) (from : linkaddr_t) (data : list Z) (now : Z)
    (n' : Nbr) :
  In n' (nbrList (fst (on_new_neighbor_information_at p from data now))) ->
  public_var n' = Some (copy_of p data)
  \/ exists n, In n (nbrList p) /\ public_var n' = public_var n.
Proof.
  destruct (frame_shape p from data now)
    as [(l1 & n & l2 & -> & _ & ->)|[(-> & ->)|(l1 & last & -> & ->)]];
    intros Hin.
  - apply in_app_or in Hin. destruct Hin as [Hin|[<-|Hin]].
    + right. exists n'. split; [apply in_or_app; left; exact Hin|reflexivity].
    + left. reflexivity.
    + right. exists n'.
      split; [apply in_or_app; right; right; exact Hin|reflexivity].
  - destruct Hin as [<-|[]]. left. reflexivity.
  - apply in_app_or in Hin. destruct Hin as [Hin|[<-|[<-|[]]]].
    + right. exists n'. split; [apply in_or_app; left; exact Hin|reflexivity].
    + right. exists last.
      split; [apply in_or_app; right; left; reflexivity|reflexivity].
    + left. reflexivity.
Qed.

Lemma getNbr_in (l : list Nbr) (n : Nbr) :
  In n l -> pvn_getNbr l (id n) <> None.
Proof.
  intros Hin Hnone. apply getNbr_none in Hnone. apply Hnone.
  unfold ids. apply in_map. exact Hin.
Qed.

(** With [onDelete] set, the second loop keeps an entry or notifies its
    deletion. *)
Lemma remove_behind_accounts (cbs : PVN_callbacks) (oldest : Z) (k : nat) :
  onDelete cbs = true ->
  forall (nbr : Nbr) (behind : list Nbr) (sz : Z),
  (length behind <= k)%nat ->
  forall n, In n (nbr :: behind) ->
  In n (fst (fst (remove_behind cbs oldest nbr behind sz)))
  \/ In (EvOnDelete n) (snd (fst (remove_behind cbs oldest nbr behind sz))).
Proof.
  intros Hd. induction k as [|k IH]; intros nbr behind sz Hlen n Hin.
  - destruct behind; [|simpl in Hlen; lia]. left. exact Hin.
  - destruct behind as [|nx behind']; [left; exact Hin|].
    cbn [length] in Hlen. cbn [remove_behind].
    destruct (timestamp nx <? oldest).
    + unfold notify_delete. rewrite Hd.
      destruct behind' as [|c0 behind''].
      * cbn [fst snd]. destruct Hin as [<-|[<-|[]]]; [left|right]; left;
          reflexivity.
      * cbn [length] in Hlen.
        pose proof (IH c0 behind'' (uint16 (sz - 1)) ltac:(lia) n) as H.
        destruct (remove_behind cbs oldest c0 behind'' (uint16 (sz - 1)))
          as [[l evs] sz2].
        cbn [fst snd] in *.
        destruct Hin as [<-|[<-|Hin]].
        { left. left. reflexivity. }
        { right. left. reflexivity. }
        { destruct (H Hin) as [H'|H']; [left; right|right; right]; exact H'. }
    + pose proof (IH nx behind' sz ltac:(lia) n) as H.
      destruct (remove_behind cbs oldest nx behind' sz) as [[l evs] sz2].
      cbn [fst snd] in *.
      destruct Hin as [<-|Hin]; [left; left; reflexivity|].
      destruct (H Hin) as [H'|H']; [left; right; exact H'|right; exact H'].
Qed.

(** With [onDelete] set, the sweep keeps an entry or notifies its
    deletion. *)
Lemma sweep_accounts (p : PVN) (now : Z) (n : Nbr) :
  onDelete (callbacks p) = true ->
  In n (nbrList p) ->
  In n (nbrList (fst (pvn_remove_old_neighbor_information p now)))
  \/ In (EvOnDelete n) (snd (pvn_remove_old_neighbor_information p now)).
Proof.
  intros Hd Hin. unfold pvn_remove_old_neighbor_information.
  set (oldest := oldest_timestamp_allowed now
                   (maximum_age_of_neighbor_information p)).
  destruct (remove_at_front_spec (callbacks p) oldest (nbrList p)
              (neighborhood_size p)) as (prefix & Hl & _ & Hev & _).
  destruct (remove_at_front (callbacks p) oldest (nbrList p)
              (neighborhood_size p)) as [[l1 evs1] sz1].
  cbn [fst snd] in Hl, Hev. rewrite Hd in Hev.
  rewrite Hl in Hin. apply in_app_or in Hin.
  assert (Hpre : In n prefix -> In (EvOnDelete n) evs1).
  { intros H. rewrite Hev. apply in_map. exact H. }
  destruct l1 as [|nbr behind].
  - cbn [fst snd]. destruct Hin as [Hin|[]]. right. apply Hpre. exact Hin.
  - pose proof (remove_behind_accounts (callbacks p) oldest (length behind) Hd
                  nbr behind sz1 (le_n _) n) as H.
    destruct (remove_behind (callbacks p) oldest nbr behind sz1)
      as [[l2 evs2] sz2].
    cbn [fst snd nbrList set_nbrs] in *.
    destruct Hin as [Hin|Hin].
    + right. apply in_or_app. left. apply Hpre. exact Hin.
    + destruct (H Hin) as [H'|H']; [left; exact H'|].
      right. apply in_or_app. right. exact H'.
Qed.

(** The sweep keeps every entry whose time stamp is not before the
    bound. *)
Lemma remove_behind_spares (cbs : PVN_callbacks) (oldest : Z) (k : nat) :
  forall (nbr : Nbr) (behind : list Nbr) (sz : Z),
  (length behind <= k)%nat ->
  forall n, In n (nbr :: behind) -> (timestamp n <? oldest) = false ->
  In n (fst (fst (remove_behind cbs oldest nbr behind sz))).
Proof.
  induction k as [|k IH]; intros nbr behind sz Hlen n Hin Hn.
  - destruct behind; [|simpl in Hlen; lia]. exact Hin.
  - destruct behind as [|nx behind']; [exact Hin|].
    cbn [length] in Hlen. cbn [remove_behind].
    destruct (timestamp nx <? oldest) eqn:E.
    + destruct (notify_delete cbs nx sz) as [ev sz1].
      destruct behind' as [|c0 behind''].
      * cbn [fst]. destruct Hin as [<-|[<-|[]]]; [left; reflexivity|].
        congruence.
      * cbn [length] in Hlen.
        pose proof (IH c0 behind'' sz1 ltac:(lia) n) as H.
        destruct (remove_behind cbs oldest c0 behind'' sz1) as [[l evs] sz2].
        cbn [fst] in *.
        destruct Hin as [<-|[<-|Hin]]; [left; reflexivity|congruence|].
        right. apply H; assumption.
    + pose proof (IH nx behind' sz ltac:(lia) n) as H.
      destruct (remove_behind cbs oldest nx behind' sz) as [[l evs] sz2].
      cbn [fst] in *.
      destruct Hin as [<-|Hin]; [left; reflexivity|].
      right. apply H; assumption.
Qed.

Lemma sweep_spares (p : PVN) (now : Z) (n : Nbr) :
  In n (nbrList p) ->
  stale (oldest_timestamp_allowed now (maximum_age_of_neighbor_information p))
    n = false ->
  In n (nbrList (fst (pvn_remove_old_neighbor_information p now))).
Proof.
  intros Hin Hn. unfold stale in Hn. unfold pvn_remove_old_neighbor_information.
  set (oldest := oldest_timestamp_allowed now
                   (maximum_age_of_neighbor_information p)) in *.
  destruct (remove_at_front_spec (callbacks p) oldest (nbrList p)
              (neighborhood_size p)) as (prefix & Hl & Hold & _).
  destruct (remove_at_front (callbacks p) oldest (nbrList p)
              (neighborhood_size p)) as [[l1 evs1] sz1].
  cbn [fst] in Hl. rewrite Hl in Hin. apply in_app_or in Hin.
  destruct Hin as [Hin|Hin].
  { rewrite Forall_forall in Hold. specialize (Hold n Hin).
    apply Z.ltb_ge in Hn. lia. }
  destruct l1 as [|nbr behind]; [destruct Hin|].
  pose proof (remove_behind_spares (callbacks p) oldest (length behind) nbr
                behind sz1 (le_n _) n Hin Hn) as H.
  destruct (remove_behind (callbacks p) oldest nbr behind sz1)
    as [[l2 evs2] sz2].
  exact H.
Qed.

(** X27.  What [pvn_destroy] leaves behind.  For a neighbourhood of the
    list, [pvn_destroy] returns with the channel closed and the
    neighbourhood taken out of the list; but it frees the entries by a
    sweep with the maximum age 0, and that sweep spares every entry that
    was refreshed in the current second (or later): such an entry is still
    in the neighbour list afterwards. *)
Theorem destroy_spares_the_latest_entries (all : list PVN) (c : nat)
    (now : Z) (p : PVN) :
  nth_error all c = Some p ->
  exists p' evs,
    pvn_destroy all c now = Done (firstn c all ++ skipn (S c) all, p', evs)
    /\ online p' = false
    /\ forall n, In n (nbrList p) -> 0 <= timestamp n -> now <= timestamp n ->
                 In n (nbrList p').
Proof.
  intros Hp. unfold pvn_destroy. rewrite Hp.
  assert (H1 : nbrList (fst (pvn_set_offline p)) = nbrList p
               /\ online (fst (pvn_set_offline p)) = false).
  { unfold pvn_set_offline. destruct (online p) eqn:E; cbn; auto. }
  destruct (pvn_set_offline p) as [p1 evs1]. cbn [fst] in H1.
  destruct H1 as [Hl Ho].
  set (p2 := mk_pvn (size_of_variable p1) 0 (nbrList p1)
               (neighborhood_size p1) (port p1) (online p1) (cmp p1)
               (callbacks p1)).
  pose proof (fun n => sweep_spares p2 now n) as Hsp.
  assert (Hon : online (fst (pvn_remove_old_neighbor_information p2 now))
                = online p2).
  { unfold pvn_remove_old_neighbor_information.
    destruct (remove_at_front _ _ _ _) as [[l1 e1] sz1].
    destruct l1 as [|nbr behind]; [reflexivity|].
    destruct (remove_behind _ _ _ _ _) as [[l2 e2] sz2]. reflexivity. }
  destruct (pvn_remove_old_neighbor_information p2 now) as [p3 evs2].
  cbn [fst] in Hsp, Hon.
  exists p3, (evs1 ++ evs2). split; [reflexivity|].
  split; [rewrite Hon; exact Ho|].
  intros n Hin H0 Hnow. apply Hsp.
  - cbn [p2 nbrList]. rewrite Hl. exact Hin.
  - unfold stale, oldest_timestamp_allowed. cbn [p2 maximum_age_of_neighbor_information].
    apply Z.ltb_ge. destruct (Z.leb_spec now 0); lia.
Qed.

Lemma destroy_spares_witness :
  exists p' evs,
    pvn_destroy
      [set_nbrs [mk_nbr 2 null_addr (Some [1; 2; 3; 4]) 3;
                 mk_nbr 3 null_addr (Some [1; 2; 3; 4]) 8] 2
         (fst (pvn_init 154 4 15))] 0 8
    = Done (firstn 0
              [set_nbrs [mk_nbr 2 null_addr (Some [1; 2; 3; 4]) 3;
                         mk_nbr 3 null_addr (Some [1; 2; 3; 4]) 8] 2
                 (fst (pvn_init 154 4 15))]
            ++ skipn 1
                 [set_nbrs [mk_nbr 2 null_addr (Some [1; 2; 3; 4]) 3;
                            mk_nbr 3 null_addr (Some [1; 2; 3; 4]) 8] 2
                    (fst (pvn_init 154 4 15))], p', evs)
    /\ online p' = false
    /\ forall n,
         In n [mk_nbr 2 null_addr (Some [1; 2; 3; 4]) 3;
               mk_nbr 3 null_addr (Some [1; 2; 3; 4]) 8] ->
         0 <= timestamp n -> 8 <= timestamp n -> In n (nbrList p').
Proof.
  apply (destroy_spares_the_latest_entries
           [set_nbrs [mk_nbr 2 null_addr (Some [1; 2; 3; 4]) 3;
                      mk_nbr 3 null_addr (Some [1; 2; 3; 4]) 8] 2
              (fst (pvn_init 154 4 15))] 0 8
           (set_nbrs [mk_nbr 2 null_addr (Some [1; 2; 3; 4]) 3;
                      mk_nbr 3 null_addr (Some [1; 2; 3; 4]) 8] 2
              (fst (pvn_init 154 4 15)))).
  reflexivity.
Defined.

Lemma channel_app (o : bool) (a b : list event) :
  channel o (a ++ b)
  = match channel o a with
    | Some o' => channel o' b
    | None => None
    end.
Proof.
  revert o. induction a as [|e a IH]; intros o; [reflexivity|].
  destruct e; cbn [app channel]; try apply IH; destruct o; auto.
Qed.

Lemma channel_callbacks (o : bool) (evs : list event) :
  (forall e, In e evs -> exists n, e = EvOnNew n \/ e = EvOnChange n
                                   \/ e = EvOnDelete n) ->
  channel o evs = Some o.
Proof.
  induction evs as [|e evs IH]; intros H; [reflexivity|].
  destruct (H e (or_introl eq_refl)) as (n & [->|[->| ->]]);
    cbn [channel]; apply IH; intros e' He'; apply H; right; exact He'.
Qed.

Lemma refresh_events (p : PVN) (n : Nbr) (data : list Z) (now : Z) (e : event) :
  In e (snd (fst (refresh p n data now))) ->
  exists m, e = EvOnNew m \/ e = EvOnChange m \/ e = EvOnDelete m.
Proof.
  unfold refresh. destruct (public_var n).
  - cbn [fst snd]. destruct (_ && _); [|intros []].
    intros [<-|[]]. eexists. right. left. reflexivity.
  - destruct (onNew (callbacks p)); cbn [fst snd]; [|intros []].
    intros [<-|[]]. eexists. left. reflexivity.
Qed.

Lemma frame_events (p : PVN) (from : linkaddr_t) (data : list Z) (now : Z)
    (e : event) :
  In e (snd (on_new_neighbor_information_at p from data now)) ->
  exists m, e = EvOnNew m \/ e = EvOnChange m \/ e = EvOnDelete m.
Proof.
  unfold on_new_neighbor_information_at. set (i := decode_id from).
  destruct (pvn_getNbr (nbrList p) i) as [n|] eqn:Hget.
  - destruct (nbrList p) as [|m l] eqn:Hl; [discriminate|].
    destruct (find_or_create_found p i from data now (m :: l) n Hget)
      as (l1 & l2 & _ & _ & Hfc).
    rewrite Hfc. cbn [snd]. apply refresh_events.
  - destruct (nbrList p) as [|m l] eqn:Hl.
    + cbn [find_or_create id]. rewrite Z.eqb_refl.
      pose proof (refresh_events p (mk_nbr i from None 0) data now e) as Hr.
      destruct (refresh p (mk_nbr i from None 0) data now) as [[n' evs] inc].
      exact Hr.
    + destruct (find_or_create_missing p i from data now (m :: l)
                  ltac:(discriminate) Hget) as (l1 & last & _ & Hfc).
      rewrite Hfc. cbn [snd]. apply refresh_events.
Qed.

Lemma step_channel (i : input) (p : PVN) :
  online (fst (step i p)) = online p
  /\ forall e, In e (snd (step i p)) ->
       exists m, e = EvOnNew m \/ e = EvOnChange m \/ e = EvOnDelete m.
Proof.
  destruct i as [from data now|now]; cbn [step].
  - split; [|apply frame_events].
    unfold on_new_neighbor_information_at.
    destruct (find_or_create p (decode_id from) from data now _)
      as [[l evs] inc]. reflexivity.
  - split.
    + unfold pvn_remove_old_neighbor_information.
      destruct (remove_at_front _ _ _ _) as [[l1 e1] sz1].
      destruct l1 as [|nbr behind]; [reflexivity|].
      destruct (remove_behind _ _ _ _ _) as [[l2 e2] sz2]. reflexivity.
    + intros e He. destruct (sweep_keeps p now) as (_ & _ & _ & _ & Hev).
      destruct (Hev e He) as (n & -> & _). exists n. auto.
Qed.

(** X28.  The broadcast channel and the [online] flag.  From a
    neighbourhood whose channel is open exactly when [online] is set (as
    it is after [pvn_init]), along any calls of [pvn_set_online],
    [pvn_set_offline] and [pvn_broadcast] and any frames and sweeps, the
    channel is never opened while it is open, never closed while it is
    closed, nothing is sent on a closed channel, and at the end the
    channel is again open exactly when [online] is set. *)
Theorem channel_follows_the_online_flag (cs : list call) (p : PVN) :
  channel (online p) (snd (controls cs p))
  = Some (online (fst (controls cs p))).
Proof.
  revert p. induction cs as [|c cs IH]; intros p; [reflexivity|].
  cbn [controls].
  assert (Hc : channel (online p) (snd (control c p))
               = Some (online (fst (control c p)))).
  { destruct c as [| |v|i]; cbn [control fst snd].
    - unfold pvn_set_online. destruct (online p) eqn:E; cbn; rewrite ?E;
        reflexivity.
    - unfold pvn_set_offline. destruct (online p) eqn:E; cbn; rewrite ?E;
        reflexivity.
    - unfold pvn_broadcast. destruct (online p), v; reflexivity.
    - destruct (step_channel i p) as (Ho & Hev). rewrite Ho.
      apply channel_callbacks. exact Hev. }
  specialize (IH (fst (control c p))).
  destruct (control c p) as [p' evs]. cbn [fst snd] in Hc, IH.
  destruct (controls cs p') as [p'' evs']. cbn [fst snd] in IH |- *.
  rewrite channel_app, Hc. exact IH.
Qed.

End NeighbourhoodMore.

(** ** More on the tree *)

Section TreeMore.

Import MLST.

Lemma uint8_succ (c : Z) : uint8 (uint8 c + 1) = uint8 (c + 1).
Proof. unfold uint8. apply Zplus_mod_idemp_l. Qed.

(** The loop counts the children, in a [uint8_t]. *)
Lemma iterate_children (L : layout) (RIME_ID : Z) (nbrs : list PVN.Nbr) :
  forall (a a' : locals) (c : Z),
  l_children_count a = uint8 c ->
  iterate L RIME_ID a nbrs = Done a' ->
  l_children_count a'
  = uint8 (c + Z.of_nat (length (filter (is_child L RIME_ID) nbrs))).
Proof.
  induction nbrs as [|n nbrs IH]; intros a a' c Hc; cbn [iterate filter].
  - intros H. inversion H; subst a'. cbn [length]. rewrite Hc. f_equal. lia.
  - unfold visit. unfold is_child at 1.
    destruct (PVN.public_var n) as [bytes|]; [|discriminate].
    assert (Hc1 : uint8 (l_children_count a + 1) = uint8 (c + 1))
      by (rewrite Hc; apply uint8_succ).
    destruct (parent_id (as_pv L bytes) =? 0) eqn:E0; cbn [orb].
    { intros H. eapply IH in H; [|exact Hc1]. rewrite H.
      cbn [length]. apply (f_equal uint8). lia. }
    destruct (parent_id (as_pv L bytes) =? RIME_ID) eqn:E1.
    { intros H. eapply IH in H; [|exact Hc1]. rewrite H.
      cbn [length]. apply (f_equal uint8). lia. }
    destruct (distance_to_root (as_pv L bytes) + 1 <? l_distance_to_root a).
    { intros H; eapply IH in H; [exact H|exact Hc]. }
    destruct (distance_to_root (as_pv L bytes) + 1 =? l_distance_to_root a);
      [|intros H; apply (IH _ _ c Hc H)].
    destruct (l_best_parent a) as [[b bv]|]; [|discriminate].
    destruct (children_count bv <? children_count (as_pv L bytes)).
    { intros H; eapply IH in H; [exact H|exact Hc]. }
    destruct (children_count bv =? children_count (as_pv L bytes)).
    { intros H; eapply IH in H; [exact H|exact Hc]. }
    intros H; eapply IH in H; [exact H|exact Hc].
Qed.

(** X16.  The number of children a node publishes.  Whenever
    [mlst_recalculate] of a node that is not the root returns, the
    [children_count] it has written into the public variable is the number
    of neighbours whose buffer carries the parent 0 or the node's own
    identifier, as a [uint8_t]: undefined neighbours are counted as
    children, and 256 children are published as none. *)
Theorem published_children_are_counted (L : layout) (RIME_ID : Z)
    (nbrs : list PVN.Nbr) (coin : bool) (s s' : state) :
  mlst_recalculate false L RIME_ID nbrs coin s = Done s' ->
  children_count (own_mlst_public_variable s')
  = uint8 (Z.of_nat (length (filter (is_child L RIME_ID) nbrs))).
Proof.
  unfold mlst_recalculate.
  destruct (iterate L RIME_ID (start (mlst_stay_active_for_next_n_periods s))
              nbrs) as [a|] eqn:Hit; [|discriminate].
  pose proof (iterate_children L RIME_ID nbrs
                (start (mlst_stay_active_for_next_n_periods s)) a 0 eq_refl Hit)
    as Hc.
  cbn [Z.add] in Hc.
  destruct (l_best_parent a) as [[b bv]|].
  - destruct ((l_number_of_potential_parents a >? 1) && coin);
      intros H; inversion H; subst s'; exact Hc.
  - intros H; inversion H; subst s'. exact Hc.
Qed.

Lemma published_children_witness :
  children_count
    (own_mlst_public_variable
       (mk_state (Some 10) 3 3 (mk_pv 2 10 2)))
  = uint8 (Z.of_nat
             (length
                (filter (is_child packed 7)
                   [PVN.mk_nbr 10 PVN.null_addr (Some [1; 9; 0; 0]) 0;
                    PVN.mk_nbr 11 PVN.null_addr (Some [255; 0; 0; 0]) 0;
                    PVN.mk_nbr 12 PVN.null_addr (Some [3; 7; 0; 0]) 0]))).
Proof.
  apply (published_children_are_counted packed 7
           [PVN.mk_nbr 10 PVN.null_addr (Some [1; 9; 0; 0]) 0;
            PVN.mk_nbr 11 PVN.null_addr (Some [255; 0; 0; 0]) 0;
            PVN.mk_nbr 12 PVN.null_addr (Some [3; 7; 0; 0]) 0]
           false (mk_state None 0 1 (mk_pv 255 0 0))).
  reflexivity.
Defined.

(** The loop runs through neighbours none of which can be the parent, and
    leaves [best_parent] null. *)
Lemma iterate_without_candidates (L : layout) (RIME_ID : Z)
    (nbrs : list PVN.Nbr) :
  forall a,
  l_best_parent a = None -> l_distance_to_root a = 255 ->
  forallb (no_parent_for L RIME_ID) nbrs = true ->
  exists a', iterate L RIME_ID a nbrs = Done a' /\ l_best_parent a' = None.
Proof.
  induction nbrs as [|n nbrs IH]; intros a Hb Hd Hall; cbn [iterate].
  - exists a. auto.
  - cbn [forallb] in Hall. apply andb_prop in Hall. destruct Hall as [Hn Hrest].
    unfold no_parent_for in Hn. unfold visit.
    destruct (PVN.public_var n) as [bytes|]; [|discriminate].
    destruct (parent_id (as_pv L bytes) =? 0); [apply IH; assumption|].
    destruct (parent_id (as_pv L bytes) =? RIME_ID); [apply IH; assumption|].
    cbn [orb] in Hn. apply Z.eqb_eq in Hn. rewrite Hn, Hd.
    cbn. apply IH; assumption.
Qed.

(** X17.  A node without a possible parent.  When every neighbour is a
    child or publishes the distance 255 (in particular when there is no
    neighbour), [mlst_recalculate] returns, the node publishes the parent 0
    and the distance 255 together with its children, [mlst_is_undefined]
    answers 1, and [mlst_parent] and the period divisor are left as they
    were. *)
Theorem no_candidate_means_undefined (L : layout) (RIME_ID : Z)
    (nbrs : list PVN.Nbr) (coin : bool) (s : state) :
  forallb (no_parent_for L RIME_ID) nbrs = true ->
  exists s',
    mlst_recalculate false L RIME_ID nbrs coin s = Done s'
    /\ own_mlst_public_variable s'
       = mk_pv 255 0
           (uint8 (Z.of_nat (length (filter (is_child L RIME_ID) nbrs))))
    /\ mlst_is_undefined s' = true
    /\ mlst_parent s' = mlst_parent s
    /\ divide_period_time_by s' = divide_period_time_by s.
Proof.
  intros Hall. unfold mlst_recalculate.
  destruct (iterate_without_candidates L RIME_ID nbrs
              (start (mlst_stay_active_for_next_n_periods s))
              eq_refl eq_refl Hall) as (a & Hit & Hb).
  rewrite Hit, Hb.
  pose proof (iterate_children L RIME_ID nbrs
                (start (mlst_stay_active_for_next_n_periods s)) a 0 eq_refl Hit)
    as Hc.
  cbn [Z.add] in Hc. rewrite Hc.
  eexists. split; [reflexivity|]. cbn.
  split; [reflexivity|]. split; [|auto].
  unfold mlst_is_undefined. cbn. destruct (mlst_parent s); reflexivity.
Qed.

Lemma no_candidate_witness :
  exists s',
    mlst_recalculate false packed 7
      [PVN.mk_nbr 11 PVN.null_addr (Some [255; 0; 0; 0]) 0;
       PVN.mk_nbr 12 PVN.null_addr (Some [255; 9; 0; 0]) 0]
      true (mk_state (Some 12) 0 1 (mk_pv 3 12 0)) = Done s'
    /\ own_mlst_public_variable s'
       = mk_pv 255 0
           (uint8 (Z.of_nat
              (length
                 (filter (is_child packed 7)
                    [PVN.mk_nbr 11 PVN.null_addr (Some [255; 0; 0; 0]) 0;
                     PVN.mk_nbr 12 PVN.null_addr (Some [255; 9; 0; 0]) 0]))))
    /\ mlst_is_undefined s' = true
    /\ mlst_parent s' = Some 12
    /\ divide_period_time_by s' = 1.
Proof.
  apply (no_candidate_means_undefined packed 7
           [PVN.mk_nbr 11 PVN.null_addr (Some [255; 0; 0; 0]) 0;
            PVN.mk_nbr 12 PVN.null_addr (Some [255; 9; 0; 0]) 0]
           true (mk_state (Some 12) 0 1 (mk_pv 3 12 0))).
  reflexivity.
Defined.

(** Once the state is reset, later callbacks leave it reset. *)
Lemma callbacks_keep_reset (evs : list PVN.event) :
  forall s,
  mlst_parent s = None ->
  mlst_stay_active_for_next_n_periods s = IF_CHANGE_STAY_ACTIVE_FOR_N_PERIODS ->
  mlst_parent (callbacks evs s) = None
  /\ mlst_stay_active_for_next_n_periods (callbacks evs s)
     = IF_CHANGE_STAY_ACTIVE_FOR_N_PERIODS
  /\ own_mlst_public_variable (callbacks evs s) = own_mlst_public_variable s.
Proof.
  unfold callbacks.
  induction evs as [|e evs IH]; intros s Hp Hs; [auto|].
  cbn [fold_left].
  assert (H : mlst_parent (callback e s) = None
              /\ mlst_stay_active_for_next_n_periods (callback e s)
                 = IF_CHANGE_STAY_ACTIVE_FOR_N_PERIODS
              /\ own_mlst_public_variable (callback e s)
                 = own_mlst_public_variable s).
  { destruct e; cbn; auto. unfold onPvnDelete. rewrite Hp. cbn. auto. }
  destruct H as (H1 & H2 & H3).
  destruct (IH (callback e s) H1 H2) as (H4 & H5 & H6).
  rewrite H6, H3. auto.
Qed.

(** X18.  Losing the parent.  When the neighbourhood reports the deletion
    of the entry [mlst_parent] points to, then after the callbacks of that
    sweep, whatever else it reported, the parent pointer is null, the node
    publishes the parent 0 at distance 255 without children, and it stays
    active for the next three periods. *)
Theorem deleted_parent_resets_the_node (evs : list PVN.event) (s : state)
    (n : PVN.Nbr) :
  In (PVN.EvOnDelete n) evs ->
  same_entry (mlst_parent s) n = true ->
  mlst_parent (callbacks evs s) = None
  /\ own_mlst_public_variable (callbacks evs s) = mk_pv 255 0 0
  /\ mlst_stay_active_for_next_n_periods (callbacks evs s) = 3
  /\ mlst_is_undefined (callbacks evs s) = true.
Proof.
  assert (Hreset : forall evs s,
            mlst_parent s = None ->
            mlst_stay_active_for_next_n_periods s = 3 ->
            own_mlst_public_variable s = mk_pv 255 0 0 ->
            mlst_parent (callbacks evs s) = None
            /\ own_mlst_public_variable (callbacks evs s) = mk_pv 255 0 0
            /\ mlst_stay_active_for_next_n_periods (callbacks evs s) = 3
            /\ mlst_is_undefined (callbacks evs s) = true).
  { clear. intros evs s Hp Hs Ho.
    destruct (callbacks_keep_reset evs s Hp Hs) as (H1 & H2 & H3).
    split; [exact H1|]. split; [congruence|]. split; [exact H2|].
    unfold mlst_is_undefined. rewrite H1. reflexivity. }
  revert s. induction evs as [|e evs IH]; intros s Hin Hsame; [destruct Hin|].
  change (callbacks (e :: evs) s) with (callbacks evs (callback e s)).
  destruct Hin as [->|Hin].
  - cbn [callback]. unfold onPvnDelete. rewrite Hsame.
    apply Hreset; reflexivity.
  - destruct (same_entry (mlst_parent (callback e s)) n) eqn:Hs'.
    + apply IH; assumption.
    + destruct e; cbn [callback onPvnNew onPvnChange stay_active mlst_parent]
        in Hs'; try congruence.
      cbn [callback]. unfold onPvnDelete in *.
      destruct (same_entry (mlst_parent s) n0).
      * apply Hreset; reflexivity.
      * cbn in Hs'. congruence.
Qed.

Lemma deleted_parent_witness :
  mlst_parent
    (callbacks [PVN.EvOnDelete (PVN.mk_nbr 3 PVN.null_addr None 0);
                PVN.EvOnDelete (PVN.mk_nbr 4 PVN.null_addr None 0)]
       (mk_state (Some 4) 0 1 (mk_pv 2 4 0))) = None
  /\ own_mlst_public_variable
       (callbacks [PVN.EvOnDelete (PVN.mk_nbr 3 PVN.null_addr None 0);
                   PVN.EvOnDelete (PVN.mk_nbr 4 PVN.null_addr None 0)]
          (mk_state (Some 4) 0 1 (mk_pv 2 4 0))) = mk_pv 255 0 0
  /\ mlst_stay_active_for_next_n_periods
       (callbacks [PVN.EvOnDelete (PVN.mk_nbr 3 PVN.null_addr None 0);
                   PVN.EvOnDelete (PVN.mk_nbr 4 PVN.null_addr None 0)]
          (mk_state (Some 4) 0 1 (mk_pv 2 4 0))) = 3
  /\ mlst_is_undefined
       (callbacks [PVN.EvOnDelete (PVN.mk_nbr 3 PVN.null_addr None 0);
                   PVN.EvOnDelete (PVN.mk_nbr 4 PVN.null_addr None 0)]
          (mk_state (Some 4) 0 1 (mk_pv 2 4 0))) = true.
Proof.
  apply (deleted_parent_resets_the_node
           [PVN.EvOnDelete (PVN.mk_nbr 3 PVN.null_addr None 0);
            PVN.EvOnDelete (PVN.mk_nbr 4 PVN.null_addr None 0)]
           (mk_state (Some 4) 0 1 (mk_pv 2 4 0))
           (PVN.mk_nbr 4 PVN.null_addr None 0)).
  - cbn. auto.
  - reflexivity.
Defined.

(** *** The thread *)

(** The callbacks null the parent pointer or leave it alone, and they leave
    it alone only when no deletion of its entry was reported. *)
Lemma callbacks_parent (evs : list PVN.event) :
  forall s,
  mlst_parent (callbacks evs s) = None
  \/ (mlst_parent (callbacks evs s) = mlst_parent s
      /\ forall n, In (PVN.EvOnDelete n) evs ->
                   same_entry (mlst_parent s) n = false).
Proof.
  induction evs as [|e evs IH]; intros s.
  - right. split; [reflexivity|intros n []].
  - change (callbacks (e :: evs) s) with (callbacks evs (callback e s)).
    assert (Hother : mlst_parent (callback e s) = mlst_parent s ->
              (forall n, e = PVN.EvOnDelete n ->
                         same_entry (mlst_parent s) n = false) ->
              mlst_parent (callbacks evs (callback e s)) = None
              \/ (mlst_parent (callbacks evs (callback e s)) = mlst_parent s
                  /\ forall n, In (PVN.EvOnDelete n) (e :: evs) ->
                               same_entry (mlst_parent s) n = false)).
    { intros Hsame Hhead. destruct (IH (callback e s)) as [H|[H1 H2]].
      - left. exact H.
      - right. split; [congruence|]. intros n [->|Hin].
        + apply Hhead. reflexivity.
        + rewrite <- Hsame. apply H2. exact Hin. }
    destruct e as [n0|n0|n0| | | |]; try (apply Hother; [reflexivity|discriminate]).
    destruct (same_entry (mlst_parent s) n0) eqn:Hs.
    + left. apply callbacks_keep_null. cbn [callback]. unfold onPvnDelete.
      rewrite Hs. reflexivity.
    + apply Hother.
      * cbn [callback]. unfold onPvnDelete. rewrite Hs. reflexivity.
      * intros n Hn. inversion Hn; subst. exact Hs.
Qed.

Lemma callbacks_counters (evs : list PVN.event) :
  forall s, counters_ok s -> counters_ok (callbacks evs s).
Proof.
  induction evs as [|e evs IH]; intros s Hs; [exact Hs|].
  change (callbacks (e :: evs) s) with (callbacks evs (callback e s)).
  apply IH. destruct Hs as [Hs Hd]. unfold counters_ok.
  destruct e; cbn [callback];
    unfold onPvnNew, onPvnChange, onPvnDelete, stay_active;
    try (destruct (same_entry _ _));
    cbn [mlst_stay_active_for_next_n_periods divide_period_time_by];
    unfold IF_CHANGE_STAY_ACTIVE_FOR_N_PERIODS; lia.
Qed.

Lemma online_keeps (p : PVN.PVN) :
  PVN.nbrList (mlst_online p) = PVN.nbrList p
  /\ PVN.callbacks (mlst_online p) = PVN.callbacks p
  /\ PVN.size_of_variable (mlst_online p) = PVN.size_of_variable p
  /\ PVN.online (mlst_online p) = true.
Proof.
  unfold mlst_online, PVN.pvn_set_online.
  destruct (PVN.online p) eqn:E; cbn; auto.
Qed.

Lemma offline_keeps (p : PVN.PVN) :
  PVN.nbrList (mlst_offline p) = PVN.nbrList p
  /\ PVN.callbacks (mlst_offline p) = PVN.callbacks p
  /\ PVN.size_of_variable (mlst_offline p) = PVN.size_of_variable p.
Proof.
  unfold mlst_offline, PVN.pvn_set_offline.
  destruct (PVN.online p); cbn; auto.
Qed.

(** The part of the loop in front of the wait runs to its end: the entry
    [mlst_parent] points to is there when its time stamp is read. *)
Lemma before_wait_ok (L : layout) (now : Z) (n : node) :
  node_ok L n ->
  exists n1,
    before_wait now n = Done n1 /\ node_ok L n1
    /\ incl (PVN.nbrList (mlst_pvn n1)) (PVN.nbrList (mlst_pvn n)).
Proof.
  intros (Hc & Hp & Hd & Hsz & Ht & Hh). unfold before_wait.
  destruct (sweep_keeps (mlst_pvn n) now) as (Hincl & _).
  destruct (sweep_settings (mlst_pvn n) now) as (Hsz' & _ & _ & Hcb').
  pose proof (fun x => sweep_accounts (mlst_pvn n) now x Hd) as Hacc.
  destruct (PVN.pvn_remove_old_neighbor_information (mlst_pvn n) now)
    as [p evs].
  cbn [fst snd] in Hincl, Hsz', Hcb', Hacc.
  set (m := callbacks evs (mlst n)).
  assert (Hcm : counters_ok m) by (apply callbacks_counters; exact Hc).
  assert (Hpm : match mlst_parent m with
                | Some i => PVN.pvn_getNbr (PVN.nbrList p) i <> None
                | None => True
                end).
  { destruct (callbacks_parent evs (mlst n)) as [H|[H1 H2]].
    - fold m in H. rewrite H. exact I.
    - fold m in H1. rewrite H1. unfold parent_listed in Hp.
      destruct (mlst_parent (mlst n)) as [i|]; [|exact I].
      destruct (PVN.pvn_getNbr (PVN.nbrList (mlst_pvn n)) i) as [n0|] eqn:Hget;
        [|congruence].
      destruct (getNbr_id _ _ _ Hget) as [Hid Hin].
      destruct (Hacc n0 Hin) as [Hin'|Hdel].
      + rewrite <- Hid. apply getNbr_in. exact Hin'.
      + specialize (H2 n0 Hdel). cbn [same_entry] in H2.
        rewrite Hid, Z.eqb_refl in H2. discriminate. }
  destruct (online_keeps p) as (Ho1 & Ho2 & Ho3 & _).
  destruct (offline_keeps p) as (Hf1 & Hf2 & Hf3).
  assert (Hon : forall r, RSU.timer_ok r ->
              History.history_ok (RSU.rsu_history r) ->
              node_ok L (mk_node m (mlst_online p) r)
              /\ incl (PVN.nbrList (mlst_pvn (mk_node m (mlst_online p) r)))
                      (PVN.nbrList (mlst_pvn n))).
  { intros r Hr1 Hr2. unfold node_ok, parent_listed.
    cbn [mlst mlst_pvn rsu]. rewrite Ho1, Ho2, Ho3, Hcb', Hsz'.
    split; [|exact Hincl]. repeat (split; [assumption|]). assumption. }
  assert (Hoff : forall r, RSU.timer_ok r ->
              History.history_ok (RSU.rsu_history r) ->
              node_ok L (mk_node m (mlst_offline p) r)
              /\ incl (PVN.nbrList (mlst_pvn (mk_node m (mlst_offline p) r)))
                      (PVN.nbrList (mlst_pvn n))).
  { intros r Hr1 Hr2. unfold node_ok, parent_listed.
    cbn [mlst mlst_pvn rsu]. rewrite Hf1, Hf2, Hf3, Hcb', Hsz'.
    split; [|exact Hincl]. repeat (split; [assumption|]). assumption. }
  destruct (step_completes false RSU.InDisallowSleeping (rsu n) I Ht Hh)
    as (r1 & Hr1 & Ht1 & Hh1).
  destruct (step_completes false RSU.InAllowSleeping (rsu n) I Ht Hh)
    as (r2 & Hr2 & Ht2 & Hh2).
  cbn [RSU.step] in Hr1, Hr2. unfold transport. rewrite Hr1, Hr2.
  destruct (mlst_is_undefined m) eqn:Hu.
  { eexists. split; [reflexivity|]. apply Hon; assumption. }
  destruct (mlst_is_leaf m).
  - destruct (mlst_stay_active_for_next_n_periods m >? 0).
    { eexists. split; [reflexivity|]. apply Hon; assumption. }
    unfold mlst_is_undefined in Hu.
    destruct (mlst_parent m) as [i|]; [|discriminate].
    destruct (PVN.pvn_getNbr (PVN.nbrList p) i) as [parent|]; [|congruence].
    destruct (ulong (now - PVN.timestamp parent) >? MAX_AGE_OF_PARENT).
    + eexists. split; [reflexivity|]. apply Hon; assumption.
    + eexists. split; [reflexivity|]. apply Hoff; assumption.
  - eexists. split; [reflexivity|]. apply Hon; assumption.
Qed.

(** What is handled during the wait, if it returns, leaves the node in
    order. *)
Lemma happen_keeps (ROOT : bool) (L : layout) (h : happening) (n n2 : node) :
  node_ok L n ->
  happen ROOT h n = Done n2 ->
  node_ok L n2
  /\ (Forall (not_at_254 L) (PVN.nbrList (mlst_pvn n)) ->
      quiet L h = true ->
      Forall (not_at_254 L) (PVN.nbrList (mlst_pvn n2))).
Proof.
  intros Hok. pose proof Hok as (Hc & Hp & Hd & Hsz & Ht & Hh).
  destruct h as [from data now|i]; cbn [happen].
  - destruct (PVN.online (mlst_pvn n));
      [|intros H; inversion H; subst n2; auto].
    destruct (frame_settings (mlst_pvn n) from data now)
      as (Hsz' & _ & _ & Hcb').
    pose proof (frame_ids_grow (mlst_pvn n) from data now) as Hgrow.
    pose proof (frame_entries (mlst_pvn n) from data now) as Hent.
    destruct (PVN.on_new_neighbor_information_at (mlst_pvn n) from data now)
      as [p evs].
    cbn [fst] in Hsz', Hcb', Hgrow, Hent.
    intros H; inversion H; subst n2; clear H. split.
    + unfold node_ok, parent_listed. cbn [mlst mlst_pvn rsu].
      rewrite Hcb', Hsz'.
      split; [apply callbacks_counters; exact Hc|].
      split; [|auto].
      destruct (callbacks_parent evs (mlst n)) as [H|[H1 _]]; rewrite ?H;
        [exact I|].
      rewrite H1. unfold parent_listed in Hp.
      destruct (mlst_parent (mlst n)) as [i|]; [|exact I].
      intros Hnone. apply Hp. apply getNbr_none.
      apply getNbr_none in Hnone. intros Hin. apply Hnone.
      apply Hgrow. exact Hin.
    + cbn [mlst_pvn]. unfold quiet. intros Hall Hq.
      apply andb_prop in Hq. destruct Hq as [_ Hq].
      rewrite Forall_forall in *. intros n' Hn'.
      destruct (Hent n' Hn') as [Hv|(n0 & Hn0 & Hv)].
      * exists (PVN.copy_of (mlst_pvn n) data). split; [exact Hv|].
        unfold PVN.copy_of. rewrite Hsz.
        apply negb_true_iff in Hq. apply Z.eqb_neq in Hq. exact Hq.
      * destruct (Hall n0 Hn0) as (bytes & Hb & H254).
        exists bytes. split; [congruence|exact H254].
  - unfold transport.
    destruct (snd (RSU.step ROOT i (rsu n))) as [r|] eqn:Hr; [|discriminate].
    destruct (step_preserves ROOT i (rsu n) r Ht Hh Hr) as (Ht' & Hh').
    intros H; inversion H; subst n2; clear H. split.
    + unfold node_ok, parent_listed. cbn [mlst mlst_pvn rsu]. auto 7.
    + cbn [mlst_pvn]. auto.
Qed.

(** Whatever arrives whole during the wait is handled to its end. *)
Lemma happen_completes (ROOT : bool) (L : layout) (h : happening) (n : node) :
  node_ok L n -> whole L h = true ->
  exists n2, happen ROOT h n = Done n2.
Proof.
  intros (Hc & Hp & Hd & Hsz & Ht & Hh) Hw.
  destruct h as [from data now|i]; cbn [happen].
  - destruct (PVN.online (mlst_pvn n)); [|eexists; reflexivity].
    destruct (PVN.on_new_neighbor_information_at (mlst_pvn n) from data now)
      as [p evs].
    eexists; reflexivity.
  - cbn [whole] in Hw.
    destruct (step_completes ROOT i (rsu n) (input_ok_has_seqno i Hw) Ht Hh)
      as (r & Hr & _).
    unfold transport. rewrite Hr. eexists; reflexivity.
Qed.

Lemma wait_keeps (ROOT : bool) (L : layout) (hs : list happening) :
  forall n n2,
  node_ok L n ->
  WAIT_ONE_PERIOD ROOT hs n = Done n2 ->
  node_ok L n2
  /\ (Forall (not_at_254 L) (PVN.nbrList (mlst_pvn n)) ->
      forallb (quiet L) hs = true ->
      Forall (not_at_254 L) (PVN.nbrList (mlst_pvn n2))).
Proof.
  induction hs as [|h hs IH]; intros n n2 Hok; cbn [WAIT_ONE_PERIOD].
  - intros H; inversion H; subst n2. auto.
  - destruct (happen ROOT h n) as [n1|] eqn:Hh; [|discriminate].
    destruct (happen_keeps ROOT L h n n1 Hok Hh) as (Hok1 & H1).
    intros Hw. destruct (IH n1 n2 Hok1 Hw) as (Hok2 & H2).
    split; [exact Hok2|].
    intros Hall Hq. cbn [forallb] in Hq. apply andb_prop in Hq.
    destruct Hq as [Hq1 Hq2]. auto.
Qed.

Lemma wait_completes (ROOT : bool) (L : layout) (hs : list happening) :
  forall n,
  node_ok L n -> forallb (whole L) hs = true ->
  exists n2, WAIT_ONE_PERIOD ROOT hs n = Done n2.
Proof.
  induction hs as [|h hs IH]; intros n Hok Hw; cbn [WAIT_ONE_PERIOD].
  - exists n. reflexivity.
  - cbn [forallb] in Hw. apply andb_prop in Hw. destruct Hw as [Hw1 Hw2].
    destruct (happen_completes ROOT L h n Hok Hw1) as (n1 & Hh).
    rewrite Hh. apply IH; [|exact Hw2].
    apply (happen_keeps ROOT L h n n1 Hok Hh).
Qed.

Lemma quiet_whole (L : layout) (hs : list happening) :
  forallb (quiet L) hs = true -> forallb (whole L) hs = true.
Proof.
  induction hs as [|h hs IH]; cbn [forallb]; [reflexivity|].
  intros H. apply andb_prop in H. destruct H as [H1 H2].
  unfold quiet in H1. apply andb_prop in H1. destruct H1 as [H1 _].
  rewrite H1, (IH H2). reflexivity.
Qed.

(** One iteration keeps the activity counter or sets it to 3, and keeps
    the best parent or replaces it by the neighbour visited. *)
Lemma visit_keeps (L : layout) (RIME_ID : Z) (a a1 : locals) (n : PVN.Nbr) :
  visit L RIME_ID a n = Done a1 ->
  (l_stay_active a1 = l_stay_active a \/ l_stay_active a1 = 3)
  /\ (l_best_parent a1 = l_best_parent a
      \/ exists bv, l_best_parent a1 = Some (n, bv)).
Proof.
  unfold visit.
  destruct (PVN.public_var n) as [bytes|]; [|discriminate].
  destruct (parent_id (as_pv L bytes) =? 0);
    [intros H; inversion H; subst a1; cbn; auto|].
  destruct (parent_id (as_pv L bytes) =? RIME_ID);
    [intros H; inversion H; subst a1; cbn; auto|].
  destruct (distance_to_root (as_pv L bytes) + 1 <? l_distance_to_root a);
    [intros H; inversion H; subst a1; cbn; eauto|].
  destruct (distance_to_root (as_pv L bytes) + 1 =? l_distance_to_root a);
    [|intros H; inversion H; subst a1; auto].
  destruct (l_best_parent a) as [[b bv]|] eqn:Hb; [|discriminate].
  destruct (children_count bv <? children_count (as_pv L bytes));
    [intros H; inversion H; subst a1; cbn; eauto|].
  destruct (children_count bv =? children_count (as_pv L bytes));
    [|intros H; inversion H; subst a1; rewrite Hb; auto].
  intros H; inversion H; subst a1; cbn.
  destruct (PVN.id b >? PVN.id n); eauto.
Qed.

Lemma iterate_keeps (L : layout) (RIME_ID : Z) (nbrs : list PVN.Nbr) :
  forall a a',
  iterate L RIME_ID a nbrs = Done a' ->
  (l_stay_active a' = l_stay_active a \/ l_stay_active a' = 3)
  /\ (l_best_parent a' = l_best_parent a
      \/ exists b bv, l_best_parent a' = Some (b, bv) /\ In b nbrs).
Proof.
  induction nbrs as [|n nbrs IH]; intros a a'; cbn [iterate].
  - intros H. inversion H; subst a'. auto.
  - destruct (visit L RIME_ID a n) as [a1|] eqn:Hv; [|discriminate].
    intros H. destruct (visit_keeps L RIME_ID a a1 n Hv) as (Hs1 & Hb1).
    destruct (IH a1 a' H) as (Hs2 & Hb2). split.
    + destruct Hs2 as [Hs2|Hs2]; [|auto]. rewrite Hs2. exact Hs1.
    + destruct Hb2 as [Hb2|(b & bv & Hb2 & Hin)].
      * rewrite Hb2. destruct Hb1 as [Hb1|(bv & Hb1)]; [auto|].
        right. exists n, bv. split; [exact Hb1|left; reflexivity].
      * right. exists b, bv. split; [exact Hb2|right; exact Hin].
Qed.

(** The recalculation keeps the counters in their ranges, and the parent
    it commits is an entry of the list. *)
Lemma recalculate_keeps (ROOT : bool) (L : layout) (RIME_ID : Z)
    (nbrs : list PVN.Nbr) (coin : bool) (s s' : state) :
  counters_ok s ->
  mlst_recalculate ROOT L RIME_ID nbrs coin s = Done s' ->
  counters_ok s'
  /\ (mlst_parent s' = mlst_parent s
      \/ exists b, mlst_parent s' = Some (PVN.id b) /\ In b nbrs).
Proof.
  intros (Hs & Hd). unfold mlst_recalculate, counters_ok.
  destruct ROOT; [intros H; inversion H; subst s'; cbn; auto|].
  destruct (iterate L RIME_ID (start (mlst_stay_active_for_next_n_periods s))
              nbrs) as [a|] eqn:Hit; [|discriminate].
  destruct (iterate_keeps L RIME_ID nbrs _ _ Hit) as (Hstay & Hbest).
  cbn [start l_stay_active l_best_parent] in Hstay, Hbest.
  assert (Ha : 0 <= l_stay_active a <= 3) by (destruct Hstay; lia).
  destruct (l_best_parent a) as [[b bv]|] eqn:Hb.
  - destruct Hbest as [Hbest|(b' & bv' & Hbest & Hin)]; [discriminate|].
    inversion Hbest; subst b' bv'.
    destruct ((l_number_of_potential_parents a >? 1) && coin).
    + intros H; inversion H; subst s'; cbn. auto.
    + intros H; inversion H; subst s'; cbn.
      unfold IF_CHANGE_STAY_ACTIVE_FOR_N_PERIODS.
      split; [|right; exists b; auto].
      destruct (_ || _); lia.
  - intros H; inversion H; subst s'; cbn. auto.
Qed.

Lemma after_wait_ok (ROOT : bool) (L : layout) (RIME_ID : Z) (c : bool)
    (n n' : node) :
  node_ok L n ->
  after_wait ROOT L RIME_ID c n = Done n' ->
  node_ok L n' /\ mlst_pvn n' = mlst_pvn n.
Proof.
  intros (Hc & Hp & Hd & Hsz & Ht & Hh). unfold after_wait.
  destruct (mlst_recalculate ROOT L RIME_ID (PVN.pvn_getNbrs (mlst_pvn n)) c
              (mlst n)) as [m|] eqn:Hm; [|discriminate].
  destruct (recalculate_keeps ROOT L RIME_ID _ c _ _ Hc Hm)
    as ((Hs' & Hd') & Hpar).
  intros H; inversion H; subst n'; clear H.
  split; [|reflexivity].
  unfold node_ok, parent_listed, counters_ok. cbn [mlst mlst_pvn rsu].
  split.
  { cbn. split.
    - destruct (Z.gtb_spec (mlst_stay_active_for_next_n_periods m) 0); lia.
    - destruct (Z.gtb_spec (divide_period_time_by m) 1); lia. }
  split.
  { cbn [mlst_parent]. destruct Hpar as [Hpar|(b & Hpar & Hin)].
    - rewrite Hpar. exact Hp.
    - rewrite Hpar. apply getNbr_in. exact Hin. }
  split; [exact Hd|]. split; [exact Hsz|].
  split; [|exact Hh].
  unfold RSU.rsunicast_setparent, RSU.timer_ok in *.
  destruct (rsu n). exact Ht.
Qed.

Lemma round_parts (ROOT : bool) (L : layout) (RIME_ID : Z) (p : period)
    (n : node) :
  node_ok L n ->
  forallb (whole L) (during_wait p) = true ->
  exists n1 n2,
    before_wait (clock_seconds p) n = Done n1
    /\ WAIT_ONE_PERIOD ROOT (during_wait p) n1 = Done n2
    /\ round ROOT L RIME_ID p n = after_wait ROOT L RIME_ID (coin p) n2
    /\ node_ok L n2
    /\ (Forall (not_at_254 L) (PVN.nbrList (mlst_pvn n)) ->
        forallb (quiet L) (during_wait p) = true ->
        Forall (not_at_254 L) (PVN.nbrList (mlst_pvn n2))).
Proof.
  intros Hok Hwh. unfold round.
  destruct (before_wait_ok L (clock_seconds p) n Hok)
    as (n1 & Hb & Hok1 & Hincl).
  destruct (wait_completes ROOT L (during_wait p) n1 Hok1 Hwh) as (n2 & Hw).
  destruct (wait_keeps ROOT L (during_wait p) n1 n2 Hok1 Hw) as (Hok2 & Hq).
  exists n1, n2. rewrite Hb, Hw.
  split; [reflexivity|]. split; [reflexivity|]. split; [reflexivity|].
  split; [exact Hok2|].
  intros Hall. apply Hq. rewrite Forall_forall in *.
  intros x Hx. apply Hall. apply Hincl. exact Hx.
Qed.

Lemma round_keeps (ROOT : bool) (L : layout) (RIME_ID : Z) (p : period)
    (n n' : node) :
  node_ok L n -> round ROOT L RIME_ID p n = Done n' -> node_ok L n'.
Proof.
  intros Hok. unfold round.
  destruct (before_wait_ok L (clock_seconds p) n Hok)
    as (n1 & -> & Hok1 & _).
  destruct (WAIT_ONE_PERIOD ROOT (during_wait p) n1) as [n2|] eqn:Hw;
    [|discriminate].
  destruct (wait_keeps ROOT L (during_wait p) n1 n2 Hok1 Hw) as (Hok2 & _).
  intros Ha. apply (after_wait_ok ROOT L RIME_ID _ _ _ Hok2 Ha).
Qed.

Lemma rounds_ok (ROOT : bool) (L : layout) (RIME_ID : Z) (ps : list period) :
  forall n n',
  node_ok L n -> rounds ROOT L RIME_ID ps n = Done n' -> node_ok L n'.
Proof.
  induction ps as [|p ps IH]; intros n n' Hok; cbn [rounds].
  - intros H; inversion H; subst; exact Hok.
  - destruct (round ROOT L RIME_ID p n) as [n3|] eqn:Hr; [|discriminate].
    apply IH. apply (round_keeps ROOT L RIME_ID p n n3 Hok Hr).
Qed.

Lemma init_ok (L : layout) : node_ok L (mlst_init L).
Proof.
  destruct (mlst_init_ok L) as (_ & Ht & Hh & _).
  unfold node_ok, parent_listed, counters_ok.
  split; [cbn; lia|]. split; [exact I|].
  split; [reflexivity|]. split; [reflexivity|]. split; assumption.
Qed.

(** X19.  The two counters of the thread.  After [mlst_init] and any
    number of passes through the loop of [mlst_process], on the root or
    not, [mlst_stay_active_for_next_n_periods] lies between 0 and 3 and
    [divide_period_time_by] between 1 and 3: the period is never divided
    by 0, and the [uint8_t] counters never wrap. *)
Theorem counters_stay_in_range (ROOT : bool) (L : layout) (RIME_ID : Z)
    (ps : list period) (n : node) :
  rounds ROOT L RIME_ID ps (mlst_init L) = Done n ->
  0 <= mlst_stay_active_for_next_n_periods (mlst n) <= 3
  /\ 1 <= divide_period_time_by (mlst n) <= 3.
Proof.
  intros H. apply (rounds_ok ROOT L RIME_ID ps _ _ (init_ok L) H).
Qed.

Lemma counters_witness :
  0 <= mlst_stay_active_for_next_n_periods
         (mk_state (Some 2) 2 2 (mk_pv 2 2 0)) <= 3
  /\ 1 <= divide_period_time_by (mk_state (Some 2) 2 2 (mk_pv 2 2 0)) <= 3.
Proof.
  apply (counters_stay_in_range false packed 7
           [mk_period 0 [Frame (mk_linkaddr 0 2) [1; 9; 0; 0] 0] false]
           (mk_node (mk_state (Some 2) 2 2 (mk_pv 2 2 0))
              (PVN.set_nbrs
                 [PVN.mk_nbr 2 (mk_linkaddr 0 2) (Some [1; 9; 0; 0]) 0] 1
                 (mlst_pvn (mlst_init packed)))
              (RSU.set_parent 2 (RSU.set_is_online true RSU.boot)))).
  reflexivity.
Defined.

(** X20.  The thread completes everything but the recalculation.  After
    [mlst_init] and any number of passes through the loop, [mlst_parent]
    is null or points to an entry that is still in the neighbour list
    (the sweep's deletion callback nulls it before the entry goes), so the
    next pass reads the parent's time stamp from a live entry: the sweep,
    the choice between online and offline and the wait run to their end,
    whatever the clock, when what arrives during the wait arrives whole:
    broadcast frames of at least [sizeof(struct mlst_public_variable)]
    bytes, sends of fewer than 65535 bytes, and data frames of the
    transport that carry their sequence number. *)
Theorem thread_reaches_the_recalculation (ROOT : bool) (L : layout)
    (RIME_ID : Z) (ps : list period) (n : node) (p : period) :
  rounds ROOT L RIME_ID ps (mlst_init L) = Done n ->
  forallb (whole L) (during_wait p) = true ->
  parent_listed n
  /\ exists n1 n2,
       before_wait (clock_seconds p) n = Done n1
       /\ WAIT_ONE_PERIOD ROOT (during_wait p) n1 = Done n2
       /\ parent_listed n2.
Proof.
  intros H Hw.
  pose proof (rounds_ok ROOT L RIME_ID ps _ _ (init_ok L) H) as Hok.
  split; [apply Hok|].
  destruct (round_parts ROOT L RIME_ID p n Hok Hw)
    as (n1 & n2 & H1 & H2 & _ & Hok2 & _).
  exists n1, n2. split; [exact H1|]. split; [exact H2|apply Hok2].
Qed.

Lemma thread_reaches_the_recalculation_witness :
  parent_listed
    (mk_node (mk_state (Some 2) 2 2 (mk_pv 2 2 0))
       (PVN.set_nbrs
          [PVN.mk_nbr 2 (mk_linkaddr 0 2) (Some [1; 9; 0; 0]) 0] 1
          (mlst_pvn (mlst_init packed)))
       (RSU.set_parent 2 (RSU.set_is_online true RSU.boot)))
  /\ exists n1 n2,
       before_wait 100
         (mk_node (mk_state (Some 2) 2 2 (mk_pv 2 2 0))
            (PVN.set_nbrs
               [PVN.mk_nbr 2 (mk_linkaddr 0 2) (Some [1; 9; 0; 0]) 0] 1
               (mlst_pvn (mlst_init packed)))
            (RSU.set_parent 2 (RSU.set_is_online true RSU.boot))) = Done n1
       /\ WAIT_ONE_PERIOD false
            [Frame (mk_linkaddr 0 3) [2; 2; 0; 0] 100;
             Transport (RSU.InData (mk_linkaddr 0 3) [7; 42])] n1 = Done n2
       /\ parent_listed n2.
Proof.
  apply (thread_reaches_the_recalculation false packed 7
           [mk_period 0 [Frame (mk_linkaddr 0 2) [1; 9; 0; 0] 0] false]
           (mk_node (mk_state (Some 2) 2 2 (mk_pv 2 2 0))
              (PVN.set_nbrs
                 [PVN.mk_nbr 2 (mk_linkaddr 0 2) (Some [1; 9; 0; 0]) 0] 1
                 (mlst_pvn (mlst_init packed)))
              (RSU.set_parent 2 (RSU.set_is_online true RSU.boot)))
           (mk_period 100
              [Frame (mk_linkaddr 0 3) [2; 2; 0; 0] 100;
               Transport (RSU.InData (mk_linkaddr 0 3) [7; 42])] false)).
  - reflexivity.
  - reflexivity.
Defined.

Lemma after_wait_completes (ROOT : bool) (L : layout) (RIME_ID : Z)
    (c : bool) (n : node) :
  Forall (not_at_254 L) (PVN.nbrList (mlst_pvn n)) ->
  exists n', after_wait ROOT L RIME_ID c n = Done n'.
Proof.
  intros Hall. unfold after_wait, mlst_recalculate.
  destruct ROOT; [eexists; reflexivity|].
  destruct (iterate_completes L RIME_ID (PVN.pvn_getNbrs (mlst_pvn n))
              (start (mlst_stay_active_for_next_n_periods (mlst n)))
              (fun _ => eq_refl) Hall) as (a & ->).
  destruct (l_best_parent a) as [[b bv]|]; [|eexists; reflexivity].
  destruct ((l_number_of_potential_parents a >? 1) && c);
    eexists; reflexivity.
Qed.

Lemma rounds_complete (ROOT : bool) (L : layout) (RIME_ID : Z)
    (ps : list period) :
  forall n,
  node_ok L n ->
  Forall (not_at_254 L) (PVN.nbrList (mlst_pvn n)) ->
  quiet_periods L ps = true ->
  exists n',
    rounds ROOT L RIME_ID ps n = Done n'
    /\ Forall (not_at_254 L) (PVN.nbrList (mlst_pvn n')).
Proof.
  induction ps as [|p ps IH]; intros n Hok Hall Hq; cbn [rounds].
  - exists n. auto.
  - unfold quiet_periods in Hq. cbn [forallb] in Hq.
    apply andb_prop in Hq. destruct Hq as [Hq1 Hq2].
    destruct (round_parts ROOT L RIME_ID p n Hok (quiet_whole L _ Hq1))
      as (n1 & n2 & _ & _ & Hr & Hok2 & Hall2).
    specialize (Hall2 Hall Hq1). rewrite Hr.
    destruct (after_wait_completes ROOT L RIME_ID (coin p) n2 Hall2)
      as (n3 & Ha).
    rewrite Ha.
    destruct (after_wait_ok ROOT L RIME_ID _ _ _ Hok2 Ha) as (Hok3 & Hpvn).
    apply IH; [exact Hok3| |exact Hq2]. rewrite Hpvn. exact Hall2.
Qed.

(** X21.  When the thread never faults.  As long as every broadcast frame
    that arrives during a wait has at least
    [sizeof(struct mlst_public_variable)] bytes and does not carry the
    distance 254 in them, every send is of fewer than 65535 bytes and
    every data frame of the transport carries its sequence number (and at
    most 65535 bytes), every pass through the loop of [mlst_process] after
    [mlst_init] runs to its end, on the root or not, whatever else the
    periods bring: the clock, the senders and the order of what arrives,
    the coin; and no entry of the neighbourhood publishes the distance
    254. *)
Theorem thread_never_faults_without_254 (ROOT : bool) (L : layout)
    (RIME_ID : Z) (ps : list period) :
  quiet_periods L ps = true ->
  exists n,
    rounds ROOT L RIME_ID ps (mlst_init L) = Done n
    /\ Forall (not_at_254 L) (PVN.nbrList (mlst_pvn n)).
Proof.
  intros Hq. apply rounds_complete; [apply init_ok| |exact Hq].
  apply Forall_nil.
Qed.

Lemma thread_never_faults_witness :
  exists n,
    rounds false packed 7
      [mk_period 0 [Frame (mk_linkaddr 0 2) [1; 9; 0; 0] 0;
                    Transport (RSU.InSend [42])] false;
       mk_period 1 [Frame (mk_linkaddr 0 3) [1; 9; 0; 0] 1] true]
      (mlst_init packed) = Done n
    /\ Forall (not_at_254 packed) (PVN.nbrList (mlst_pvn n)).
Proof.
  apply (thread_never_faults_without_254 false packed 7
           [mk_period 0 [Frame (mk_linkaddr 0 2) [1; 9; 0; 0] 0;
                         Transport (RSU.InSend [42])] false;
            mk_period 1 [Frame (mk_linkaddr 0 3) [1; 9; 0; 0] 1] true]).
  reflexivity.
Defined.

Lemma allow_sleeping_sets_flag (s r : RSU.state) :
  snd (RSU.rsunicast_allowSleeping s) = Some r ->
  RSU.rsu_is_allowed_to_sleep r = true.
Proof.
  unfold RSU.rsunicast_allowSleeping, RSU.go_to_sleep, RSU.emit, RSU.ret.
  destruct (RSU.is_nil _); cbn [snd]; intros H; inversion H; subst r;
    destruct s; reflexivity.
Qed.

(** X22.  When a node closes its broadcast channel.  If the neighbourhood
    is offline after the part of the loop in front of the wait, then the
    node is a leaf (a parent is committed and it publishes no children),
    the activity counter is spent, the transport has been allowed to
    sleep, and the age of the parent's entry, computed as the code does
    in [unsigned long], lies between 0 and [MAX_AGE_OF_PARENT]: for a
    time stamp that is not ahead of the clock, the entry has been
    refreshed within the last [MAX_AGE_OF_PARENT] seconds.  In every
    other case the channel is open during the wait. *)
Theorem offline_only_as_a_quiet_leaf (now : Z) (n n' : node) :
  before_wait now n = Done n' ->
  PVN.online (mlst_pvn n') = false ->
  mlst_is_leaf (mlst n') = true
  /\ mlst_stay_active_for_next_n_periods (mlst n') <= 0
  /\ RSU.rsu_is_allowed_to_sleep (rsu n') = true
  /\ exists i parent,
       mlst_parent (mlst n') = Some i
       /\ PVN.pvn_getNbr (PVN.nbrList (mlst_pvn n')) i = Some parent
       /\ 0 <= ulong (now - PVN.timestamp parent) <= MAX_AGE_OF_PARENT
       /\ (PVN.timestamp parent <= now < PVN.timestamp parent + 2 ^ 32 ->
           0 <= now - PVN.timestamp parent <= MAX_AGE_OF_PARENT).
Proof.
  unfold before_wait.
  destruct (PVN.pvn_remove_old_neighbor_information (mlst_pvn n) now)
    as [p evs].
  set (m := callbacks evs (mlst n)).
  destruct (online_keeps p) as (_ & _ & _ & Hon).
  destruct (offline_keeps p) as (Hl & _).
  assert (Honline : forall r,
            Done (mk_node m (mlst_online p) r) = Done n' ->
            PVN.online (mlst_pvn n') = false -> False).
  { intros r H Hoff. inversion H; subst n'. cbn [mlst_pvn] in Hoff.
    congruence. }
  unfold transport.
  destruct (mlst_is_undefined m).
  { destruct (snd (RSU.rsunicast_disallowSleeping (rsu n))); [|discriminate].
    intros H Hoff. destruct (Honline _ H Hoff). }
  destruct (mlst_is_leaf m) eqn:Hleaf.
  - destruct (snd (RSU.rsunicast_allowSleeping (rsu n))) as [r|] eqn:Hr;
      [|discriminate].
    destruct (Z.gtb_spec (mlst_stay_active_for_next_n_periods m) 0)
      as [Hs|Hs].
    { intros H Hoff. destruct (Honline _ H Hoff). }
    destruct (mlst_parent m) as [i|] eqn:Hp; [|discriminate].
    destruct (PVN.pvn_getNbr (PVN.nbrList p) i) as [parent|] eqn:Hget;
      [|discriminate].
    destruct (Z.gtb_spec (ulong (now - PVN.timestamp parent))
                MAX_AGE_OF_PARENT) as [Ha|Ha].
    { intros H Hoff. destruct (Honline _ H Hoff). }
    intros H _. inversion H; subst n'. cbn [mlst mlst_pvn rsu].
    split; [exact Hleaf|]. split; [exact Hs|].
    split; [apply (allow_sleeping_sets_flag _ _ Hr)|].
    exists i, parent. rewrite Hl.
    split; [exact Hp|]. split; [exact Hget|].
    assert (Hrange : 0 <= ulong (now - PVN.timestamp parent)).
    { unfold ulong. apply Z.mod_pos_bound. reflexivity. }
    split; [split; [exact Hrange|exact Ha]|].
    intros Hts. unfold ulong in Ha.
    rewrite Z.mod_small in Ha by lia. lia.
  - destruct (snd (RSU.rsunicast_disallowSleeping (rsu n))); [|discriminate].
    intros H Hoff. destruct (Honline _ H Hoff).
Qed.

Lemma offline_only_as_a_quiet_leaf_witness :
  exists n',
    before_wait 3
      (mk_node (mk_state (Some 2) 0 1 (mk_pv 2 2 0))
         (PVN.set_nbrs
            [PVN.mk_nbr 2 (mk_linkaddr 0 2) (Some [1; 9; 0; 0]) 0] 1
            (mlst_pvn (mlst_init packed)))
         (RSU.set_parent 2 (RSU.set_is_online true RSU.boot))) = Done n'
    /\ mlst_is_leaf (mlst n') = true
    /\ mlst_stay_active_for_next_n_periods (mlst n') <= 0
    /\ RSU.rsu_is_allowed_to_sleep (rsu n') = true
    /\ exists i parent,
         mlst_parent (mlst n') = Some i
         /\ PVN.pvn_getNbr (PVN.nbrList (mlst_pvn n')) i = Some parent
         /\ 0 <= ulong (3 - PVN.timestamp parent) <= MAX_AGE_OF_PARENT
         /\ (PVN.timestamp parent <= 3 < PVN.timestamp parent + 2 ^ 32 ->
             0 <= 3 - PVN.timestamp parent <= MAX_AGE_OF_PARENT).
Proof.
  eexists. split; [reflexivity|].
  apply (offline_only_as_a_quiet_leaf 3
           (mk_node (mk_state (Some 2) 0 1 (mk_pv 2 2 0))
              (PVN.set_nbrs
                 [PVN.mk_nbr 2 (mk_linkaddr 0 2) (Some [1; 9; 0; 0]) 0] 1
                 (mlst_pvn (mlst_init packed)))
              (RSU.set_parent 2 (RSU.set_is_online true RSU.boot)))).
  - reflexivity.
  - reflexivity.
Defined.

(** X23.  What wakes a node.  The neighbourhood holds variables of
    [sizeof(struct mlst_public_variable)] bytes, with [pvnCmp] as the
    comparison function and a change callback registered.  A frame of at
    least that many bytes, from a neighbour whose image is held, fires no
    callback exactly when the image in the frame carries the same parent
    and the same number of children as the one held: a change of the
    distance alone goes unnoticed. *)
Theorem only_parent_and_children_are_a_change (L : layout) (p : PVN.PVN)
    (from : linkaddr_t) (data : list Z) (now : Z) (old : list Z) :
  PVN.size_of_variable p = sizeof_pv L ->
  sizeof_pv L <= Z.of_nat (length data) ->
  PVN.cmp p = Some (pvnCmp L) ->
  PVN.onChange (PVN.callbacks p) = true ->
  PVN.holds p (decode_id from) old ->
  (snd (PVN.on_new_neighbor_information_at p from data now) = []
   <-> parent_id (as_pv L old)
       = parent_id (as_pv L (firstn (Z.to_nat (sizeof_pv L)) data))
       /\ children_count (as_pv L old)
          = children_count (as_pv L (firstn (Z.to_nat (sizeof_pv L)) data))).
Proof.
  intros Hsz _ Hcmp Hch (n & Hget & Hvar).
  rewrite <- Hsz. fold (PVN.copy_of p data).
  unfold PVN.on_new_neighbor_information_at.
  destruct (PVN.nbrList p) as [|m l] eqn:Hl; [discriminate|].
  destruct (find_or_create_found p (decode_id from) from data now (m :: l) n
              Hget) as (l1 & l2 & _ & _ & Hfc).
  rewrite Hfc. cbn [snd].
  unfold PVN.refresh. rewrite Hvar. cbn [fst snd].
  unfold PVN.has_changed. rewrite Hcmp, Hch, andb_true_r.
  unfold pvnCmp.
  destruct (Z.eqb_spec (parent_id (as_pv L old))
              (parent_id (as_pv L (PVN.copy_of p data)))) as [E1|E1];
    destruct (Z.eqb_spec (children_count (as_pv L old))
                (children_count (as_pv L (PVN.copy_of p data)))) as [E2|E2];
    cbn; split; try discriminate; try tauto.
Qed.

Lemma only_parent_and_children_witness :
  snd (PVN.on_new_neighbor_information_at
         (PVN.set_nbrs
            [PVN.mk_nbr 2 (mk_linkaddr 0 2) (Some [1; 9; 0; 0]) 0] 1
            (mlst_pvn (mlst_init packed)))
         (mk_linkaddr 0 2) [5; 9; 0; 0] 4) = []
  <-> parent_id (as_pv packed [1; 9; 0; 0])
      = parent_id
          (as_pv packed (firstn (Z.to_nat (sizeof_pv packed)) [5; 9; 0; 0]))
      /\ children_count (as_pv packed [1; 9; 0; 0])
         = children_count
             (as_pv packed
                (firstn (Z.to_nat (sizeof_pv packed)) [5; 9; 0; 0])).
Proof.
  apply (only_parent_and_children_are_a_change packed
           (PVN.set_nbrs
              [PVN.mk_nbr 2 (mk_linkaddr 0 2) (Some [1; 9; 0; 0]) 0] 1
              (mlst_pvn (mlst_init packed)))
           (mk_linkaddr 0 2) [5; 9; 0; 0] 4 [1; 9; 0; 0]).
  - reflexivity.
  - cbn. lia.
  - reflexivity.
  - reflexivity.
  - eexists. split; reflexivity.
Defined.

End TreeMore.

(** ** The energy-aware variant *)

Section EnergyMore.

Import EAMLST.

Lemma potential_parent_steps (a : locals) (n : PVN.Nbr)
    (v : mlst_public_variable) :
  potential_parent a n v
  = match step_same a n v with
    | NullRead => NullRead
    | Done a0 => Done (step_low (step_middle (step_high a0 n v) n v) n v)
    end.
Proof. reflexivity. Qed.

Lemma in_range_spec (d : Z) : in_range d = true -> 0 <= d <= 255 /\ d <> 254.
Proof.
  unfold in_range.
  rewrite !andb_true_iff, negb_true_iff, !Z.leb_le, Z.eqb_neq. tauto.
Qed.

Lemma uint8_succ_small (d : Z) : 0 <= d <= 255 -> d <> 255 -> uint8 (d + 1) = d + 1.
Proof. intros. apply uint8_small. lia. Qed.

Lemma sane_spec (as_pv : list Z -> mlst_public_variable) (n : PVN.Nbr)
    (bytes : list Z) :
  PVN.public_var n = Some bytes ->
  sane as_pv n = true ->
  (0 <= distance_to_root_high (as_pv bytes) <= 255
   /\ distance_to_root_high (as_pv bytes) <> 254)
  /\ (0 <= distance_to_root_middle (as_pv bytes) <= 255
      /\ distance_to_root_middle (as_pv bytes) <> 254)
  /\ (0 <= distance_to_root_low (as_pv bytes) <= 255
      /\ distance_to_root_low (as_pv bytes) <> 254).
Proof.
  intros Hv Hsane. unfold sane in Hsane. rewrite Hv in Hsane.
  apply andb_prop in Hsane. destruct Hsane as [Hsane Hrl].
  apply andb_prop in Hsane. destruct Hsane as [Hrh Hrm].
  apply in_range_spec in Hrh, Hrm, Hrl. auto.
Qed.

(** The first [if]: a neighbour at the distance of the best parent may
    take its place, and then it supplies the same distance. *)
Lemma step_same_tiers (as_pv : list Z -> mlst_public_variable) (RIME_ID : Z)
    (s : list PVN.Nbr) (a : locals) (n : PVN.Nbr) (bytes : list Z) :
  PVN.public_var n = Some bytes ->
  sane as_pv n = true ->
  potential RIME_ID (as_pv bytes) ->
  tiers as_pv RIME_ID s s s s a ->
  exists a0,
    step_same a n (as_pv bytes) = Done a0
    /\ tiers as_pv RIME_ID s s s (s ++ [n]) a0.
Proof.
  intros Hv Hsane Hpot Ht.
  destruct (sane_spec as_pv n bytes Hv Hsane) as (Hrh & Hrm & Hrl).
  set (v := as_pv bytes) in *.
  destruct a as [c H M Lw npp best stay].
  unfold tiers in Ht. cbn [l_high l_middle l_low l_best_parent] in Ht.
  destruct Ht as (Hleast & HH & HM & HL & Hbest).
  unfold step_same. cbn [l_best_parent l_high l_middle l_low].
  destruct (same_distance _ v) eqn:Hsd.
  - unfold same_distance in Hsd. cbn [l_high l_middle l_low] in Hsd.
    rewrite !orb_true_iff, !andb_true_iff, !negb_true_iff, !Z.eqb_eq,
      !Z.eqb_neq in Hsd.
    destruct best as [[b bv]|]; [|exfalso; lia].
    destruct Hbest as (Hin & Hbytes & Hbpot & Hch).
    assert (Hn : chosen H M Lw v).
    { unfold chosen. destruct (Z.eqb_spec H 255); [destruct (Z.eqb_spec M 255)|];
        lia. }
    assert (Hnew : tiers as_pv RIME_ID s s s (s ++ [n])
                     (mk_locals c H M Lw 1 (Some (n, v)) stay)
                   /\ forall k, tiers as_pv RIME_ID s s s (s ++ [n])
                        (mk_locals c H M Lw k (Some (n, v)) stay)).
    { assert (forall k, tiers as_pv RIME_ID s s s (s ++ [n])
                          (mk_locals c H M Lw k (Some (n, v)) stay)).
      { intros k. unfold tiers. cbn [l_high l_middle l_low l_best_parent].
        split; [exact Hleast|]. split; [exact HH|]. split; [exact HM|].
        split; [exact HL|]. split; [apply in_or_app; right; left; reflexivity|].
        split; [exists bytes; auto|]. split; [exact Hpot|exact Hn]. }
      auto. }
    assert (Hold : forall k, tiers as_pv RIME_ID s s s (s ++ [n])
                     (mk_locals c H M Lw k (Some (b, bv)) stay)).
    { intros k. unfold tiers. cbn [l_high l_middle l_low l_best_parent].
      split; [exact Hleast|]. split; [exact HH|]. split; [exact HM|].
      split; [exact HL|]. split; [apply in_or_app; left; exact Hin|].
      split; [exact Hbytes|]. split; [exact Hbpot|exact Hch]. }
    destruct (children_count bv <? children_count v).
    { eexists. split; [reflexivity|]. apply Hnew. }
    destruct (children_count bv =? children_count v).
    { eexists. split; [reflexivity|].
      destruct (PVN.id b >? PVN.id n); [apply Hnew|apply Hold]. }
    eexists. split; [reflexivity|]. apply Hold.
  - eexists. split; [reflexivity|].
    unfold tiers. cbn [l_high l_middle l_low l_best_parent].
    split; [exact Hleast|]. split; [exact HH|]. split; [exact HM|].
    split; [exact HL|].
    destruct best as [[b bv]|]; [|exact Hbest].
    destruct Hbest as (Hin & Hrest).
    split; [apply in_or_app; left; exact Hin|exact Hrest].
Qed.

(** The second [if]: a smaller high distance, and its neighbour as the
    best parent. *)
Lemma step_high_tiers (as_pv : list Z -> mlst_public_variable) (RIME_ID : Z)
    (s sb : list PVN.Nbr) (a : locals) (n : PVN.Nbr) (bytes : list Z) :
  PVN.public_var n = Some bytes ->
  sane as_pv n = true ->
  potential RIME_ID (as_pv bytes) ->
  In n sb ->
  tiers as_pv RIME_ID s s s sb a ->
  tiers as_pv RIME_ID (s ++ [n]) s s sb (step_high a n (as_pv bytes)).
Proof.
  intros Hv Hsane Hpot Hnb Ht.
  destruct (sane_spec as_pv n bytes Hv Hsane) as (Hrh & Hrm & Hrl).
  set (v := as_pv bytes) in *.
  destruct a as [c H M Lw npp best stay].
  unfold tiers in Ht. cbn [l_high l_middle l_low l_best_parent] in Ht.
  destruct Ht as (Hleast & HH & HM & HL & Hbest).
  unfold step_high. cbn [l_high l_middle l_low l_best_parent
    l_children_count l_number_of_potential_parents l_stay_active].
  destruct ((energy_state v =? 1) && negb (distance_to_root_high v =? 255)
            && (distance_to_root_high v + 1 <? H)) eqn:Hc.
  - rewrite !andb_true_iff, negb_true_iff, Z.eqb_eq, Z.eqb_neq, Z.ltb_lt in Hc.
    rewrite uint8_succ_small by lia.
    unfold better, tiers. cbn [l_high l_middle l_low l_best_parent].
    split.
    { intros n0 b0 Hv0 Hp0. destruct (Hleast n0 b0 Hv0 Hp0) as (L1 & L2 & L3).
      split; [|split; assumption].
      intros Hin Hes Hd. apply in_app_or in Hin.
      destruct Hin as [Hin|[<-|[]]].
      - specialize (L1 Hin Hes Hd). lia.
      - rewrite Hv in Hv0. inversion Hv0; subst b0. fold v. lia. }
    split; [lia|]. split; [exact HM|]. split; [exact HL|].
    split; [exact Hnb|]. split; [exists bytes; auto|]. split; [exact Hpot|].
    unfold chosen. destruct (Z.eqb_spec (distance_to_root_high v + 1) 255); lia.
  - rewrite !andb_false_iff, negb_false_iff, Z.eqb_eq, Z.eqb_neq, Z.ltb_ge in Hc.
    unfold tiers. cbn [l_high l_middle l_low l_best_parent].
    split; [|auto].
    intros n0 b0 Hv0 Hp0. destruct (Hleast n0 b0 Hv0 Hp0) as (L1 & L2 & L3).
    split; [|split; assumption].
    intros Hin Hes Hd. apply in_app_or in Hin.
    destruct Hin as [Hin|[<-|[]]]; [auto|].
    rewrite Hv in Hv0. inversion Hv0; subst b0. fold v in Hes, Hd |- *. lia.
Qed.

(** The third [if]: a smaller middle distance, and its neighbour as the
    best parent when no high distance is known. *)
Lemma step_middle_tiers (as_pv : list Z -> mlst_public_variable)
    (RIME_ID : Z) (sh s sb : list PVN.Nbr) (a : locals) (n : PVN.Nbr)
    (bytes : list Z) :
  PVN.public_var n = Some bytes ->
  sane as_pv n = true ->
  potential RIME_ID (as_pv bytes) ->
  In n sb ->
  tiers as_pv RIME_ID sh s s sb a ->
  tiers as_pv RIME_ID sh (s ++ [n]) s sb (step_middle a n (as_pv bytes)).
Proof.
  intros Hv Hsane Hpot Hnb Ht.
  destruct (sane_spec as_pv n bytes Hv Hsane) as (Hrh & Hrm & Hrl).
  set (v := as_pv bytes) in *.
  destruct a as [c H M Lw npp best stay].
  unfold tiers in Ht. cbn [l_high l_middle l_low l_best_parent] in Ht.
  destruct Ht as (Hleast & HH & HM & HL & Hbest).
  unfold step_middle. cbn [l_high l_middle l_low l_best_parent
    l_children_count l_number_of_potential_parents l_stay_active].
  destruct (negb (energy_state v =? 3)
            && negb (distance_to_root_middle v =? 255)
            && (distance_to_root_middle v + 1 <? M)) eqn:Hc.
  - rewrite !andb_true_iff, !negb_true_iff, !Z.eqb_neq, Z.ltb_lt in Hc.
    rewrite uint8_succ_small by lia.
    assert (Hl' : least as_pv RIME_ID sh (s ++ [n]) s H
                    (distance_to_root_middle v + 1) Lw).
    { intros n0 b0 Hv0 Hp0. destruct (Hleast n0 b0 Hv0 Hp0) as (L1 & L2 & L3).
      split; [assumption|]. split; [|assumption].
      intros Hin Hes Hd. apply in_app_or in Hin.
      destruct Hin as [Hin|[<-|[]]].
      - specialize (L2 Hin Hes Hd). lia.
      - rewrite Hv in Hv0. inversion Hv0; subst b0. fold v. lia. }
    destruct (Z.eqb_spec H 255) as [EH|EH].
    + unfold better, tiers. cbn [l_high l_middle l_low l_best_parent].
      split; [exact Hl'|]. split; [exact HH|]. split; [lia|].
      split; [exact HL|]. split; [exact Hnb|].
      split; [exists bytes; auto|]. split; [exact Hpot|].
      unfold chosen. rewrite EH. cbn.
      destruct (Z.eqb_spec (distance_to_root_middle v + 1) 255); lia.
    + unfold tiers. cbn [l_high l_middle l_low l_best_parent].
      split; [exact Hl'|]. split; [exact HH|]. split; [lia|].
      split; [exact HL|].
      destruct best as [[b bv]|]; [|lia].
      destruct Hbest as (Hin & Hbytes & Hbpot & Hch).
      split; [exact Hin|]. split; [exact Hbytes|]. split; [exact Hbpot|].
      unfold chosen in *. destruct (Z.eqb_spec H 255); [lia|exact Hch].
  - rewrite !andb_false_iff, !negb_false_iff, !Z.eqb_eq, Z.ltb_ge in Hc.
    unfold tiers. cbn [l_high l_middle l_low l_best_parent].
    split; [|auto].
    intros n0 b0 Hv0 Hp0. destruct (Hleast n0 b0 Hv0 Hp0) as (L1 & L2 & L3).
    split; [assumption|]. split; [|assumption].
    intros Hin Hes Hd. apply in_app_or in Hin.
    destruct Hin as [Hin|[<-|[]]]; [auto|].
    rewrite Hv in Hv0. inversion Hv0; subst b0. fold v in Hes, Hd |- *. lia.
Qed.

(** The fourth [if]: a smaller low distance, and its neighbour as the best
    parent when neither a high nor a middle distance is known. *)
Lemma step_low_tiers (as_pv : list Z -> mlst_public_variable) (RIME_ID : Z)
    (sh sm s sb : list PVN.Nbr) (a : locals) (n : PVN.Nbr) (bytes : list Z) :
  PVN.public_var n = Some bytes ->
  sane as_pv n = true ->
  potential RIME_ID (as_pv bytes) ->
  In n sb ->
  tiers as_pv RIME_ID sh sm s sb a ->
  tiers as_pv RIME_ID sh sm (s ++ [n]) sb (step_low a n (as_pv bytes)).
Proof.
  intros Hv Hsane Hpot Hnb Ht.
  destruct (sane_spec as_pv n bytes Hv Hsane) as (Hrh & Hrm & Hrl).
  set (v := as_pv bytes) in *.
  destruct a as [c H M Lw npp best stay].
  unfold tiers in Ht. cbn [l_high l_middle l_low l_best_parent] in Ht.
  destruct Ht as (Hleast & HH & HM & HL & Hbest).
  unfold step_low. cbn [l_high l_middle l_low l_best_parent
    l_children_count l_number_of_potential_parents l_stay_active].
  destruct (negb (distance_to_root_low v =? 255)
            && (distance_to_root_low v + 1 <? Lw)) eqn:Hc.
  - rewrite !andb_true_iff, !negb_true_iff, !Z.eqb_neq, Z.ltb_lt in Hc.
    rewrite uint8_succ_small by lia.
    assert (Hl' : least as_pv RIME_ID sh sm (s ++ [n]) H M
                    (distance_to_root_low v + 1)).
    { intros n0 b0 Hv0 Hp0. destruct (Hleast n0 b0 Hv0 Hp0) as (L1 & L2 & L3).
      split; [assumption|]. split; [assumption|].
      intros Hin Hd. apply in_app_or in Hin.
      destruct Hin as [Hin|[<-|[]]].
      - specialize (L3 Hin Hd). lia.
      - rewrite Hv in Hv0. inversion Hv0; subst b0. fold v. lia. }
    destruct (Z.eqb_spec H 255) as [EH|EH];
      [destruct (Z.eqb_spec M 255) as [EM|EM]|]; cbn [andb].
    + unfold better, tiers. cbn [l_high l_middle l_low l_best_parent].
      split; [exact Hl'|]. split; [exact HH|]. split; [exact HM|].
      split; [lia|]. split; [exact Hnb|].
      split; [exists bytes; auto|]. split; [exact Hpot|].
      unfold chosen. rewrite EH, EM. reflexivity.
    + unfold tiers. cbn [l_high l_middle l_low l_best_parent].
      split; [exact Hl'|]. split; [exact HH|]. split; [exact HM|].
      split; [lia|].
      destruct best as [[b bv]|]; [|lia].
      destruct Hbest as (Hin & Hbytes & Hbpot & Hch).
      split; [exact Hin|]. split; [exact Hbytes|]. split; [exact Hbpot|].
      unfold chosen in *. rewrite EH in *. cbn in *.
      destruct (Z.eqb_spec M 255); [lia|exact Hch].
    + unfold tiers. cbn [l_high l_middle l_low l_best_parent].
      split; [exact Hl'|]. split; [exact HH|]. split; [exact HM|].
      split; [lia|].
      destruct best as [[b bv]|]; [|lia].
      destruct Hbest as (Hin & Hbytes & Hbpot & Hch).
      split; [exact Hin|]. split; [exact Hbytes|]. split; [exact Hbpot|].
      unfold chosen in *. destruct (Z.eqb_spec H 255); [lia|exact Hch].
  - rewrite !andb_false_iff, !negb_false_iff, !Z.eqb_eq, Z.ltb_ge in Hc.
    unfold tiers. cbn [l_high l_middle l_low l_best_parent].
    split; [|auto].
    intros n0 b0 Hv0 Hp0. destruct (Hleast n0 b0 Hv0 Hp0) as (L1 & L2 & L3).
    split; [assumption|]. split; [assumption|].
    intros Hin Hd. apply in_app_or in Hin.
    destruct Hin as [Hin|[<-|[]]]; [auto|].
    rewrite Hv in Hv0. inversion Hv0; subst b0. fold v in Hd |- *. lia.
Qed.

(** A neighbour that is counted as a child leaves the distances and the
    best parent alone. *)
Lemma tiers_skip (as_pv : list Z -> mlst_public_variable) (RIME_ID : Z)
    (s : list PVN.Nbr) (a a' : locals) (n : PVN.Nbr) (bytes : list Z) :
  PVN.public_var n = Some bytes ->
  ~ potential RIME_ID (as_pv bytes) ->
  l_high a' = l_high a -> l_middle a' = l_middle a -> l_low a' = l_low a ->
  l_best_parent a' = l_best_parent a ->
  tiers as_pv RIME_ID s s s s a ->
  tiers as_pv RIME_ID (s ++ [n]) (s ++ [n]) (s ++ [n]) (s ++ [n]) a'.
Proof.
  intros Hv Hnp E1 E2 E3 E4 (Hleast & HH & HM & HL & Hbest).
  unfold tiers. rewrite E1, E2, E3, E4.
  split.
  { intros n0 b0 Hv0 Hp0. destruct (Hleast n0 b0 Hv0 Hp0) as (L1 & L2 & L3).
    assert (Hold : In n0 (s ++ [n]) -> In n0 s).
    { intros Hin. apply in_app_or in Hin. destruct Hin as [Hin|[<-|[]]];
        [exact Hin|].
      rewrite Hv in Hv0. inversion Hv0; subst b0. contradiction. }
    split; [|split]; intros Hin; auto. }
  split; [exact HH|]. split; [exact HM|]. split; [exact HL|].
  destruct (l_best_parent a) as [[b bv]|]; [|exact Hbest].
  destruct Hbest as (Hin & Hrest).
  split; [apply in_or_app; left; exact Hin|exact Hrest].
Qed.

Lemma visit_tiers (as_pv : list Z -> mlst_public_variable) (RIME_ID : Z)
    (s : list PVN.Nbr) (a : locals) (n : PVN.Nbr) :
  sane as_pv n = true ->
  tiers as_pv RIME_ID s s s s a ->
  exists a1,
    visit as_pv RIME_ID a n = Done a1
    /\ tiers as_pv RIME_ID (s ++ [n]) (s ++ [n]) (s ++ [n]) (s ++ [n]) a1.
Proof.
  intros Hsane Ht. unfold visit.
  destruct (PVN.public_var n) as [bytes|] eqn:Hv;
    [|unfold sane in Hsane; rewrite Hv in Hsane; discriminate].
  destruct (Z.eqb_spec (parent_id (as_pv bytes)) 0) as [E0|E0].
  { eexists. split; [reflexivity|].
    apply (tiers_skip as_pv RIME_ID s a _ n bytes Hv); try reflexivity;
      [|exact Ht].
    intros (H & _). contradiction. }
  destruct (Z.eqb_spec (parent_id (as_pv bytes)) RIME_ID) as [E1|E1];
    cbn [orb].
  { eexists. split; [reflexivity|].
    apply (tiers_skip as_pv RIME_ID s a _ n bytes Hv); try reflexivity;
      [|exact Ht].
    intros (_ & H & _). contradiction. }
  destruct (Z.eqb_spec (energy_state (as_pv bytes)) 0) as [E2|E2].
  { eexists. split; [reflexivity|].
    apply (tiers_skip as_pv RIME_ID s a _ n bytes Hv); try reflexivity;
      [|exact Ht].
    intros (_ & _ & H). contradiction. }
  assert (Hpot : potential RIME_ID (as_pv bytes)) by (repeat split; assumption).
  rewrite potential_parent_steps.
  destruct (step_same_tiers as_pv RIME_ID s a n bytes Hv Hsane Hpot Ht)
    as (a0 & -> & Ht0).
  eexists. split; [reflexivity|].
  assert (Hin : In n (s ++ [n])) by (apply in_or_app; right; left; reflexivity).
  apply (step_low_tiers as_pv RIME_ID _ _ s _ _ n bytes Hv Hsane Hpot Hin).
  apply (step_middle_tiers as_pv RIME_ID _ s _ _ n bytes Hv Hsane Hpot Hin).
  apply (step_high_tiers as_pv RIME_ID s _ _ n bytes Hv Hsane Hpot Hin).
  exact Ht0.
Qed.

Lemma iterate_tiers (as_pv : list Z -> mlst_public_variable) (RIME_ID : Z)
    (nbrs : list PVN.Nbr) :
  forall (s : list PVN.Nbr) (a : locals),
  forallb (sane as_pv) nbrs = true ->
  tiers as_pv RIME_ID s s s s a ->
  exists a',
    iterate as_pv RIME_ID a nbrs = Done a'
    /\ tiers as_pv RIME_ID (s ++ nbrs) (s ++ nbrs) (s ++ nbrs) (s ++ nbrs) a'.
Proof.
  induction nbrs as [|n nbrs IH]; intros s a Hall Ht; cbn [iterate].
  - exists a. rewrite app_nil_r. auto.
  - cbn [forallb] in Hall. apply andb_prop in Hall. destruct Hall as [Hn Hrest].
    destruct (visit_tiers as_pv RIME_ID s a n Hn Ht) as (a1 & -> & Ht1).
    replace (s ++ n :: nbrs) with ((s ++ [n]) ++ nbrs)
      by (rewrite <- app_assoc; reflexivity).
    apply IH; assumption.
Qed.

Lemma attains_more (as_pv : list Z -> mlst_public_variable)
    (s : list PVN.Nbr) (n : PVN.Nbr) (counts : mlst_public_variable -> Prop)
    (dist : mlst_public_variable -> Z) (d : Z) :
  attains as_pv s counts dist d -> attains as_pv (s ++ [n]) counts dist d.
Proof.
  intros [E|(n0 & b0 & Hin & Hrest)]; [left; exact E|].
  right. exists n0, b0. split; [apply in_or_app; left; exact Hin|exact Hrest].
Qed.

Lemma attained_more (as_pv : list Z -> mlst_public_variable) (RIME_ID : Z)
    (s : list PVN.Nbr) (n : PVN.Nbr) (high middle low : Z) :
  attained as_pv RIME_ID s high middle low ->
  attained as_pv RIME_ID (s ++ [n]) high middle low.
Proof.
  intros (H1 & H2 & H3).
  split; [|split]; apply attains_more; assumption.
Qed.

(** The first [if] leaves the three distances as they are. *)
Lemma step_same_distances (a a0 : locals) (n : PVN.Nbr)
    (v : mlst_public_variable) :
  step_same a n v = Done a0 ->
  l_high a0 = l_high a /\ l_middle a0 = l_middle a /\ l_low a0 = l_low a.
Proof.
  unfold step_same. destruct (same_distance a v); [|intros H; inversion H; auto].
  destruct (l_best_parent a) as [[b bv]|]; [|discriminate].
  destruct (children_count bv <? children_count v);
    [intros H; inversion H; cbn; auto|].
  destruct (children_count bv =? children_count v);
    intros H; inversion H; cbn; auto.
Qed.

(** The second, third and fourth [if] write a distance that the
    neighbour visited supplies. *)
Lemma step_high_attained (as_pv : list Z -> mlst_public_variable)
    (RIME_ID : Z) (s : list PVN.Nbr) (a : locals) (n : PVN.Nbr)
    (bytes : list Z) :
  PVN.public_var n = Some bytes ->
  sane as_pv n = true ->
  potential RIME_ID (as_pv bytes) ->
  In n s ->
  attained as_pv RIME_ID s (l_high a) (l_middle a) (l_low a) ->
  attained as_pv RIME_ID s (l_high (step_high a n (as_pv bytes)))
    (l_middle (step_high a n (as_pv bytes)))
    (l_low (step_high a n (as_pv bytes))).
Proof.
  intros Hv Hsane Hpot Hin (A1 & A2 & A3).
  destruct (sane_spec as_pv n bytes Hv Hsane) as (Hrh & Hrm & Hrl).
  set (v := as_pv bytes) in *.
  destruct a as [c H M Lw npp best stay].
  cbn [l_high l_middle l_low] in A1, A2, A3.
  unfold step_high. cbn [l_high l_middle l_low l_best_parent
    l_children_count l_number_of_potential_parents l_stay_active].
  destruct ((energy_state v =? 1) && negb (distance_to_root_high v =? 255)
            && (distance_to_root_high v + 1 <? H)) eqn:Hc.
  - rewrite !andb_true_iff, negb_true_iff, Z.eqb_eq, Z.eqb_neq, Z.ltb_lt in Hc.
    rewrite uint8_succ_small by lia.
    unfold better. cbn [l_high l_middle l_low].
    split; [|split; assumption].
    right. exists n, bytes. fold v. unfold high_counts. tauto.
  - cbn [l_high l_middle l_low]. split; [|split]; assumption.
Qed.

Lemma step_middle_attained (as_pv : list Z -> mlst_public_variable)
    (RIME_ID : Z) (s : list PVN.Nbr) (a : locals) (n : PVN.Nbr)
    (bytes : list Z) :
  PVN.public_var n = Some bytes ->
  sane as_pv n = true ->
  potential RIME_ID (as_pv bytes) ->
  In n s ->
  attained as_pv RIME_ID s (l_high a) (l_middle a) (l_low a) ->
  attained as_pv RIME_ID s (l_high (step_middle a n (as_pv bytes)))
    (l_middle (step_middle a n (as_pv bytes)))
    (l_low (step_middle a n (as_pv bytes))).
Proof.
  intros Hv Hsane Hpot Hin (A1 & A2 & A3).
  destruct (sane_spec as_pv n bytes Hv Hsane) as (Hrh & Hrm & Hrl).
  set (v := as_pv bytes) in *.
  destruct a as [c H M Lw npp best stay].
  cbn [l_high l_middle l_low] in A1, A2, A3.
  unfold step_middle. cbn [l_high l_middle l_low l_best_parent
    l_children_count l_number_of_potential_parents l_stay_active].
  destruct (negb (energy_state v =? 3)
            && negb (distance_to_root_middle v =? 255)
            && (distance_to_root_middle v + 1 <? M)) eqn:Hc.
  - rewrite !andb_true_iff, !negb_true_iff, !Z.eqb_neq, Z.ltb_lt in Hc.
    rewrite uint8_succ_small by lia.
    assert (Hm : attains as_pv s (middle_counts RIME_ID)
                   distance_to_root_middle (distance_to_root_middle v + 1)).
    { right. exists n, bytes. fold v. unfold middle_counts. tauto. }
    destruct (H =? 255); unfold better; cbn [l_high l_middle l_low];
      (split; [|split]); assumption.
  - cbn [l_high l_middle l_low]. split; [|split]; assumption.
Qed.

Lemma step_low_attained (as_pv : list Z -> mlst_public_variable)
    (RIME_ID : Z) (s : list PVN.Nbr) (a : locals) (n : PVN.Nbr)
    (bytes : list Z) :
  PVN.public_var n = Some bytes ->
  sane as_pv n = true ->
  potential RIME_ID (as_pv bytes) ->
  In n s ->
  attained as_pv RIME_ID s (l_high a) (l_middle a) (l_low a) ->
  attained as_pv RIME_ID s (l_high (step_low a n (as_pv bytes)))
    (l_middle (step_low a n (as_pv bytes)))
    (l_low (step_low a n (as_pv bytes))).
Proof.
  intros Hv Hsane Hpot Hin (A1 & A2 & A3).
  destruct (sane_spec as_pv n bytes Hv Hsane) as (Hrh & Hrm & Hrl).
  set (v := as_pv bytes) in *.
  destruct a as [c H M Lw npp best stay].
  cbn [l_high l_middle l_low] in A1, A2, A3.
  unfold step_low. cbn [l_high l_middle l_low l_best_parent
    l_children_count l_number_of_potential_parents l_stay_active].
  destruct (negb (distance_to_root_low v =? 255)
            && (distance_to_root_low v + 1 <? Lw)) eqn:Hc.
  - rewrite !andb_true_iff, !negb_true_iff, !Z.eqb_neq, Z.ltb_lt in Hc.
    rewrite uint8_succ_small by lia.
    assert (Hl : attains as_pv s (low_counts RIME_ID)
                   distance_to_root_low (distance_to_root_low v + 1)).
    { right. exists n, bytes. fold v. unfold low_counts. tauto. }
    destruct ((H =? 255) && (M =? 255)); unfold better;
      cbn [l_high l_middle l_low]; (split; [|split]); assumption.
  - cbn [l_high l_middle l_low]. split; [|split]; assumption.
Qed.

(** One iteration keeps the three distances attained. *)
Lemma visit_attained (as_pv : list Z -> mlst_public_variable) (RIME_ID : Z)
    (s : list PVN.Nbr) (a a1 : locals) (n : PVN.Nbr) :
  sane as_pv n = true ->
  visit as_pv RIME_ID a n = Done a1 ->
  attained as_pv RIME_ID s (l_high a) (l_middle a) (l_low a) ->
  attained as_pv RIME_ID (s ++ [n]) (l_high a1) (l_middle a1) (l_low a1).
Proof.
  intros Hsane Hvis Hat. apply (attained_more _ _ _ n) in Hat.
  revert Hvis. unfold visit.
  destruct (PVN.public_var n) as [bytes|] eqn:Hv; [|discriminate].
  destruct (Z.eqb_spec (parent_id (as_pv bytes)) 0) as [E0|E0];
    [intros H; inversion H; subst a1; exact Hat|].
  destruct (Z.eqb_spec (parent_id (as_pv bytes)) RIME_ID) as [E1|E1];
    cbn [orb]; [intros H; inversion H; subst a1; exact Hat|].
  destruct (Z.eqb_spec (energy_state (as_pv bytes)) 0) as [E2|E2];
    [intros H; inversion H; subst a1; exact Hat|].
  assert (Hpot : potential RIME_ID (as_pv bytes)) by (repeat split; assumption).
  rewrite potential_parent_steps.
  destruct (step_same a n (as_pv bytes)) as [a0|] eqn:Hs; [|discriminate].
  destruct (step_same_distances a a0 n _ Hs) as (E3 & E4 & E5).
  rewrite <- E3, <- E4, <- E5 in Hat.
  intros H; inversion H; subst a1; clear H.
  assert (Hin : In n (s ++ [n])) by (apply in_or_app; right; left; reflexivity).
  apply (step_low_attained as_pv RIME_ID _ _ n bytes Hv Hsane Hpot Hin).
  apply (step_middle_attained as_pv RIME_ID _ _ n bytes Hv Hsane Hpot Hin).
  apply (step_high_attained as_pv RIME_ID _ _ n bytes Hv Hsane Hpot Hin).
  exact Hat.
Qed.

Lemma iterate_attained (as_pv : list Z -> mlst_public_variable)
    (RIME_ID : Z) (nbrs : list PVN.Nbr) :
  forall (s : list PVN.Nbr) (a a' : locals),
  forallb (sane as_pv) nbrs = true ->
  iterate as_pv RIME_ID a nbrs = Done a' ->
  attained as_pv RIME_ID s (l_high a) (l_middle a) (l_low a) ->
  attained as_pv RIME_ID (s ++ nbrs) (l_high a') (l_middle a') (l_low a').
Proof.
  induction nbrs as [|n nbrs IH]; intros s a a' Hall; cbn [iterate].
  - intros H; inversion H; subst a'. rewrite app_nil_r. auto.
  - cbn [forallb] in Hall. apply andb_prop in Hall. destruct Hall as [Hn Hrest].
    destruct (visit as_pv RIME_ID a n) as [a1|] eqn:Hvis; [|discriminate].
    intros Hit Hat.
    replace (s ++ n :: nbrs) with ((s ++ [n]) ++ nbrs)
      by (rewrite <- app_assoc; reflexivity).
    apply (IH _ a1 a' Hrest Hit).
    apply (visit_attained as_pv RIME_ID s a a1 n Hn Hvis Hat).
Qed.

(** X24.  The parent of the energy-aware variant.  The neighbours publish
    distances that are values of a [uint8_t] other than 254.  Then
    [mlst_recalculate] returns, and when it has committed a parent (the
    published [parent_id] is not 0) that parent is an entry [best] of the
    list that took the potential-parent branch, and each of the three
    published distances is the least of its kind plus one: no entry that
    counts for the kind publishes a smaller distance ([least]), and the
    published value is one more than the distance of an entry that
    counts, or 255 when none does ([attained]).  For the high distance the
    potential parents with the energy state 1 count, for the middle
    distance those whose energy state is not 3, for the low distance all
    of them; a distance of 255 is unknown and never counts.  The parent
    supplies the first of the three that is known: with a high distance
    published, [best] has the energy state 1 and its high distance is one
    less; otherwise, with a middle distance published, the energy state
    of [best] is not 3 and its middle distance is one less; otherwise its
    low distance is one less than the published one. *)
Theorem energy_aware_parent_follows_the_tiers
    (as_pv : list Z -> mlst_public_variable) (RIME_ID : Z)
    (nbrs : list PVN.Nbr) (coin : bool) (s : state) :
  forallb (sane as_pv) nbrs = true ->
  exists s',
    mlst_recalculate false as_pv RIME_ID nbrs coin s = Done s'
    /\ (parent_id (own_mlst_public_variable s') <> 0 ->
        exists best bytes,
          In best nbrs
          /\ PVN.public_var best = Some bytes
          /\ potential RIME_ID (as_pv bytes)
          /\ mlst_parent s' = Some (PVN.id best)
          /\ parent_id (own_mlst_public_variable s') = PVN.id best
          /\ chosen
               (distance_to_root_high (own_mlst_public_variable s'))
               (distance_to_root_middle (own_mlst_public_variable s'))
               (distance_to_root_low (own_mlst_public_variable s'))
               (as_pv bytes)
          /\ least as_pv RIME_ID nbrs nbrs nbrs
               (distance_to_root_high (own_mlst_public_variable s'))
               (distance_to_root_middle (own_mlst_public_variable s'))
               (distance_to_root_low (own_mlst_public_variable s'))
          /\ attained as_pv RIME_ID nbrs
               (distance_to_root_high (own_mlst_public_variable s'))
               (distance_to_root_middle (own_mlst_public_variable s'))
               (distance_to_root_low (own_mlst_public_variable s'))).
Proof.
  intros Hall. unfold mlst_recalculate.
  assert (H0 : tiers as_pv RIME_ID [] [] [] []
                 (start (mlst_stay_active_for_next_n_periods s))).
  { unfold tiers, start. cbn [l_high l_middle l_low l_best_parent].
    split; [|lia].
    intros n b _ _. split; [|split]; intros []. }
  assert (A0 : attained as_pv RIME_ID []
                 (l_high (start (mlst_stay_active_for_next_n_periods s)))
                 (l_middle (start (mlst_stay_active_for_next_n_periods s)))
                 (l_low (start (mlst_stay_active_for_next_n_periods s)))).
  { split; [|split]; left; reflexivity. }
  destruct (iterate_tiers as_pv RIME_ID nbrs [] _ Hall H0) as (a & Hit & Ht).
  pose proof (iterate_attained as_pv RIME_ID nbrs [] _ a Hall Hit A0) as Hat.
  rewrite Hit.
  cbn [app] in Ht, Hat. destruct Ht as (Hleast & _ & _ & _ & Hbest).
  destruct (l_best_parent a) as [[b bv]|].
  - destruct Hbest as (Hin & (bytes & Hv & ->) & Hpot & Hch).
    destruct ((l_number_of_potential_parents a >? 1) && coin).
    + eexists. split; [reflexivity|]. cbn. intros H. congruence.
    + eexists. split; [reflexivity|]. cbn. intros _.
      exists b, bytes. auto 10.
  - eexists. split; [reflexivity|]. cbn. intros H. congruence.
Qed.

(** X24 at two neighbours: node 2 in the energy state 2 with the
    distances 255, 3, 3 and node 3 in the energy state 1 with 4, 4, 4; the
    distances 5, 4, 4 are published with node 3 as the parent. *)
Lemma energy_aware_parent_witness :
  exists s',
    mlst_recalculate false packed 7
      [PVN.mk_nbr 2 PVN.null_addr (Some [255; 3; 3; 9; 0; 0; 2]) 0;
       PVN.mk_nbr 3 PVN.null_addr (Some [4; 4; 4; 9; 0; 0; 1]) 0]
      false init_state = Done s'
    /\ (parent_id (own_mlst_public_variable s') <> 0 ->
        exists best bytes,
          In best
            [PVN.mk_nbr 2 PVN.null_addr (Some [255; 3; 3; 9; 0; 0; 2]) 0;
             PVN.mk_nbr 3 PVN.null_addr (Some [4; 4; 4; 9; 0; 0; 1]) 0]
          /\ PVN.public_var best = Some bytes
          /\ potential 7 (packed bytes)
          /\ mlst_parent s' = Some (PVN.id best)
          /\ parent_id (own_mlst_public_variable s') = PVN.id best
          /\ chosen
               (distance_to_root_high (own_mlst_public_variable s'))
               (distance_to_root_middle (own_mlst_public_variable s'))
               (distance_to_root_low (own_mlst_public_variable s'))
               (packed bytes)
          /\ least packed 7
               [PVN.mk_nbr 2 PVN.null_addr (Some [255; 3; 3; 9; 0; 0; 2]) 0;
                PVN.mk_nbr 3 PVN.null_addr (Some [4; 4; 4; 9; 0; 0; 1]) 0]
               [PVN.mk_nbr 2 PVN.null_addr (Some [255; 3; 3; 9; 0; 0; 2]) 0;
                PVN.mk_nbr 3 PVN.null_addr (Some [4; 4; 4; 9; 0; 0; 1]) 0]
               [PVN.mk_nbr 2 PVN.null_addr (Some [255; 3; 3; 9; 0; 0; 2]) 0;
                PVN.mk_nbr 3 PVN.null_addr (Some [4; 4; 4; 9; 0; 0; 1]) 0]
               (distance_to_root_high (own_mlst_public_variable s'))
               (distance_to_root_middle (own_mlst_public_variable s'))
               (distance_to_root_low (own_mlst_public_variable s'))
          /\ attained packed 7
               [PVN.mk_nbr 2 PVN.null_addr (Some [255; 3; 3; 9; 0; 0; 2]) 0;
                PVN.mk_nbr 3 PVN.null_addr (Some [4; 4; 4; 9; 0; 0; 1]) 0]
               (distance_to_root_high (own_mlst_public_variable s'))
               (distance_to_root_middle (own_mlst_public_variable s'))
               (distance_to_root_low (own_mlst_public_variable s'))).
Proof.
  apply (energy_aware_parent_follows_the_tiers packed 7
           [PVN.mk_nbr 2 PVN.null_addr (Some [255; 3; 3; 9; 0; 0; 2]) 0;
            PVN.mk_nbr 3 PVN.null_addr (Some [4; 4; 4; 9; 0; 0; 1]) 0]
           false init_state).
  reflexivity.
Defined.

(** The loop over neighbours that are all counted as children. *)
Lemma iterate_children_only (as_pv : list Z -> mlst_public_variable)
    (RIME_ID : Z) (nbrs : list PVN.Nbr) :
  forall (a : locals) (c : Z),
  forallb (is_child as_pv RIME_ID) nbrs = true ->
  l_children_count a = uint8 c ->
  exists a',
    iterate as_pv RIME_ID a nbrs = Done a'
    /\ l_best_parent a' = l_best_parent a
    /\ l_children_count a' = uint8 (c + Z.of_nat (length nbrs)).
Proof.
  induction nbrs as [|n nbrs IH]; intros a c Hall Hc; cbn [iterate].
  - exists a. split; [reflexivity|]. split; [reflexivity|].
    rewrite Hc. cbn [length]. apply (f_equal uint8). lia.
  - cbn [forallb] in Hall. apply andb_prop in Hall. destruct Hall as [Hn Hrest].
    unfold is_child in Hn. unfold visit.
    destruct (PVN.public_var n) as [bytes|]; [|discriminate].
    assert (Hc1 : uint8 (l_children_count a + 1) = uint8 (c + 1))
      by (rewrite Hc; apply uint8_succ).
    assert (Hlen : c + 1 + Z.of_nat (length nbrs)
                   = c + Z.of_nat (length (n :: nbrs)))
      by (cbn [length]; lia).
    destruct (parent_id (as_pv bytes) =? 0).
    { match goal with
      | |- exists a', iterate _ _ ?a0 nbrs = _ /\ _ =>
          destruct (IH a0 (c + 1) Hrest Hc1) as (a' & Hit & Hb & Hcc)
      end.
      exists a'. split; [exact Hit|]. split; [exact Hb|].
      rewrite Hcc, Hlen. reflexivity. }
    cbn [orb] in Hn. rewrite Hn.
    match goal with
      | |- exists a', iterate _ _ ?a0 nbrs = _ /\ _ =>
          destruct (IH a0 (c + 1) Hrest Hc1) as (a' & Hit & Hb & Hcc)
      end.
    exists a'. split; [exact Hit|]. split; [exact Hb|].
    rewrite Hcc, Hlen. reflexivity.
Qed.

(** X25.  No energy state, no tree.  A neighbour with the energy state 0
    is counted as a child like an undefined one.  When every neighbour is
    undefined, a child of this node or in the energy state 0,
    [mlst_recalculate] of the energy-aware variant returns, leaves
    [mlst_parent] as it was and publishes the parent 0 with all three
    distances at 255 and every neighbour as a child; the energy state it
    publishes is its own, unchanged. *)
Theorem energy_state_zero_is_nobodys_parent
    (as_pv : list Z -> mlst_public_variable) (RIME_ID : Z)
    (nbrs : list PVN.Nbr) (coin : bool) (s : state) :
  forallb (is_child as_pv RIME_ID) nbrs = true ->
  exists s',
    mlst_recalculate false as_pv RIME_ID nbrs coin s = Done s'
    /\ own_mlst_public_variable s'
       = mk_pv 255 255 255 0 (uint8 (Z.of_nat (length nbrs)))
           (energy_state (own_mlst_public_variable s))
    /\ mlst_parent s' = mlst_parent s.
Proof.
  intros Hall. unfold mlst_recalculate.
  destruct (iterate_children_only as_pv RIME_ID nbrs
              (start (mlst_stay_active_for_next_n_periods s)) 0 Hall eq_refl)
    as (a & -> & Hb & Hc).
  cbn [start l_best_parent] in Hb. rewrite Hb, Hc. cbn [Z.add].
  eexists. split; [reflexivity|]. cbn. auto.
Qed.

Lemma energy_state_zero_witness :
  exists s',
    mlst_recalculate false packed 7
      [PVN.mk_nbr 1 PVN.null_addr (Some [0; 0; 0; 255; 255; 255; 0]) 0;
       PVN.mk_nbr 3 PVN.null_addr (Some [1; 1; 1; 1; 0; 0; 0]) 0]
      false init_state = Done s'
    /\ own_mlst_public_variable s'
       = mk_pv 255 255 255 0
           (uint8 (Z.of_nat
              (length
                 [PVN.mk_nbr 1 PVN.null_addr
                    (Some [0; 0; 0; 255; 255; 255; 0]) 0;
                  PVN.mk_nbr 3 PVN.null_addr
                    (Some [1; 1; 1; 1; 0; 0; 0]) 0])))
           (energy_state (own_mlst_public_variable init_state))
    /\ mlst_parent s' = mlst_parent init_state.
Proof.
  apply (energy_state_zero_is_nobodys_parent packed 7
           [PVN.mk_nbr 1 PVN.null_addr (Some [0; 0; 0; 255; 255; 255; 0]) 0;
            PVN.mk_nbr 3 PVN.null_addr (Some [1; 1; 1; 1; 0; 0; 0]) 0]
           false init_state).
  reflexivity.
Defined.

(** X26.  The energy state is the caller's.  [mlst_recalculate] of the
    energy-aware variant, on the root or not and whatever it decides,
    publishes the energy state that was there before: only
    [eamlst_set_energy_state] writes it, and after it the public variable
    carries the value set and is otherwise unchanged.  So a node, the root
    included, publishes the energy state 0 of [mlst_init] until the
    application sets another one. *)
Theorem only_the_application_sets_the_energy_state
    (ROOT : bool) (as_pv : list Z -> mlst_public_variable) (RIME_ID : Z)
    (nbrs : list PVN.Nbr) (coin : bool) (s s' : state) (e : Z) :
  mlst_recalculate ROOT as_pv RIME_ID nbrs coin (eamlst_set_energy_state e s)
  = Done s' ->
  energy_state (own_mlst_public_variable s') = e.
Proof.
  unfold mlst_recalculate, eamlst_set_energy_state.
  cbn [own_mlst_public_variable energy_state
       mlst_stay_active_for_next_n_periods].
  destruct ROOT; [intros H; inversion H; reflexivity|].
  destruct (iterate as_pv RIME_ID _ nbrs) as [a|]; [|discriminate].
  destruct (l_best_parent a) as [[b bv]|].
  - destruct ((l_number_of_potential_parents a >? 1) && coin);
      intros H; inversion H; reflexivity.
  - intros H; inversion H; reflexivity.
Qed.

Lemma only_the_application_witness :
  energy_state
    (own_mlst_public_variable
       (mk_state None 0 1 (mk_pv 0 0 0 65535 255 2))) = 2.
Proof.
  apply (only_the_application_sets_the_energy_state true packed 7 [] false
           init_state (mk_state None 0 1 (mk_pv 0 0 0 65535 255 2)) 2).
  reflexivity.
Defined.

End EnergyMore.
